(** * EIP-7702 diagnostic runners: a shallow embedding

    The repository holds three React components, each with one asynchronous
    procedure [runTest] that walks through a numbered list of calls into the
    Dynamic wallet SDK, viem and the Rhinestone SDK, writing a line to the
    on-screen log after every step:

    - [App.runTest]            (the bug reproduction, twelve steps),
    - [RhinestoneTest.runTest] (the end-to-end Rhinestone flow),
    - [Eip7702Test.runTest]    (direct signing through the Dynamic signer),

    and two entry points ([main.tsx], in two revisions) that read the
    configuration and mount the components.

    The embedding keeps the React state of a component ([logs], [running],
    [contractAddress], [lastAuthorization]) as an explicit state record, the
    JavaScript control flow ([return] inside [try], [throw], [catch],
    [finally]) as a three-way completion, and every call that leaves the
    component as an event of the run.  The answers of the collaborators are
    the fields of a [World] record: what each call returns, or what it
    throws. *)

From Stdlib Require Import String Ascii List ZArith Bool Lia.
From Stdlib Require Import DecimalString.
Import ListNotations.
Open Scope list_scope.
Open Scope string_scope.

Set Implicit Arguments.

(* ================================================================== *)
(** * JavaScript values the runners look at *)
(* ================================================================== *)

(** What a [catch (e: any)] clause can receive.  An [Error] object carries a
    string [message]; any other non-nullish value (a thrown string, a plain
    object) has [e.message === undefined]; on [null] and [undefined] the
    property access itself raises a [TypeError]. *)
Inductive Thrown : Type :=
| JsError (message : string)
| JsNoMessage
| JsNullish.

(** The result of one call into a collaborator. *)
Inductive Result (A : Type) : Type :=
| Ok (a : A)
| Throws (e : Thrown).
Arguments Ok {A} a.
Arguments Throws {A} e.

(** The engine's [TypeError] for a property read on [undefined]. *)
Definition typeError (prop : string) : Thrown :=
  JsError ("Cannot read properties of undefined (reading '" ++ prop ++ "')").

(** The double-quote character inside a message. *)
Definition dq : string := String (ascii_of_nat 34) EmptyString.

(** [`${v}`] for a string that may be [undefined]. *)
Definition tmpl (v : option string) : string :=
  match v with Some x => x | None => "undefined" end.

(** Truthiness of a string that may be [undefined]: the empty string is
    falsy. *)
Definition truthy (v : option string) : bool :=
  match v with
  | Some EmptyString => false
  | Some _ => true
  | None => false
  end.

(** [a || b] on possibly undefined strings. *)
Definition or_else (a b : option string) : option string :=
  if truthy a then a else b.

Definition of_bool (b : bool) : string := if b then "true" else "false".

(** The largest integer below which every integer is a number of its own:
    [Number.MAX_SAFE_INTEGER], 2^53 - 1. *)
Definition MAX_SAFE_INTEGER : Z := 9007199254740991%Z.

Definition safe_integer (z : Z) : bool :=
  (Z.abs z <=? MAX_SAFE_INTEGER)%Z.

(** The decimal digits of an integer.  This is [n.toString()] for a bigint
    [n] and for a number that is a safe integer; a number beyond that range
    prints the digits of the nearest double, and from 1e21 on in exponent
    form, which [of_Z] does not give. *)
Definition of_Z (z : Z) : string := NilZero.string_of_int (Z.to_int z).

(** [`${n}`] for a number that may be [undefined]; for the digits see
    [of_Z]. *)
Definition tmplZ (v : option Z) : string :=
  match v with Some z => of_Z z | None => "undefined" end.

Definition tmplBool (v : option bool) : string :=
  match v with Some b => of_bool b | None => "undefined" end.

(** [String.prototype.includes]. *)
Fixpoint includes (hay needle : string) : bool :=
  prefix needle hay ||
  match hay with
  | EmptyString => false
  | String _ rest => includes rest needle
  end.

Definition lower_ascii (c : ascii) : ascii :=
  let n := nat_of_ascii c in
  if (65 <=? n)%nat && (n <=? 90)%nat then ascii_of_nat (n + 32) else c.

(** [String.prototype.toLowerCase]; the strings compared by the runners are
    account addresses, which are ASCII. *)
Fixpoint toLowerCase (s : string) : string :=
  match s with
  | EmptyString => EmptyString
  | String c rest => String (lower_ascii c) (toLowerCase rest)
  end.

(** [s.slice(0, n)]. *)
Definition slice0 (n : nat) (s : string) : string := substring 0 n s.

(** [JSON.stringify] of an array of numbers. *)
Fixpoint join_numbers (l : list Z) : string :=
  match l with
  | [] => EmptyString
  | [z] => of_Z z
  | z :: rest => of_Z z ++ "," ++ join_numbers rest
  end.

Definition stringify_numbers (l : list Z) : string :=
  "[" ++ join_numbers l ++ "]".

(** ** The regular expression [/0x[a-fA-F0-9]{40}/g] *)

Definition is_hex (c : ascii) : bool :=
  let n := nat_of_ascii c in
  ((48 <=? n) && (n <=? 57) || (97 <=? n) && (n <=? 102)
   || (65 <=? n) && (n <=? 70))%nat.

(** The first [n] characters of [s] exist and are hexadecimal digits. *)
Fixpoint hex_run (n : nat) (s : string) : bool :=
  match n with
  | O => true
  | S k =>
      match s with
      | EmptyString => false
      | String c rest => is_hex c && hex_run k rest
      end
  end.

(** The pattern matches at the start of [s]. *)
Definition address_at (s : string) : bool :=
  match s with
  | String "0" (String "x" rest) => hex_run 40 rest
  | _ => false
  end.

(** [s.match(/0x[a-fA-F0-9]{40}/g)]: the matches from left to right; after a
    match the scan resumes behind it ([skip] counts the characters of the
    last match that are still to be passed over).  The empty list stands for
    the [null] that [match] returns when nothing matches. *)
Fixpoint scan_addresses (skip : nat) (s : string) : list string :=
  match s with
  | EmptyString => []
  | String _ rest =>
      match skip with
      | S k => scan_addresses k rest
      | O =>
          if address_at s
          then substring 0 42 s :: scan_addresses 41 rest
          else scan_addresses 0 rest
      end
  end.

Definition match_addresses (s : string) : list string := scan_addresses 0 s.

(** ** Values handed to [convertBigIntsToString] *)

#[local] Unset Elimination Schemes.
Inductive JsValue : Type :=
| JNull
| JUndefined
| JBool (b : bool)
| JNumber (z : Z)
| JBigInt (z : Z)
| JString (s : string)
| JArray (items : list JsValue)
| JObject (fields : list (string * JsValue)).
#[local] Set Elimination Schemes.

(** A [JObject] lists the own enumerable properties of an object in the
    order of [for ... in]; the prototype of the object is the default one,
    which [for ... in] adds nothing to. *)

(** The key that [result[key] = value] does not store under: on a fresh
    [{}] the assignment runs the setter inherited from [Object.prototype],
    and no own property is made. *)
Definition stored_key (key : string) : bool := negb (key =? "__proto__").

(** RhinestoneTest.tsx, [convertBigIntsToString].  The properties of an
    object are converted one by one and assigned to a fresh [{}], so an own
    property called [__proto__] (as [JSON.parse] makes them) is not among the
    own properties of the result.  When the value of that property is an
    object it becomes the prototype of the result, which a [JsValue] does
    not record: the function below gives the own properties of the result. *)
Fixpoint convertBigIntsToString (obj : JsValue) : JsValue :=
  match obj with
  | JNull => JNull
  | JUndefined => JUndefined
  | JBigInt z => JString (of_Z z)
  | JArray items => JArray (map convertBigIntsToString items)
  | JObject fields =>
      JObject
        (filter (fun kv => stored_key (fst kv))
           (map (fun kv => (fst kv, convertBigIntsToString (snd kv))) fields))
  | other => other
  end.

(* ================================================================== *)
(** * Component state, events and the run monad *)
(* ================================================================== *)

(** [type LogEntry = { time; level: 'info' | 'error' | 'success'; msg }]. *)
Inductive Level : Type := info | error | success.

Record LogEntry : Type := mkLogEntry {
  time : string;
  level : Level;
  msg : string;
}.

Definition Level_eqb (a b : Level) : bool :=
  match a, b with
  | info, info | error, error | success, success => true
  | _, _ => false
  end.

(** [level.toUpperCase()]. *)
Definition toUpperCase (l : Level) : string :=
  match l with
  | info => "INFO"
  | error => "ERROR"
  | success => "SUCCESS"
  end.

(** The EIP-7702 authorization object a signer returns; the runners only
    print its fields, any of which may be missing. *)
Module Authorization.
Record t : Type := mk {
  contractAddress : option string;
  address : option string;
  chainId : option Z;
  nonce : option Z;
  r : option string;
  s : option string;
  yParity : option Z;
}.
End Authorization.

(** The [useState] cells of a component.  [App] and [RhinestoneTest] own
    [logs] and [running] only; [Eip7702Test] owns all four.  [clockReads]
    counts the readings of the wall clock taken so far on the page. *)
Record State : Type := mkState {
  logs : list LogEntry;
  running : bool;
  contractAddress : string;
  lastAuthorization : option Authorization.t;
  clockReads : nat;
}.

(** The calls that leave the component, with the arguments the runner
    chooses. *)
Module Call.
Inductive t : Type :=
(* Dynamic wallet and connector *)
| getWalletClient
| isSignAuthorizationSupported
| getNetwork
| switchNetwork (networkChainId : Z)
| setActiveAccount (address : string)
| getActiveAccount
| getSigner
| signer_signAuthorization (contractAddress : string) (chainId : Z)
| dynamicSigner_signMessage
| dynamicSigner_signTransaction
| dynamicSigner_signTypedData (domain message : JsValue)
| dynamicSigner_signAuthorization
    (contractAddress : option string) (chainId : Z) (nonce : option Z)
(* viem *)
| createWalletClient (account : string)
| toAccount (address : string)
| walletClient_signAuthorization (contractAddress : string)
(* Rhinestone SDK *)
| walletClientToAccount
| new_RhinestoneSDK (apiKey : string)
| createAccount (accountType : option string)
| getAddress
| isDeployed
| signEip7702InitData
| prepareTransaction (eip7702InitSignature : option string)
| signTransaction
| signAuthorizations
| getTransactionMessages
| submitTransaction.
End Call.

Inductive Outcome : Type :=
| Returned
| Rejected (e : Thrown).

(** What a run does that can be observed from outside, in order.  An
    [EvCall] stands at the moment the call comes back. *)
Inductive Event : Type :=
| EvSetLogs (l : list LogEntry)
| EvSetRunning (b : bool)
| EvSetLastAuthorization (a : option Authorization.t)
| EvConsoleLog (line : string)
| EvConsoleError
| EvCall (c : Call.t) (o : Outcome).

(** How a block of statements ends: it falls through with a value, it
    executes [return], or it throws. *)
Inductive Completion (A : Type) : Type :=
| Normal (a : A)
| Return
| Throw (e : Thrown).
Arguments Normal {A} a.
Arguments Return {A}.
Arguments Throw {A} e.

Definition M (A : Type) : Type := State -> Completion A * State * list Event.

Definition pure {A} (a : A) : M A := fun st => (Normal a, st, []).

Definition bind {A B} (m : M A) (k : A -> M B) : M B :=
  fun st =>
    match m st with
    | (Normal a, st1, t1) =>
        match k a st1 with
        | (c, st2, t2) => (c, st2, t1 ++ t2)%list
        end
    | (Return, st1, t1) => (Return, st1, t1)
    | (Throw e, st1, t1) => (Throw e, st1, t1)
    end.

Notation "x <- m ;; k" := (bind m (fun x => k))
  (at level 61, m at next level, right associativity).
Notation "m ;; k" := (bind m (fun _ => k))
  (at level 61, right associativity).

(** [return;] *)
Definition return_ {A} : M A := fun st => (Return, st, []).

(** [throw e] *)
Definition throw {A} (e : Thrown) : M A := fun st => (Throw e, st, []).

Definition emit (ev : Event) : M unit := fun st => (Normal tt, st, [ev]).

(** Reading the [contractAddress] cell. *)
Definition read_contractAddress : M string :=
  fun st => (Normal (contractAddress st), st, []).

Definition modify (f : State -> State) : M unit :=
  fun st => (Normal tt, f st, []).

(** [if (b) { m }] *)
Definition when (b : bool) (m : M unit) : M unit :=
  if b then m else pure tt.

(** [try { m } catch (e) { h e }] *)
Definition tryCatch {A} (m : M A) (h : Thrown -> M A) : M A :=
  fun st =>
    match m st with
    | (Throw e, st1, t1) =>
        match h e st1 with
        | (c, st2, t2) => (c, st2, t1 ++ t2)%list
        end
    | other => other
    end.

(** [try { m } finally { f }]: [f] runs on every way out of [m]; when [f]
    itself falls through, the completion of [m] stands. *)
Definition tryFinally {A} (m : M A) (f : M unit) : M A :=
  fun st =>
    match m st with
    | (c, st1, t1) =>
        match f st1 with
        | (Normal _, st2, t2) => (c, st2, t1 ++ t2)%list
        | (Return, st2, t2) => (Return, st2, t1 ++ t2)%list
        | (Throw e, st2, t2) => (Throw e, st2, t1 ++ t2)%list
        end
    end.

(** A call into a collaborator whose answer is [r]. *)
Definition call {A} (c : Call.t) (r : Result A) : M A :=
  match r with
  | Ok a => emit (EvCall c Returned) ;; pure a
  | Throws e => emit (EvCall c (Rejected e)) ;; throw e
  end.

(** [e.message] in a [catch] clause. *)
Definition message (e : Thrown) : M (option string) :=
  match e with
  | JsError m => pure (Some m)
  | JsNoMessage => pure None
  | JsNullish => throw (typeError "message")
  end.

(** The state setters. *)
Definition setLogs (l : list LogEntry) : M unit :=
  modify (fun st => mkState l (running st) (contractAddress st)
                            (lastAuthorization st) (clockReads st)) ;;
  emit (EvSetLogs l).

Definition setRunning (b : bool) : M unit :=
  modify (fun st => mkState (logs st) b (contractAddress st)
                            (lastAuthorization st) (clockReads st)) ;;
  emit (EvSetRunning b).

Definition setLastAuthorization (a : option Authorization.t) : M unit :=
  modify (fun st => mkState (logs st) (running st) (contractAddress st)
                            a (clockReads st)) ;;
  emit (EvSetLastAuthorization a).

(** [const log = (level, msg) => { ... }], the same in the three components:
    read the clock, append one entry with [setLogs(prev => [...prev, entry])]
    and echo the line to the console.  [clock n] is what the [n]-th reading
    of [new Date().toLocaleTimeString()] on the page shows. *)
Definition log (clock : nat -> string) (lvl : Level) (m : string) : M unit :=
  fun st =>
    let entry := mkLogEntry (clock (clockReads st)) lvl m in
    (Normal tt,
     mkState (logs st ++ [entry])%list (running st) (contractAddress st)
             (lastAuthorization st) (S (clockReads st)),
     [EvConsoleLog ("[" ++ toUpperCase lvl ++ "] " ++ m)]).

(** [base.id] of [viem/chains]. *)
Definition base_id : Z := 8453.

(** [if (!x) { onMissing; return; }] followed by a use of [x]. *)
Definition require {A} (x : option A) (onMissing : M unit) : M A :=
  match x with
  | Some a => pure a
  | None => onMissing ;; return_
  end.

(** [m?.()] on a method that may be missing: [undefined] when it is. *)
Definition optional_call {A} (c : Call.t) (method : option (Result A))
    (undefined : A) : M A :=
  match method with
  | Some r => call c r
  | None => pure undefined
  end.

(** [m.includes(a) || m.includes(b) || ...] on [m = e.message]. *)
Definition includes_any (m : option string) (needles : list string) : M bool :=
  match m with
  | Some hay => pure (existsb (includes hay) needles)
  | None => throw (typeError "includes")
  end.

(* ================================================================== *)
(** * The collaborators *)
(* ================================================================== *)

(** Every call is made at most once in a run with arguments that the run
    itself fixes ([getAddress] twice, with none), so the answer to a call is
    a value of the world and not a function of the arguments. *)

(** The object [connector.getSigner()] resolves to (typed [any]). *)
Module Signer.
Record t : Type := mk {
  account_address : option string;      (* signer.account?.address *)
  signAuthorization : option (Result (option Authorization.t));
}.
End Signer.

(** [primaryWallet.connector], with the optional members the components
    probe. *)
Module Connector.
Record t : Type := mk {
  name : option string;
  isSignAuthorizationSupported : option (Result bool);
  evmNetworks : option (list Z);        (* the chainId of each network *)
  getNetwork : option (Result (option Z));
  switchNetwork : option (Result unit);
  setActiveAccount : option (Result unit);
  getActiveAccount : option (Result (option string)); (* the address, or null *)
  getSigner : option (Result (option Signer.t));
  getWalletClient : bool;               (* member present *)
  exportPrivateKey : bool;              (* member present *)
}.
End Connector.

(** [primaryWallet] of [useDynamicContext()]. *)
Module Wallet.
Record t : Type := mk {
  address : string;
  connector : option Connector.t;
  getWalletClient : Result bool;        (* is the provider truthy *)
}.

(** [primaryWallet.connector?.name] *)
Definition connector_name (wallet : t) : option string :=
  match connector wallet with
  | Some c => Connector.name c
  | None => None
  end.

(** [connector.evmNetworks?.map(n => n.chainId) || []] *)
Definition declared_chains (wallet : t) : list Z :=
  match connector wallet with
  | Some c =>
      match Connector.evmNetworks c with
      | Some networks => networks
      | None => []
      end
  | None => []
  end.
End Wallet.

(* ================================================================== *)
(** * App.tsx: the bug reproduction *)
(* ================================================================== *)

Module App.

(** The viem wallet client: [signAuthorization] is there or not
    ([typeof walletClient.signAuthorization === 'function']). *)
Record WalletClient : Type := mkWalletClient {
  signAuthorization : option (Result Authorization.t);
}.

(** The object [sdk.createAccount] resolves to.  A prepared transaction is
    opaque; the transaction messages are known by their [JSON.stringify]
    dump (bigints printed as strings), the authorization list by its
    length. *)
Record RhinestoneAccount : Type := mkRhinestoneAccount {
  getAddress : Result string;
  isDeployed : Result bool;
  signEip7702InitData : Result (option string);
  prepareTransaction : Result unit;
  signAuthorizations : Result nat;
  getTransactionMessages : Result string;
}.

Record World : Type := mkWorld {
  clock : nat -> string;
  RHINESTONE_API_KEY : option string;
  primaryWallet : option Wallet.t;
  createWalletClient : Result WalletClient;
  walletClientToAccount : Result (option string);   (* account.type *)
  new_RhinestoneSDK : Result unit;
  createAccount : Result RhinestoneAccount;
}.

(** The local constants that steps 1 to 7 leave for the later steps. *)
Record Context : Type := mkContext {
  wallet : Wallet.t;
  walletClient : WalletClient;
  rhinestoneAccount : RhinestoneAccount;
}.

(** Steps 1 to 7: from the wallet to the Rhinestone account. *)
Definition setup (w : World) : M Context :=
  let log := log (clock w) in
  (* Step 1: Check wallet connection *)
  log info "Step 1: Checking Dynamic wallet connection..." ;;
  wallet <- require (primaryWallet w)
              (log error "No wallet connected. Please connect first.") ;;
  let address := Wallet.address wallet in
  log success ("Wallet connected: " ++ address) ;;
  log info ("Wallet type: "
            ++ tmpl (or_else (Wallet.connector_name wallet) (Some "unknown"))) ;;
  (* Step 2: Get provider from Dynamic *)
  log info "Step 2: Getting provider from Dynamic wallet..." ;;
  provider <- call Call.getWalletClient (Wallet.getWalletClient wallet) ;;
  when (negb provider)
    (log error "Failed to get wallet client from Dynamic" ;; return_) ;;
  log success "Got wallet client from Dynamic" ;;
  (* Step 3: Create viem wallet client *)
  log info "Step 3: Creating viem WalletClient..." ;;
  walletClient <- call (Call.createWalletClient address)
                    (createWalletClient w) ;;
  log success "WalletClient created" ;;
  (* Step 4: Convert to Rhinestone account *)
  log info
    "Step 4: Converting to Rhinestone account via walletClientToAccount..." ;;
  account_type <- call Call.walletClientToAccount (walletClientToAccount w) ;;
  let account_type :=
    match account_type with Some t => t | None => "json-rpc" end in
  log success ("Account created - type: " ++ dq ++ account_type ++ dq) ;;
  (* Step 5: Initialize Rhinestone SDK *)
  log info "Step 5: Initializing Rhinestone SDK..." ;;
  when (negb (truthy (RHINESTONE_API_KEY w)))
    (log error "VITE_RHINESTONE_API_KEY not set" ;; return_) ;;
  call (Call.new_RhinestoneSDK (tmpl (RHINESTONE_API_KEY w)))
    (new_RhinestoneSDK w) ;;
  log success "Rhinestone SDK initialized" ;;
  (* Step 6: Create 7702 account *)
  log info ("Step 6: Creating Rhinestone account with accountType: "
            ++ dq ++ "7702" ++ dq ++ "...") ;;
  rhinestoneAccount <- call (Call.createAccount (Some "7702"))
                         (createAccount w) ;;
  rhinestoneAddress <- call Call.getAddress (getAddress rhinestoneAccount) ;;
  log success ("Rhinestone account: " ++ rhinestoneAddress) ;;
  log info ("EOA match: "
            ++ of_bool (toLowerCase rhinestoneAddress =? toLowerCase address)) ;;
  (* Step 7: Check deployment *)
  log info "Step 7: Checking deployment status on Base..." ;;
  deployed <- call Call.isDeployed (isDeployed rhinestoneAccount) ;;
  log info ("Account deployed: " ++ of_bool deployed) ;;
  pure (mkContext wallet walletClient rhinestoneAccount).

(** Step 8: the init signature, [undefined] when it could not be had. *)
Definition sign_init_data (log : Level -> string -> M unit)
    (rhinestoneAccount : RhinestoneAccount) : M (option string) :=
  log info "Step 8: Signing EIP-7702 init data..." ;;
  tryCatch
    (signature <- call Call.signEip7702InitData
                    (signEip7702InitData rhinestoneAccount) ;;
     if truthy signature && negb (tmpl signature =? "0x")
     then log success ("Init signature: "
                       ++ slice0 20 (tmpl signature) ++ "...") ;;
          pure signature
     else log error "signEip7702InitData returned empty/null" ;;
          pure None)
    (fun e =>
       m <- message e ;;
       log error ("signEip7702InitData failed: " ++ tmpl m) ;;
       pure None).

(** Step 9: prepare the transaction; a failure ends the run. *)
Definition prepare (log : Level -> string -> M unit)
    (rhinestoneAccount : RhinestoneAccount)
    (eip7702InitSignature : option string) : M unit :=
  log info ("Step 9: Preparing transaction with feeAsset: "
            ++ dq ++ "USDC" ++ dq ++ "...") ;;
  log info ("Including eip7702InitSignature: "
            ++ of_bool (truthy eip7702InitSignature)) ;;
  tryCatch
    (call (Call.prepareTransaction eip7702InitSignature)
       (prepareTransaction rhinestoneAccount) ;;
     log success "Transaction prepared")
    (fun e =>
       m <- message e ;;
       log error ("prepareTransaction failed: " ++ tmpl m) ;;
       return_).

(** Step 10: the call under test; the value is [signAuthFailed]. *)
Definition critical_test (log : Level -> string -> M unit)
    (rhinestoneAccount : RhinestoneAccount) : M bool :=
  log info "Step 10: Calling signAuthorizations (THE BUG TEST)..." ;;
  tryCatch
    (authorizations <- call Call.signAuthorizations
                         (signAuthorizations rhinestoneAccount) ;;
     log success ("signAuthorizations succeeded! Got "
                  ++ of_Z (Z.of_nat authorizations) ++ " auth(s)") ;;
     pure false)
    (fun e =>
       m <- message e ;;
       log error ("signAuthorizations FAILED: " ++ tmpl m) ;;
       known <- includes_any m ["Account type"; "json-rpc"; "not supported"] ;;
       when known
         (log error
            ">>> BUG CONFIRMED: JSON-RPC account cannot sign EIP-7702 authorizations") ;;
       pure true).

(** [addrMatch?.find(a => a.toLowerCase() !== address.toLowerCase())] on
    the matches of the address pattern in [msgStr]. *)
Definition delegate_candidate (msgStr address : string) : option string :=
  let addrMatch := match_addresses msgStr in
  find (fun a => negb (toLowerCase a =? toLowerCase address)) addrMatch.

(** Step 11, the branch taken when [signAuthorizations] failed and the
    wallet client has [signAuthorization]. *)
Definition workaround (log : Level -> string -> M unit) (address : string)
    (rhinestoneAccount : RhinestoneAccount)
    (signAuthorization : Result Authorization.t) : M unit :=
  log info "walletClient.signAuthorization exists, trying it..." ;;
  tryCatch
    (messages <- call Call.getTransactionMessages
                   (getTransactionMessages rhinestoneAccount) ;;
     log info ("Transaction messages: " ++ slice0 300 messages ++ "...") ;;
     let msgStr := messages in
     match delegate_candidate msgStr address with
     | Some delegateAddr =>
         log info ("Found potential delegate: " ++ delegateAddr) ;;
         tryCatch
           (auth <- call (Call.walletClient_signAuthorization delegateAddr)
                      signAuthorization ;;
            log success "Manual signAuthorization succeeded!" ;;
            log info ("r: "
                      ++ tmpl (option_map (slice0 20) (Authorization.r auth))
                      ++ "..."))
           (fun authErr =>
              m <- message authErr ;;
              log error ("walletClient.signAuthorization call failed: "
                         ++ tmpl m) ;;
              unsupported <-
                includes_any m ["not supported"; "Method not found"] ;;
              when unsupported
                (log error
                   ">>> Wallet does not support wallet_signAuthorization RPC method"))
     | None =>
         log error "Could not extract delegate address from SDK" ;;
         log info
           "This means Rhinestone SDK does not expose the delegate contract address"
     end)
    (fun e =>
       m <- message e ;;
       log error ("Workaround setup failed: " ++ tmpl m)).

(** Step 11. *)
Definition try_workaround (log : Level -> string -> M unit) (ctx : Context)
    (signAuthFailed : bool) : M unit :=
  (if negb signAuthFailed
   then log info
          "Step 11: Skipping workaround test (signAuthorizations worked)"
   else log info
          "Step 11: Testing walletClient.signAuthorization workaround...") ;;
  match signAuthFailed, signAuthorization (walletClient ctx) with
  | true, Some answer =>
      workaround log (Wallet.address (wallet ctx)) (rhinestoneAccount ctx)
        answer
  | true, None =>
      log error
        "walletClient.signAuthorization not available on this walletClient"
  | false, _ => pure tt
  end.

(** Step 12, informational. *)
Definition capabilities (log : Level -> string -> M unit)
    (wallet : Wallet.t) : M unit :=
  log info "Step 12: Checking Dynamic wallet capabilities..." ;;
  log info ("Wallet connector: " ++ tmpl (Wallet.connector_name wallet)) ;;
  let isEmbedded :=
    option_map
      (fun n => includes (toLowerCase n) "embedded"
                || includes (toLowerCase n) "dynamic")
      (Wallet.connector_name wallet) in
  log info ("Is embedded wallet: " ++ tmplBool isEmbedded) ;;
  (match isEmbedded with
   | Some true =>
       log info "For embedded wallets, Dynamic might support:" ;;
       log info "  - Exporting private key (user-initiated)" ;;
       log info "  - Server-side authorization signing via API" ;;
       log info "  - wallet_signAuthorization RPC method"
   | _ =>
       log info "External wallet (e.g., MetaMask) detected" ;;
       log info
         "External wallets would need to implement EIP-7702 signing natively"
   end) ;;
  tryCatch
    (match Wallet.connector wallet with
     | Some connector =>
         when (Connector.getWalletClient connector)
           (log info "Connector has getWalletClient method") ;;
         when (match Connector.getSigner connector with
               | Some _ => true | None => false end)
           (log info
              "Connector has getSigner method - might return local signer") ;;
         when (Connector.exportPrivateKey connector)
           (log info "Connector has exportPrivateKey method!")
     | None => pure tt
     end)
    (fun _ => pure tt).

(** The statements inside the outer [try] of [runTest], step by step. *)
Definition steps (w : World) : M unit :=
  let log := log (clock w) in
  ctx <- setup w ;;
  eip7702InitSignature <- sign_init_data log (rhinestoneAccount ctx) ;;
  prepare log (rhinestoneAccount ctx) eip7702InitSignature ;;
  signAuthFailed <- critical_test log (rhinestoneAccount ctx) ;;
  try_workaround log ctx signAuthFailed ;;
  capabilities log (wallet ctx).

(** [catch (e: any) { log('error', `Unexpected error: ${e.message}`); }] *)
Definition unexpected (w : World) (e : Thrown) : M unit :=
  m <- message e ;;
  log (clock w) error ("Unexpected error: " ++ tmpl m).

(** [const runTest = async () => { ... }] of App.tsx. *)
Definition runTest (w : World) : M unit :=
  setLogs [] ;;
  setRunning true ;;
  tryFinally (tryCatch (steps w) (unexpected w)) (setRunning false).

End App.

(* ================================================================== *)
(** * Eip7702Test.tsx: direct signing through the Dynamic signer *)
(* ================================================================== *)

Module Eip7702Test.

(** [const TEST_DELEGATE_CONTRACT], the initial value of [contractAddress]. *)
Definition TEST_DELEGATE_CONTRACT : string :=
  "0x0000000000000000000000000000000000000001".

Record World : Type := mkWorld {
  clock : nat -> string;
  primaryWallet : option Wallet.t;
}.

(** Steps 1 and 2: the wallet, its connector, the support probe. *)
Definition identify (w : World) : M (Wallet.t * Connector.t) :=
  let log := log (clock w) in
  (* Step 1: Check wallet connection *)
  log info "Step 1: Checking Dynamic wallet connection..." ;;
  wallet <- require (primaryWallet w)
              (log error "No wallet connected. Please connect first.") ;;
  let address := Wallet.address wallet in
  log success ("Wallet connected: " ++ address) ;;
  log info ("Connector: " ++ tmpl (Wallet.connector_name wallet)) ;;
  connector <- require (Wallet.connector wallet)
                 (log error "No connector found") ;;
  (* Step 2: Check EIP-7702 support *)
  log info "Step 2: Checking EIP-7702 support..." ;;
  supported <- optional_call Call.isSignAuthorizationSupported
                 (Connector.isSignAuthorizationSupported connector) false ;;
  (if supported
   then log success "EIP-7702 signAuthorization is supported!"
   else log info
          "isSignAuthorizationSupported not available or returned false") ;;
  pure (wallet, connector).

(** Step 3: the network check; [return]s when Base is not offered. *)
Definition check_network (log : Level -> string -> M unit)
    (connector : Connector.t) : M unit :=
  log info "Step 3: Checking network..." ;;
  let availableChains :=
    match Connector.evmNetworks connector with
    | Some networks => networks
    | None => []
    end in
  log info ("Available chains: " ++ stringify_numbers availableChains) ;;
  if existsb (Z.eqb base_id) availableChains
  then
    currentNetwork <- optional_call Call.getNetwork
                        (Connector.getNetwork connector) None ;;
    if match currentNetwork with
       | Some n => negb (n =? base_id)%Z
       | None => true
       end
    then
      log info ("Switching to Base (" ++ of_Z base_id ++ ")...") ;;
      optional_call (Call.switchNetwork base_id)
        (Connector.switchNetwork connector) tt ;;
      log success "Switched to Base"
    else
      log success "Already on Base"
  else
    log error "Base not available. Add it in Dynamic dashboard." ;;
    return_.

(** Step 4: make the connected address the active account. *)
Definition activate (log : Level -> string -> M unit)
    (wallet : Wallet.t) (connector : Connector.t) : M unit :=
  log info "Step 4: Setting active account..." ;;
  setActive <- require (Connector.setActiveAccount connector)
                 (log error "setActiveAccount not available on connector") ;;
  call (Call.setActiveAccount (Wallet.address wallet)) setActive ;;
  activeAccount <- optional_call Call.getActiveAccount
                     (Connector.getActiveAccount connector) None ;;
  if truthy activeAccount
  then log success ("Active account set: " ++ tmpl activeAccount)
  else log error "Failed to set active account" ;; return_.

(** Step 5: get the signer, sign, show and store the authorization. *)
Definition sign (log : Level -> string -> M unit)
    (connector : Connector.t) : M unit :=
  log info "Step 5: Getting signer and signing EIP-7702 authorization..." ;;
  getSigner <- require (Connector.getSigner connector)
                 (log error "getSigner not available") ;;
  signer <- call Call.getSigner getSigner ;;
  signer <- require signer (log error "Failed to get signer") ;;
  log success ("Signer obtained: "
               ++ tmpl (or_else (Signer.account_address signer)
                                (Some "unknown"))) ;;
  signAuthorization <- require (Signer.signAuthorization signer)
                         (log error "signer.signAuthorization not available") ;;
  contractAddress <- read_contractAddress ;;
  log info ("Signing authorization for contract: " ++ contractAddress) ;;
  log info ("Chain ID: " ++ of_Z base_id) ;;
  authorization <-
    call (Call.signer_signAuthorization contractAddress base_id)
      signAuthorization ;;
  log success "=== EIP-7702 AUTHORIZATION SIGNED SUCCESSFULLY! ===" ;;
  a <- match authorization with
       | Some a => pure a
       | None => throw (typeError "contractAddress")
       end ;;
  log success ("Contract: "
               ++ tmpl (or_else (Authorization.contractAddress a)
                                (Authorization.address a))) ;;
  log success ("Chain ID: " ++ tmplZ (Authorization.chainId a)) ;;
  log success ("Nonce: " ++ tmplZ (Authorization.nonce a)) ;;
  log success ("r: " ++ tmpl (Authorization.r a)) ;;
  log success ("s: " ++ tmpl (Authorization.s a)) ;;
  log success ("yParity: " ++ tmplZ (Authorization.yParity a)) ;;
  setLastAuthorization (Some a) ;;
  log info EmptyString ;;
  log info "This authorization can be used in a transaction:" ;;
  log info "walletClient.sendTransaction({" ;;
  log info "  authorizationList: [authorization]," ;;
  log info "  to: eoaAddress," ;;
  log info "  data: encodeFunctionData(...)," ;;
  log info "});".

(** The statements inside the [try] of [runTest], step by step. *)
Definition steps (w : World) : M unit :=
  let log := log (clock w) in
  found <- identify w ;;
  check_network log (snd found) ;;
  activate log (fst found) (snd found) ;;
  sign log (snd found).

(** [catch (e: any) { log('error', `Error: ${e.message}`);
    console.error('Full error:', e); }] *)
Definition failed (w : World) (e : Thrown) : M unit :=
  m <- message e ;;
  log (clock w) error ("Error: " ++ tmpl m) ;;
  emit EvConsoleError.

(** [const runTest = async () => { ... }] of Eip7702Test.tsx. *)
Definition runTest (w : World) : M unit :=
  setLogs [] ;;
  setLastAuthorization None ;;
  setRunning true ;;
  tryFinally (tryCatch (steps w) (failed w)) (setRunning false).

(** [{lastAuthorization && (<div>...</div>)}]: what the result panel
    shows, if anything. *)
Definition panel (st : State) : option Authorization.t := lastAuthorization st.

End Eip7702Test.

(* ================================================================== *)
(** * RhinestoneTest.tsx: the end-to-end flow *)
(* ================================================================== *)

Module RhinestoneTest.

(** What the SDK may ask of the owner account built with [toAccount]. *)
Module OwnerRequest.
Inductive t : Type :=
| signMessage
| signTransaction
| signTypedData (domain message : JsValue)
| signAuthorization (contractAddress address : option string)
    (chainId : Z) (nonce : option Z).
End OwnerRequest.

(** The answer of an asynchronous SDK method: the requests it sends to the
    owner account while it runs, each with what the Dynamic signer answers
    to it, and then its own result. *)
Record Answer (A : Type) : Type := mkAnswer {
  requests : list (OwnerRequest.t * Outcome);
  result : Result A;
}.

Record RhinestoneAccount : Type := mkRhinestoneAccount {
  getAddress : Result string;
  signEip7702InitData : Answer (option string);
  prepareTransaction : Answer unit;
  signTransaction : Answer unit;
  signAuthorizations : Answer nat;        (* authorizations.length *)
  submitTransaction : Answer string;      (* JSON.stringify(result, ...) *)
}.

Record World : Type := mkWorld {
  clock : nat -> string;
  RHINESTONE_API_KEY : option string;
  primaryWallet : option Wallet.t;
  toAccount : Result unit;
  new_RhinestoneSDK : Result unit;
  createAccount : Answer RhinestoneAccount;
}.

(** The four handlers passed to [toAccount]: each forwards to the Dynamic
    signer; [signAuthorization] writes a log line first. *)
Definition eoaAccount (log : Level -> string -> M unit)
    (request : OwnerRequest.t * Outcome) : M unit :=
  let answer := snd request in
  match fst request with
  | OwnerRequest.signMessage =>
      emit (EvCall Call.dynamicSigner_signMessage answer)
  | OwnerRequest.signTransaction =>
      emit (EvCall Call.dynamicSigner_signTransaction answer)
  | OwnerRequest.signTypedData domain message =>
      emit (EvCall (Call.dynamicSigner_signTypedData
                      (convertBigIntsToString domain)
                      (convertBigIntsToString message)) answer)
  | OwnerRequest.signAuthorization contractAddress address chainId nonce =>
      let contractAddress := or_else contractAddress address in
      log info ("Signing authorization for: " ++ tmpl contractAddress) ;;
      emit (EvCall (Call.dynamicSigner_signAuthorization
                      contractAddress chainId nonce) answer)
  end.

Fixpoint serve (log : Level -> string -> M unit)
    (reqs : list (OwnerRequest.t * Outcome)) : M unit :=
  match reqs with
  | [] => pure tt
  | request :: rest => eoaAccount log request ;; serve log rest
  end.

(** [await rhinestoneAccount.method(...)]. *)
Definition sdk_call {A} (log : Level -> string -> M unit) (c : Call.t)
    (answer : Answer A) : M A :=
  serve log (requests answer) ;;
  call c (result answer).

(** From the wallet to the Rhinestone account. *)
Definition setup (w : World) : M RhinestoneAccount :=
  let log := log (clock w) in
  wallet <- require (primaryWallet w) (log error "No wallet connected") ;;
  let address := Wallet.address wallet in
  log success ("Wallet: " ++ address) ;;
  (* Setup Dynamic WaaS connector *)
  waas <- require
            (match Wallet.connector wallet with
             | Some connector =>
                 match Connector.setActiveAccount connector,
                       Connector.getSigner connector with
                 | Some setActive, Some getSigner => Some (setActive, getSigner)
                 | _, _ => None
                 end
             | None => None
             end)
            (log error "Not a WaaS wallet") ;;
  call (Call.setActiveAccount address) (fst waas) ;;
  dynamicSigner <- call Call.getSigner (snd waas) ;;
  when (match dynamicSigner with
        | Some signer =>
            match Signer.signAuthorization signer with
            | Some _ => false
            | None => true
            end
        | None => true
        end)
    (log error "Signer missing signAuthorization" ;; return_) ;;
  log success "Dynamic signer ready" ;;
  (* Create custom viem account *)
  call (Call.toAccount address) (toAccount w) ;;
  log success "Custom account created" ;;
  (* Initialize Rhinestone SDK *)
  when (negb (truthy (RHINESTONE_API_KEY w)))
    (log error "RHINESTONE_API_KEY not set" ;; return_) ;;
  call (Call.new_RhinestoneSDK (tmpl (RHINESTONE_API_KEY w)))
    (new_RhinestoneSDK w) ;;
  (* Create Rhinestone account *)
  rhinestoneAccount <- sdk_call log (Call.createAccount None)
                         (createAccount w) ;;
  shown <- call Call.getAddress (getAddress rhinestoneAccount) ;;
  log success ("Rhinestone account: " ++ shown) ;;
  pure rhinestoneAccount.

(** Sign EIP-7702 init data: [undefined] when the call throws. *)
Definition sign_init_data (log : Level -> string -> M unit)
    (rhinestoneAccount : RhinestoneAccount) : M (option string) :=
  log info "Signing EIP-7702 init data..." ;;
  tryCatch
    (signature <- sdk_call log Call.signEip7702InitData
                    (signEip7702InitData rhinestoneAccount) ;;
     log success ("Init signature: "
                  ++ tmpl (option_map (slice0 20) signature) ++ "...") ;;
     pure signature)
    (fun e =>
       m <- message e ;;
       log error ("signEip7702InitData failed: " ++ tmpl m) ;;
       pure None).

(** Prepare transaction. *)
Definition prepare (log : Level -> string -> M unit)
    (rhinestoneAccount : RhinestoneAccount)
    (eip7702InitSignature : option string) : M unit :=
  log info "Preparing transaction..." ;;
  call Call.getAddress (getAddress rhinestoneAccount) ;;
  sdk_call log (Call.prepareTransaction eip7702InitSignature)
    (prepareTransaction rhinestoneAccount) ;;
  log success "Transaction prepared".

(** Sign transaction, sign authorizations, submit transaction. *)
Definition sign_and_submit (log : Level -> string -> M unit)
    (rhinestoneAccount : RhinestoneAccount) : M unit :=
  log info "Signing transaction..." ;;
  sdk_call log Call.signTransaction (signTransaction rhinestoneAccount) ;;
  log success "Transaction signed" ;;
  log info "Signing authorizations..." ;;
  authorizations <- sdk_call log Call.signAuthorizations
                      (signAuthorizations rhinestoneAccount) ;;
  log success ("Authorizations signed: " ++ of_Z (Z.of_nat authorizations)) ;;
  log info "Submitting transaction..." ;;
  submitted <- sdk_call log Call.submitTransaction
                 (submitTransaction rhinestoneAccount) ;;
  log success "=== TRANSACTION SUBMITTED ===" ;;
  log info ("Result: " ++ submitted).

(** The statements inside the [try] of [runTest], block by block. *)
Definition steps (w : World) : M unit :=
  let log := log (clock w) in
  rhinestoneAccount <- setup w ;;
  eip7702InitSignature <- sign_init_data log rhinestoneAccount ;;
  prepare log rhinestoneAccount eip7702InitSignature ;;
  sign_and_submit log rhinestoneAccount.

(** [catch (e: any) { log("error", `Error: ${e.message}`);
    console.error(e); }] *)
Definition failed (w : World) (e : Thrown) : M unit :=
  m <- message e ;;
  log (clock w) error ("Error: " ++ tmpl m) ;;
  emit EvConsoleError.

(** [const runTest = async () => { ... }] of RhinestoneTest.tsx. *)
Definition runTest (w : World) : M unit :=
  setLogs [] ;;
  setRunning true ;;
  tryFinally (tryCatch (steps w) (failed w)) (setRunning false).

End RhinestoneTest.

(* ================================================================== *)
(** * main.tsx: start-up *)
(* ================================================================== *)

Module Main.

(** vite-env.d.ts, [interface ImportMetaEnv]; a variable that is not set
    reads as [undefined]. *)
Record ImportMetaEnv : Type := mkEnv {
  VITE_RHINESTONE_API_KEY : option string;
  VITE_DYNAMIC_ENVIRONMENT_ID : option string;
}.

(** What evaluating the entry module leads to: the [throw] at its top, or
    the page mounted under a [DynamicContextProvider]; the components then
    see the module constant [RHINESTONE_API_KEY]. *)
Inductive Startup : Type :=
| Failed (e : Thrown)
| Mounted (environmentId : string) (RHINESTONE_API_KEY : option string).

(** The module body of main.tsx (the same check in both revisions).  The
    imports are evaluated first: they read [VITE_RHINESTONE_API_KEY] into
    the constant [RHINESTONE_API_KEY] and test nothing. *)
Definition main (env : ImportMetaEnv) : Startup :=
  let RHINESTONE_API_KEY := VITE_RHINESTONE_API_KEY env in
  let DYNAMIC_ENVIRONMENT_ID := VITE_DYNAMIC_ENVIRONMENT_ID env in
  if negb (truthy DYNAMIC_ENVIRONMENT_ID)
  then Failed (JsError "VITE_DYNAMIC_ENVIRONMENT_ID is required")
  else Mounted (tmpl DYNAMIC_ENVIRONMENT_ID) RHINESTONE_API_KEY.

End Main.

(* ================================================================== *)
(** * The three runners side by side *)
(* ================================================================== *)

(** A runner together with the collaborators it is run against. *)
Inductive Variant : Type :=
| BugRepro (w : App.World)
| EndToEnd (w : RhinestoneTest.World)
| DirectSigning (w : Eip7702Test.World).

Definition runTest (v : Variant) : M unit :=
  match v with
  | BugRepro w => App.runTest w
  | EndToEnd w => RhinestoneTest.runTest w
  | DirectSigning w => Eip7702Test.runTest w
  end.

Definition primaryWallet (v : Variant) : option Wallet.t :=
  match v with
  | BugRepro w => App.primaryWallet w
  | EndToEnd w => RhinestoneTest.primaryWallet w
  | DirectSigning w => Eip7702Test.primaryWallet w
  end.

Definition clock (v : Variant) : nat -> string :=
  match v with
  | BugRepro w => App.clock w
  | EndToEnd w => RhinestoneTest.clock w
  | DirectSigning w => Eip7702Test.clock w
  end.

(** The variants that go through the account-abstraction client. *)
Definition account_abstraction (v : Variant) : bool :=
  match v with
  | BugRepro _ | EndToEnd _ => true
  | DirectSigning _ => false
  end.

(** The three parts of what a run yields. *)
Definition completion {A} (r : Completion A * State * list Event)
  : Completion A := fst (fst r).
Definition final {A} (r : Completion A * State * list Event)
  : State := snd (fst r).
Definition events {A} (r : Completion A * State * list Event)
  : list Event := snd r.

(* ================================================================== *)
(** * Scripts *)
(* ================================================================== *)

(** The level and the message of an entry, without its time. *)
Definition content (e : LogEntry) : Level * string := (level e, msg e).

(** The entries that [log] appends for the lines [cs], in order, when the
    clock has been read [n] times before. *)
Fixpoint stamp (clock : nat -> string) (n : nat) (cs : list (Level * string))
  : list LogEntry :=
  match cs with
  | [] => []
  | c :: rest => mkLogEntry (clock n) (fst c) (snd c) :: stamp clock (S n) rest
  end.

(** The state after a block that has logged the lines [cs] and, when [la]
    is there, stored it with [setLastAuthorization]. *)
Definition after (clock : nat -> string) (st : State)
    (cs : list (Level * string)) (la : option Authorization.t) : State :=
  mkState (logs st ++ stamp clock (clockReads st) cs)%list
          (running st) (contractAddress st)
          (match la with Some a => Some a | None => lastAuthorization st end)
          (clockReads st + length cs).

Definition is_console (ev : Event) : Prop :=
  match ev with
  | EvConsoleLog _ | EvConsoleError => True
  | _ => False
  end.

(** The blocks of statements of the three [try] bodies are put together
    from a few statement forms; [script clock allowed m] says that [m] is,
    with [clock] behind [log] and with calls and stores among [allowed]. *)
Inductive script (clock : nat -> string) (allowed : Event -> Prop)
  : forall A : Type, M A -> Prop :=
| script_pure : forall A (a : A), script clock allowed (pure a)
| script_bind : forall A B (m : M A) (k : A -> M B),
    script clock allowed m ->
    (forall a, script clock allowed (k a)) ->
    script clock allowed (bind m k)
| script_return : forall A, script clock allowed (@return_ A)
| script_typeError : forall A prop,
    script clock allowed (@throw A (typeError prop))
| script_console_error : script clock allowed (emit EvConsoleError)
| script_call : forall A c (r : Result A),
    (forall o, allowed (EvCall c o)) ->
    script clock allowed (call c r)
| script_forward : forall c o,
    allowed (EvCall c o) ->
    script clock allowed (emit (EvCall c o))
| script_log : forall lvl m, script clock allowed (log clock lvl m)
| script_tryCatch : forall A (m : M A) (h : Thrown -> M A),
    script clock allowed m ->
    (forall e, script clock allowed (h e)) ->
    script clock allowed (tryCatch m h)
| script_read : script clock allowed read_contractAddress
| script_store : forall a,
    allowed (EvSetLastAuthorization (Some a)) ->
    script clock allowed (setLastAuthorization (Some a)).

(** The calls of each block. *)
Definition calls_among (cs : Call.t -> bool) (ev : Event) : Prop :=
  match ev with
  | EvCall c _ => cs c = true
  | _ => False
  end.

Definition no_calls (c : Call.t) : bool := false.

Definition dynamicSigner_calls (c : Call.t) : bool :=
  match c with
  | Call.dynamicSigner_signMessage
  | Call.dynamicSigner_signTransaction
  | Call.dynamicSigner_signTypedData _ _
  | Call.dynamicSigner_signAuthorization _ _ _ => true
  | _ => false
  end.

Definition App_setup_calls (c : Call.t) : bool :=
  match c with
  | Call.getWalletClient
  | Call.createWalletClient _
  | Call.walletClientToAccount
  | Call.new_RhinestoneSDK _
  | Call.createAccount _
  | Call.getAddress
  | Call.isDeployed => true
  | _ => false
  end.

Definition App_workaround_calls (c : Call.t) : bool :=
  match c with
  | Call.getTransactionMessages
  | Call.walletClient_signAuthorization _ => true
  | _ => false
  end.

Definition RhinestoneTest_setup_calls (c : Call.t) : bool :=
  match c with
  | Call.setActiveAccount _
  | Call.getSigner
  | Call.toAccount _
  | Call.new_RhinestoneSDK _
  | Call.createAccount _
  | Call.getAddress => true
  | other => dynamicSigner_calls other
  end.

Definition Eip7702Test_before_signer_calls (c : Call.t) : bool :=
  match c with
  | Call.isSignAuthorizationSupported
  | Call.getNetwork
  | Call.switchNetwork _
  | Call.setActiveAccount _
  | Call.getActiveAccount => true
  | _ => false
  end.

(** A signing call: acquiring the signer, or any [signAuthorization] /
    [signAuthorizations]. *)
Definition signing_call (c : Call.t) : bool :=
  match c with
  | Call.getSigner
  | Call.signer_signAuthorization _ _
  | Call.dynamicSigner_signAuthorization _ _ _
  | Call.walletClient_signAuthorization _
  | Call.signAuthorizations => true
  | _ => false
  end.

Definition is_call (ev : Event) : Prop :=
  match ev with
  | EvCall _ _ => True
  | _ => False
  end.


(** Calls and stores a block may make. *)
Definition among (cs : Call.t -> bool) (stores : bool) (ev : Event) : Prop :=
  match ev with
  | EvCall c _ => cs c = true
  | EvSetLastAuthorization (Some _) => stores = true
  | _ => False
  end.

Definition any_call (c : Call.t) : bool := true.

Definition App_init_calls (c : Call.t) : bool :=
  match c with Call.signEip7702InitData => true | _ => false end.

Definition App_prepare_calls (c : Call.t) : bool :=
  match c with Call.prepareTransaction _ => true | _ => false end.

Definition App_critical_calls (c : Call.t) : bool :=
  match c with Call.signAuthorizations => true | _ => false end.

Definition RhinestoneTest_init_calls (c : Call.t) : bool :=
  match c with
  | Call.signEip7702InitData => true
  | other => dynamicSigner_calls other
  end.

Definition RhinestoneTest_prepare_calls (c : Call.t) : bool :=
  match c with
  | Call.getAddress | Call.prepareTransaction _ => true
  | other => dynamicSigner_calls other
  end.

Definition RhinestoneTest_submit_calls (c : Call.t) : bool :=
  match c with
  | Call.signTransaction | Call.signAuthorizations | Call.submitTransaction =>
      true
  | other => dynamicSigner_calls other
  end.

Definition Eip7702Test_sign_calls (c : Call.t) : bool :=
  match c with
  | Call.getSigner | Call.signer_signAuthorization _ _ => true
  | _ => false
  end.

(** The state cells as [runTest] sets them on entry and on exit. *)
Definition cleared (st : State) : State :=
  mkState [] true (contractAddress st) (lastAuthorization st) (clockReads st).

Definition cleared_all (st : State) : State :=
  mkState [] true (contractAddress st) None (clockReads st).

Definition stopped (st : State) : State :=
  mkState (logs st) false (contractAddress st) (lastAuthorization st)
          (clockReads st).

(** The [try] body and the [catch] clause of each runner, the state the
    body starts from and the events that precede it. *)
Definition steps (v : Variant) : M unit :=
  match v with
  | BugRepro w => App.steps w
  | EndToEnd w => RhinestoneTest.steps w
  | DirectSigning w => Eip7702Test.steps w
  end.

Definition handler (v : Variant) : Thrown -> M unit :=
  match v with
  | BugRepro w => App.unexpected w
  | EndToEnd w => RhinestoneTest.failed w
  | DirectSigning w => Eip7702Test.failed w
  end.

Definition guarded (v : Variant) : M unit := tryCatch (steps v) (handler v).

Definition entry (v : Variant) (st : State) : State :=
  match v with
  | DirectSigning _ => cleared_all st
  | _ => cleared st
  end.

Definition resets (v : Variant) : list Event :=
  match v with
  | DirectSigning _ => [EvSetLogs []; EvSetLastAuthorization None]
  | _ => [EvSetLogs []]
  end.

Definition is_error (e : LogEntry) : bool := Level_eqb (level e) error.

(** The module constant [RHINESTONE_API_KEY] as the component reads it. *)
Definition RHINESTONE_API_KEY (v : Variant) : option string :=
  match v with
  | BugRepro w => App.RHINESTONE_API_KEY w
  | EndToEnd w => RhinestoneTest.RHINESTONE_API_KEY w
  | DirectSigning _ => None
  end.

(** The error line of the runner that finds the API key missing. *)
Definition key_not_set (v : Variant) : string :=
  match v with
  | BugRepro _ => "VITE_RHINESTONE_API_KEY not set"
  | _ => "RHINESTONE_API_KEY not set"
  end.

(** The calls made before the client of the Rhinestone SDK is constructed:
    those to the Dynamic wallet and its connector, those to viem, and
    [walletClientToAccount], a function that App.tsx imports from the SDK
    package and calls at step 4, ahead of the test of the API key. *)
Definition before_sdk (c : Call.t) : bool :=
  match c with
  | Call.getWalletClient
  | Call.createWalletClient _
  | Call.walletClientToAccount
  | Call.setActiveAccount _
  | Call.getSigner
  | Call.toAccount _ => true
  | _ => false
  end.

(** The call that builds the owner account, the last one before the API
    key is looked at. *)
Definition builds_owner_account (c : Call.t) : bool :=
  match c with
  | Call.walletClientToAccount | Call.toAccount _ => true
  | _ => false
  end.

(** The chains the wallet handle declares. *)
Definition declared_chains (v : Variant) : list Z :=
  match primaryWallet v with
  | Some wallet => Wallet.declared_chains wallet
  | None => []
  end.

(** The state cells a run clears before it raises the flag. *)
Definition is_reset (ev : Event) : Prop :=
  ev = EvSetLogs [] \/ ev = EvSetLastAuthorization None.

(** No collaborator throws [null] or [undefined] in the run: what is
    thrown has a [message] property to read, be it [undefined]. *)
Definition throws_errors_only (t : list Event) : Prop :=
  forall c e, In (EvCall c (Rejected e)) t -> e <> JsNullish.

(* ================================================================== *)
(** * Concrete collaborators *)
(* ================================================================== *)

Module Demo.

(** A clock that moves on after the first reading. *)
Definition clock (n : nat) : string :=
  match n with
  | O => "10:00:00"
  | S _ => "10:00:07"
  end.

(** The state cells of a freshly mounted component. *)
Definition initial : State :=
  mkState [] false Eip7702Test.TEST_DELEGATE_CONTRACT None 0.

Definition sender : string := "0x1111111111111111111111111111111111111111".
Definition delegate : string := "0x2222222222222222222222222222222222222222".

Definition authorization : Authorization.t :=
  Authorization.mk (Some "0xABC") None (Some 8453%Z) (Some 3%Z)
                   (Some "0x1") (Some "0x2") (Some 0%Z).

Definition signer : Signer.t :=
  Signer.mk (Some sender) (Some (Ok (Some authorization))).

(** A Dynamic WaaS connector that offers the networks [chains]. *)
Definition connector (chains : list Z) : Connector.t :=
  Connector.mk (Some "Dynamic Embedded") (Some (Ok true)) (Some chains)
               (Some (Ok (Some 1%Z))) (Some (Ok tt)) (Some (Ok tt))
               (Some (Ok (Some sender))) (Some (Ok (Some signer))) true false.

Definition wallet (chains : list Z) : Wallet.t :=
  Wallet.mk sender (Some (connector chains)) (Ok true).

Definition wrong_account_type : Thrown :=
  JsError "Account type json-rpc is not supported".

(** A Rhinestone account as App.tsx meets it: the init signature cannot be
    had, [signAuthorizations] fails with the error under test, and the
    transaction messages name the sender and one other address. *)
Definition account : App.RhinestoneAccount :=
  App.mkRhinestoneAccount
    (Ok sender) (Ok false) (Throws (JsError "init data rejected")) (Ok tt)
    (Throws wrong_account_type)
    (Ok ("{from:" ++ sender ++ ",to:" ++ delegate ++ "}")).

Definition app (chains : list Z) (account : App.RhinestoneAccount)
  : App.World :=
  App.mkWorld clock (Some "key") (Some (wallet chains))
    (Ok (App.mkWalletClient (Some (Throws (JsError "Method not found")))))
    (Ok None) (Ok tt) (Ok account).

Definition app_without_wallet : App.World :=
  App.mkWorld clock (Some "key") None
    (Throws JsNoMessage) (Throws JsNoMessage) (Throws JsNoMessage)
    (Throws JsNoMessage).

Definition quiet {A : Type} (r : Result A) : RhinestoneTest.Answer A :=
  RhinestoneTest.mkAnswer [] r.

(** The end-to-end flow against an SDK whose [prepareTransaction] fails
    after the init signature could not be had. *)
Definition end_to_end_account : RhinestoneTest.RhinestoneAccount :=
  RhinestoneTest.mkRhinestoneAccount
    (Ok sender) (quiet (Throws (JsError "init data rejected")))
    (quiet (Throws (JsError "no route"))) (quiet (Ok tt)) (quiet (Ok 1))
    (quiet (Ok "{}")).

Definition end_to_end (key : option string) : RhinestoneTest.World :=
  RhinestoneTest.mkWorld clock key (Some (wallet [8453%Z]))
    (Ok tt) (Ok tt) (quiet (Ok end_to_end_account)).

Definition end_to_end_without_wallet : RhinestoneTest.World :=
  RhinestoneTest.mkWorld clock (Some "key") None
    (Ok tt) (Ok tt) (quiet (Throws JsNoMessage)).

Definition direct (chains : list Z) : Eip7702Test.World :=
  Eip7702Test.mkWorld clock (Some (wallet chains)).

(** A sender whose address ends in the digit 0. *)
Definition round_sender : string :=
  "0x1111111111111111111111111111111111111110".

(** A Rhinestone account whose transaction messages run the sender
    address into a second address: the last digit of the first is the
    leading 0 of the second. *)
Definition overlapping_account : App.RhinestoneAccount :=
  App.mkRhinestoneAccount
    (Ok round_sender) (Ok false) (Throws (JsError "init data rejected"))
    (Ok tt) (Throws wrong_account_type)
    (Ok ("{from:" ++ round_sender
         ++ "x2222222222222222222222222222222222222222}")).

Definition overlapping : App.World :=
  App.mkWorld clock (Some "key")
    (Some (Wallet.mk round_sender (Some (connector [8453%Z])) (Ok true)))
    (Ok (App.mkWalletClient (Some (Throws (JsError "Method not found")))))
    (Ok None) (Ok tt) (Ok overlapping_account).

End Demo.

(** The marker line of step 10. *)
Definition bug_confirmed : string :=
  ">>> BUG CONFIRMED: JSON-RPC account cannot sign EIP-7702 authorizations".

(** How the [catch] clause of each runner starts its error line. *)
Definition handler_prefix (v : Variant) : string :=
  match v with
  | BugRepro _ => "Unexpected error: "
  | _ => "Error: "
  end.

(** [e.message] of a thrown value, [undefined] when it has none. *)
Definition message_of (e : Thrown) : option string :=
  match e with
  | JsError m => Some m
  | _ => None
  end.

(** The error line that reports a failed [prepareTransaction]: the bug
    reproduction catches the error at step 9, the end-to-end runner in its
    outer [catch]. *)
Definition prepare_failed (v : Variant) (e : Thrown) : string :=
  match v with
  | BugRepro _ => "prepareTransaction failed: " ++ tmpl (message_of e)
  | _ => "Error: " ++ tmpl (message_of e)
  end.

(** The error line of the runner whose init signature could not be had. *)
Definition init_failed (e : Thrown) : string :=
  "signEip7702InitData failed: " ++ tmpl (message_of e).

(** The owner-account traffic and the address getter: what the end-to-end
    runner may do between two calls into the SDK. *)
Definition between_sdk_calls (c : Call.t) : bool :=
  match c with
  | Call.getAddress => true
  | other => dynamicSigner_calls other
  end.

(** In the events [t], the authorization [a] is stored after the signing
    call for [address] has returned, and nothing else is stored. *)
Definition stores_after_signing (address : string) (t : list Event)
    (a : Authorization.t) : Prop :=
  exists t1 t2,
    t = (t1 ++ EvCall (Call.signer_signAuthorization address base_id) Returned
            :: t2)%list
    /\ In (EvSetLastAuthorization (Some a)) t2
    /\ forall a', In (EvSetLastAuthorization a') t -> a' = Some a.

(** [s.slice(n)] *)
Fixpoint drop (n : nat) (s : string) : string :=
  match n, s with
  | O, _ => s
  | S k, String _ rest => drop k rest
  | S _, EmptyString => EmptyString
  end.

(** The pattern [0x[a-fA-F0-9]{40}] matches in [s] at position [p]. *)
Definition pattern_at (p : nat) (s : string) : bool := address_at (drop p s).

(** The matches of a global regular expression as the language defines
    them: the leftmost match, then the matches of what follows it. *)
Inductive successive_matches : string -> list string -> Prop :=
| no_match s :
    (forall p, pattern_at p s = false) -> successive_matches s []
| leftmost_match s p l :
    (forall q, q < p -> pattern_at q s = false) ->
    pattern_at p s = true ->
    successive_matches (drop (p + 42) s) l ->
    successive_matches s (substring p 42 s :: l).

(** [d] is the first match of the address pattern in [msgStr] that is not
    the sender: it is matched at some position, it is an address, its
    lowercase form is not that of [sender], and every match before it
    is. *)
Definition first_other_match (msgStr sender d : string) : Prop :=
  (exists p, pattern_at p msgStr = true /\ d = substring p 42 msgStr)
  /\ String.length d = 42
  /\ address_at d = true
  /\ toLowerCase d <> toLowerCase sender
  /\ exists earlier later,
      match_addresses msgStr = (earlier ++ d :: later)%list
      /\ forall x, In x earlier -> toLowerCase x = toLowerCase sender.

(** The marker line of step 11. *)
Definition wallet_unsupported : string :=
  ">>> Wallet does not support wallet_signAuthorization RPC method".

(** The error line of a bypass that found no candidate. *)
Definition could_not_extract : string :=
  "Could not extract delegate address from SDK".

(** What the bypass does with the serialized messages [msgStr] of a run
    whose sender is [sender], in terms of the events [t] and the log [l]
    that the run adds. *)
Definition bypass_outcome (msgStr sender : string) (t : list Event)
    (l : list LogEntry) : Prop :=
  match App.delegate_candidate msgStr sender with
  | Some d =>
      (exists o, In (EvCall (Call.walletClient_signAuthorization d) o) t)
      /\ (forall d' o,
             In (EvCall (Call.walletClient_signAuthorization d') o) t ->
             d' = d)
      /\ (forall m,
             In (EvCall (Call.walletClient_signAuthorization d)
                        (Rejected (JsError m))) t ->
             (includes m "not supported" || includes m "Method not found")
             = true ->
             exists before t1 t2 after,
               l = (before
                    ++ [mkLogEntry t1 error
                          ("walletClient.signAuthorization call failed: " ++ m);
                        mkLogEntry t2 error wallet_unsupported]
                    ++ after)%list)
  | None =>
      (forall d' o,
          ~ In (EvCall (Call.walletClient_signAuthorization d') o) t)
      /\ exists before t1 after,
          l = (before ++ mkLogEntry t1 error could_not_extract :: after)%list
  end.

(** The events [t] hold no call of [walletClient.signAuthorization]. *)
Definition no_bypass_signing (t : list Event) : Prop :=
  forall d o, ~ In (EvCall (Call.walletClient_signAuthorization d) o) t.

(* ================================================================== *)
(** * Further notions *)
(* ================================================================== *)

(** A bigint occurs somewhere in the value. *)
Fixpoint has_bigint (v : JsValue) : bool :=
  match v with
  | JBigInt _ => true
  | JArray items => existsb has_bigint items
  | JObject fields => existsb (fun kv => has_bigint (snd kv)) fields
  | _ => false
  end.

(** A property called [__proto__] occurs somewhere in the value. *)
Fixpoint has_proto_key (v : JsValue) : bool :=
  match v with
  | JArray items => existsb has_proto_key items
  | JObject fields =>
      existsb (fun kv => negb (stored_key (fst kv)) || has_proto_key (snd kv))
              fields
  | _ => false
  end.

(** The arrays and objects of a value, with their keys and in their order,
    without the leaves. *)
Fixpoint skeleton (v : JsValue) : JsValue :=
  match v with
  | JArray items => JArray (map skeleton items)
  | JObject fields => JObject (map (fun kv => (fst kv, skeleton (snd kv))) fields)
  | _ => JNull
  end.

(** The line that [log] writes to the console for an entry. *)
Definition console_line (e : LogEntry) : string :=
  "[" ++ toUpperCase (level e) ++ "] " ++ msg e.

(** The lines written with [console.log], in order. *)
Fixpoint console_lines (t : list Event) : list string :=
  match t with
  | [] => []
  | EvConsoleLog line :: rest => line :: console_lines rest
  | _ :: rest => console_lines rest
  end.

(** The calls whose typed data, if they carry any, holds no bigint. *)
Definition converted_calls (c : Call.t) : bool :=
  match c with
  | Call.dynamicSigner_signTypedData domain message =>
      negb (has_bigint domain) && negb (has_bigint message)
  | _ => true
  end.

(** The calls of steps 10 and 11 of the bug reproduction. *)
Definition App_late_calls (c : Call.t) : bool :=
  App_critical_calls c || App_workaround_calls c.

(** The log [l] holds the entries [lines] one right after the other. *)
Definition holds_in_a_row (l lines : list LogEntry) : Prop :=
  exists before after, l = (before ++ lines ++ after)%list.

(** The level of the last entry of a log, if it has one. *)
Definition last_level (l : list LogEntry) : option Level :=
  option_map level (hd_error (rev l)).

(** A block that, whenever it ends by [return], has just logged an
    error. *)
Definition returns_after_error (A : Type) (m : M A) : Prop :=
  forall st, completion (m st) = Return ->
             last_level (logs (final (m st))) = Some error.

(** A block that does not end by [return]. *)
Definition never_returns (A : Type) (m : M A) : Prop :=
  forall st, completion (m st) <> Return.

(** A block that, whenever it falls through, has logged an info line
    last. *)
Definition ends_on_info (A : Type) (m : M A) : Prop :=
  forall st a, completion (m st) = Normal a ->
               last_level (logs (final (m st))) = Some info.

(** The calls of each of the first four steps of the direct-signing
    runner. *)
Definition Eip7702Test_identify_calls (c : Call.t) : bool :=
  match c with Call.isSignAuthorizationSupported => true | _ => false end.

Definition Eip7702Test_network_calls (c : Call.t) : bool :=
  match c with Call.getNetwork | Call.switchNetwork _ => true | _ => false end.

Definition Eip7702Test_activate_calls (c : Call.t) : bool :=
  match c with
  | Call.setActiveAccount _ | Call.getActiveAccount => true
  | _ => false
  end.

(** All the calls of the bug reproduction, and all those of the
    direct-signing runner. *)
Definition App_calls (c : Call.t) : bool :=
  App_setup_calls c || App_init_calls c || App_prepare_calls c
  || App_late_calls c.

Definition Eip7702Test_calls (c : Call.t) : bool :=
  Eip7702Test_before_signer_calls c || Eip7702Test_sign_calls c.

(** The calls that sign or submit a transaction. *)
Definition transaction_call (c : Call.t) : bool :=
  match c with
  | Call.signTransaction | Call.submitTransaction
  | Call.dynamicSigner_signTransaction => true
  | _ => false
  end.

(** The numbers of an authorization, where it has them, are safe
    integers. *)
Definition safe_number (v : option Z) : bool :=
  match v with Some z => safe_integer z | None => true end.

Definition safe_numbers (a : Authorization.t) : bool :=
  safe_number (Authorization.chainId a)
  && safe_number (Authorization.nonce a)
  && safe_number (Authorization.yParity a).

(** The six lines that show the fields of an authorization. *)
Definition authorization_lines (a : Authorization.t) : list (Level * string) :=
  [(success, "Contract: "
             ++ tmpl (or_else (Authorization.contractAddress a)
                              (Authorization.address a)));
   (success, "Chain ID: " ++ tmplZ (Authorization.chainId a));
   (success, "Nonce: " ++ tmplZ (Authorization.nonce a));
   (success, "r: " ++ tmpl (Authorization.r a));
   (success, "s: " ++ tmpl (Authorization.s a));
   (success, "yParity: " ++ tmplZ (Authorization.yParity a))].

(** The account address that a call is made for, where it is made for
    one. *)
Definition carried_address (c : Call.t) : option string :=
  match c with
  | Call.setActiveAccount address
  | Call.createWalletClient address
  | Call.toAccount address => Some address
  | _ => None
  end.

(** More collaborators, for the runs that go further. *)
Module Scenario.

(** What the SDK asks of the owner account: a typed-data signature over
    data with bigints, and an authorization signature that names the
    contract in [address]. *)
Definition typed_data_request : RhinestoneTest.OwnerRequest.t * Outcome :=
  (RhinestoneTest.OwnerRequest.signTypedData
     (JObject [("name", JString "Rhinestone"); ("chainId", JBigInt 8453)])
     (JObject [("nonce", JBigInt 7); ("owner", JString Demo.sender)]),
   Returned).

Definition authorization_request : RhinestoneTest.OwnerRequest.t * Outcome :=
  (RhinestoneTest.OwnerRequest.signAuthorization
     None (Some Demo.delegate) 8453%Z (Some 0%Z),
   Returned).

(** The serialized result of a submission. *)
Definition receipt : string :=
  "{" ++ dq ++ "id" ++ dq ++ ":" ++ dq ++ "42" ++ dq ++ "}".

(** A Rhinestone account whose calls all succeed; the init signature it
    returns is the bare prefix. *)
Definition willing_account : RhinestoneTest.RhinestoneAccount :=
  RhinestoneTest.mkRhinestoneAccount
    (Ok Demo.sender) (Demo.quiet (Ok (Some "0x")))
    (Demo.quiet (Ok tt))
    (RhinestoneTest.mkAnswer [typed_data_request] (Ok tt))
    (RhinestoneTest.mkAnswer [authorization_request] (Ok 1))
    (Demo.quiet (Ok receipt)).

Definition willing : RhinestoneTest.World :=
  RhinestoneTest.mkWorld Demo.clock (Some "key") (Some (Demo.wallet [8453%Z]))
    (Ok tt) (Ok tt) (Demo.quiet (Ok willing_account)).

(** A Rhinestone account, as App.tsx meets it, that signs whatever it is
    asked to. *)
Definition ready_account : App.RhinestoneAccount :=
  App.mkRhinestoneAccount
    (Ok Demo.sender) (Ok false) (Ok (Some "0xfeed")) (Ok tt) (Ok 1)
    (Ok "{}").

(** The bug reproduction with a wallet client that has no
    [signAuthorization]. *)
Definition app_with_plain_client : App.World :=
  App.mkWorld Demo.clock (Some "key") (Some (Demo.wallet [8453%Z]))
    (Ok (App.mkWalletClient None)) (Ok None) (Ok tt) (Ok Demo.account).

(** A Rhinestone account that does not give out the transaction
    messages. *)
Definition silent_account : App.RhinestoneAccount :=
  App.mkRhinestoneAccount
    (Ok Demo.sender) (Ok false) (Ok (Some "0xfeed")) (Ok tt)
    (Throws Demo.wrong_account_type) (Throws (JsError "no messages")).

(** A Rhinestone account whose [signAuthorizations] rejects with a value
    that is not an [Error]. *)
Definition blunt_account : App.RhinestoneAccount :=
  App.mkRhinestoneAccount
    (Ok Demo.sender) (Ok false) (Ok (Some "0xfeed")) (Ok tt)
    (Throws JsNoMessage) (Ok "{}").

(** Collaborators that reject with [undefined], as a promise made with
    [Promise.reject()] does. *)

(** A wallet whose [getWalletClient] rejects with [undefined]. *)
Definition void_wallet : Wallet.t :=
  Wallet.mk Demo.sender (Some (Demo.connector [8453%Z])) (Throws JsNullish).

Definition app_with_void_wallet : App.World :=
  App.mkWorld Demo.clock (Some "key") (Some void_wallet)
    (Ok (App.mkWalletClient None)) (Ok None) (Ok tt) (Ok ready_account).

(** A connector whose [getSigner] rejects with [undefined]. *)
Definition void_connector : Connector.t :=
  Connector.mk (Some "Dynamic Embedded") (Some (Ok true)) (Some [8453%Z])
               (Some (Ok (Some 8453%Z))) (Some (Ok tt)) (Some (Ok tt))
               (Some (Ok (Some Demo.sender))) (Some (Throws JsNullish))
               true false.

Definition end_to_end_with_void_signer : RhinestoneTest.World :=
  RhinestoneTest.mkWorld Demo.clock (Some "key")
    (Some (Wallet.mk Demo.sender (Some void_connector) (Ok true)))
    (Ok tt) (Ok tt) (Demo.quiet (Ok willing_account)).

Definition direct_with_void_signer : Eip7702Test.World :=
  Eip7702Test.mkWorld Demo.clock
    (Some (Wallet.mk Demo.sender (Some void_connector) (Ok true))).

(** Rhinestone accounts whose [signEip7702InitData] rejects with
    [undefined], and whose other calls all succeed. *)
Definition void_init_account : App.RhinestoneAccount :=
  App.mkRhinestoneAccount
    (Ok Demo.sender) (Ok false) (Throws JsNullish) (Ok tt) (Ok 1) (Ok "{}").

Definition app_with_void_init : App.World :=
  Demo.app [8453%Z] void_init_account.

Definition end_to_end_with_void_init : RhinestoneTest.World :=
  RhinestoneTest.mkWorld Demo.clock (Some "key") (Some (Demo.wallet [8453%Z]))
    (Ok tt) (Ok tt)
    (Demo.quiet
       (Ok (RhinestoneTest.mkRhinestoneAccount
              (Ok Demo.sender) (Demo.quiet (Throws JsNullish))
              (Demo.quiet (Ok tt)) (Demo.quiet (Ok tt)) (Demo.quiet (Ok 1))
              (Demo.quiet (Ok receipt))))).

(** Rhinestone accounts whose [prepareTransaction] rejects with
    [undefined], after the init signature was had. *)
Definition void_prepare_account : App.RhinestoneAccount :=
  App.mkRhinestoneAccount
    (Ok Demo.sender) (Ok false) (Ok (Some "0xfeed")) (Throws JsNullish)
    (Ok 1) (Ok "{}").

Definition app_with_void_prepare : App.World :=
  Demo.app [8453%Z] void_prepare_account.

Definition end_to_end_with_void_prepare : RhinestoneTest.World :=
  RhinestoneTest.mkWorld Demo.clock (Some "key") (Some (Demo.wallet [8453%Z]))
    (Ok tt) (Ok tt)
    (Demo.quiet
       (Ok (RhinestoneTest.mkRhinestoneAccount
              (Ok Demo.sender) (Demo.quiet (Ok (Some "0xfeed")))
              (Demo.quiet (Throws JsNullish)) (Demo.quiet (Ok tt))
              (Demo.quiet (Ok 1)) (Demo.quiet (Ok receipt))))).

End Scenario.

(* ================================================================== *)
(** * What every script does *)
(* ================================================================== *)

Lemma stamp_app (clock : nat -> string) (cs1 cs2 : list (Level * string)) :
  forall n,
    stamp clock n (cs1 ++ cs2)
    = (stamp clock n cs1 ++ stamp clock (n + length cs1) cs2)%list.
Proof.
  induction cs1 as [|c cs1 IH]; intro n; simpl.
  - now rewrite Nat.add_0_r.
  - rewrite IH. now rewrite <- plus_n_Sm.
Qed.

Lemma stamp_length (clock : nat -> string) (cs : list (Level * string)) :
  forall n, length (stamp clock n cs) = length cs.
Proof. induction cs; intro n; simpl; auto. Qed.

Lemma stamp_content (clock : nat -> string) (cs : list (Level * string)) :
  forall n, map content (stamp clock n cs) = cs.
Proof.
  induction cs as [|[lvl m] cs IH]; intro n; simpl; auto.
  unfold content at 1; simpl. now rewrite IH.
Qed.

Lemma after_nil (clock : nat -> string) (st : State) :
  after clock st [] None = st.
Proof.
  destruct st; unfold after; simpl.
  now rewrite app_nil_r, Nat.add_0_r.
Qed.

Lemma after_after (clock : nat -> string) (st : State) cs1 la1 cs2 la2 :
  after clock (after clock st cs1 la1) cs2 la2
  = after clock st (cs1 ++ cs2)
      (match la2 with Some a => Some a | None => la1 end).
Proof.
  unfold after; simpl.
  rewrite stamp_app, length_app, <- app_assoc, Nat.add_assoc.
  destruct la2, la1; reflexivity.
Qed.

Section Scripts.

Variable clock : nat -> string.
Variable allowed : Event -> Prop.

(** A script is a function of the collaborators and of [contractAddress]
    alone: how it completes, the lines it logs, what it stores and what it
    emits do not depend on the log, the flag or the clock count it starts
    from. *)
Lemma script_normal_form (A : Type) (m : M A) :
  script clock allowed m ->
  forall addr, exists c cs la t,
    (forall a, la = Some a -> In (EvSetLastAuthorization (Some a)) t) /\
    forall st,
      contractAddress st = addr -> m st = (c, after clock st cs la, t).
Proof.
  induction 1 as [A a|A B m k Hm IHm Hk IHk|A|A prop| |A c r Hc|c o Hc
                 |lvl txt|A m h Hm IHm Hh IHh| |a Ha]; intro addr.
  - exists (Normal a), [], None, []. split; [discriminate|]. intros st _.
    unfold pure. now rewrite after_nil.
  - destruct (IHm addr) as (c1 & cs1 & la1 & t1 & L1 & E1).
    destruct c1 as [a| |e].
    + destruct (IHk a addr) as (c2 & cs2 & la2 & t2 & L2 & E2).
      exists c2, (cs1 ++ cs2)%list,
        (match la2 with Some x => Some x | None => la1 end), (t1 ++ t2)%list.
      split.
      * intros x Hx. apply in_or_app. destruct la2; auto.
      * intros st Hst. unfold bind. rewrite (E1 st Hst).
        rewrite (E2 (after clock st cs1 la1) Hst).
        now rewrite after_after.
    + exists Return, cs1, la1, t1. split; [exact L1|]. intros st Hst.
      unfold bind. now rewrite (E1 st Hst).
    + exists (Throw e), cs1, la1, t1. split; [exact L1|]. intros st Hst.
      unfold bind. now rewrite (E1 st Hst).
  - exists Return, [], None, []. split; [discriminate|]. intros st _.
    unfold return_. now rewrite after_nil.
  - exists (Throw (typeError prop)), [], None, []. split; [discriminate|].
    intros st _. unfold throw. now rewrite after_nil.
  - exists (Normal tt), [], None, [EvConsoleError]. split; [discriminate|].
    intros st _. unfold emit. now rewrite after_nil.
  - destruct r as [a|e].
    + exists (Normal a), [], None, [EvCall c Returned].
      split; [discriminate|]. intros st _.
      unfold call, bind, emit, pure. now rewrite after_nil.
    + exists (Throw e), [], None, [EvCall c (Rejected e)].
      split; [discriminate|]. intros st _.
      unfold call, bind, emit, throw. now rewrite after_nil.
  - exists (Normal tt), [], None, [EvCall c o]. split; [discriminate|].
    intros st _. unfold emit. now rewrite after_nil.
  - exists (Normal tt), [(lvl, txt)], None,
      [EvConsoleLog ("[" ++ toUpperCase lvl ++ "] " ++ txt)].
    split; [discriminate|].
    intros st _. unfold log, after; simpl. now rewrite Nat.add_1_r.
  - destruct (IHm addr) as (c1 & cs1 & la1 & t1 & L1 & E1).
    destruct c1 as [a| |e].
    + exists (Normal a), cs1, la1, t1. split; [exact L1|]. intros st Hst.
      unfold tryCatch. now rewrite (E1 st Hst).
    + exists Return, cs1, la1, t1. split; [exact L1|]. intros st Hst.
      unfold tryCatch. now rewrite (E1 st Hst).
    + destruct (IHh e addr) as (c2 & cs2 & la2 & t2 & L2 & E2).
      exists c2, (cs1 ++ cs2)%list,
        (match la2 with Some x => Some x | None => la1 end), (t1 ++ t2)%list.
      split.
      * intros x Hx. apply in_or_app. destruct la2; auto.
      * intros st Hst. unfold tryCatch. rewrite (E1 st Hst).
        rewrite (E2 (after clock st cs1 la1) Hst).
        now rewrite after_after.
  - exists (Normal addr), [], None, []. split; [discriminate|].
    intros st Hst.
    unfold read_contractAddress. now rewrite after_nil, Hst.
  - exists (Normal tt), [], (Some a), [EvSetLastAuthorization (Some a)].
    split; [intros x [= ->]; now left|].
    intros st _. unfold setLastAuthorization, bind, modify, emit, after; simpl.
    now rewrite app_nil_r, Nat.add_0_r.
Qed.

(** Everything a script emits is console output or among [allowed]. *)
Lemma script_events (A : Type) (m : M A) :
  script clock allowed m ->
  forall st ev, In ev (events (m st)) -> is_console ev \/ allowed ev.
Proof.
  induction 1 as [A a|A B m k Hm IHm Hk IHk|A|A prop| |A c r Hc|c o Hc
                 |lvl txt|A m h Hm IHm Hh IHh| |a Ha]; intros st ev Hin;
    unfold events in *.
  - destruct Hin.
  - unfold bind in Hin. specialize (IHm st).
    destruct (m st) as [[c1 s1] t1].
    destruct c1 as [a| |e]; simpl in *; auto.
    specialize (IHk a s1). destruct (k a s1) as [[c2 s2] t2]. simpl in *.
    apply in_app_or in Hin. destruct Hin; auto.
  - destruct Hin.
  - destruct Hin.
  - destruct Hin as [<-|[]]. left; exact I.
  - destruct r as [a|e]; destruct Hin as [<-|[]]; right; apply Hc.
  - destruct Hin as [<-|[]]. now right.
  - destruct Hin as [<-|[]]. left; exact I.
  - unfold tryCatch in Hin. specialize (IHm st).
    destruct (m st) as [[c1 s1] t1].
    destruct c1 as [a| |e]; simpl in *; auto.
    specialize (IHh e s1). destruct (h e s1) as [[c2 s2] t2]. simpl in *.
    apply in_app_or in Hin. destruct Hin; auto.
  - destruct Hin.
  - destruct Hin as [<-|[]]. now right.
Qed.

(** When a script throws [null] or [undefined], a collaborator threw it. *)
Lemma script_nullish (A : Type) (m : M A) :
  script clock allowed m ->
  forall st, completion (m st) = Throw JsNullish ->
             exists c, In (EvCall c (Rejected JsNullish)) (events (m st)).
Proof.
  induction 1 as [A a|A B m k Hm IHm Hk IHk|A|A prop| |A c r Hc|c o Hc
                 |lvl txt|A m h Hm IHm Hh IHh| |a Ha]; intros st Hc0;
    unfold events, completion in *; try discriminate.
  - unfold bind in *. specialize (IHm st).
    destruct (m st) as [[c1 s1] t1].
    destruct c1 as [a| |e]; simpl in *; try discriminate.
    + specialize (IHk a s1). destruct (k a s1) as [[c2 s2] t2]. simpl in *.
      destruct (IHk Hc0) as [c Hin]. exists c. apply in_or_app. now right.
    + injection Hc0 as ->. now apply IHm.
  - destruct r as [a|e]; simpl in *; try discriminate.
    injection Hc0 as ->. exists c. now left.
  - unfold tryCatch in *. specialize (IHm st).
    destruct (m st) as [[c1 s1] t1].
    destruct c1 as [a| |e]; simpl in *; try discriminate.
    specialize (IHh e s1). destruct (h e s1) as [[c2 s2] t2]. simpl in *.
    destruct (IHh Hc0) as [c Hin]. exists c. apply in_or_app. now right.
Qed.

(** The derived statement forms. *)
Lemma script_when (b : bool) (m : M unit) :
  script clock allowed m -> script clock allowed (when b m).
Proof. intro H. destruct b; simpl; [exact H | constructor]. Qed.

Lemma script_require (A : Type) (x : option A) (onMissing : M unit) :
  script clock allowed onMissing -> script clock allowed (require x onMissing).
Proof.
  intro H. destruct x; simpl; [constructor|].
  apply script_bind; [exact H | intros _; constructor].
Qed.

Lemma script_optional_call (A : Type) c (method : option (Result A)) undefined :
  (forall o, allowed (EvCall c o)) ->
  script clock allowed (optional_call c method undefined).
Proof. intro H. destruct method; simpl; now constructor. Qed.

Lemma script_message (e : Thrown) : script clock allowed (message e).
Proof. destruct e; simpl; constructor. Qed.

Lemma script_includes_any m needles :
  script clock allowed (includes_any m needles).
Proof. destruct m; simpl; constructor. Qed.

End Scripts.

Lemma script_weaken clock (P Q : Event -> Prop) (A : Type) (m : M A) :
  (forall ev, P ev -> Q ev) -> script clock P m -> script clock Q m.
Proof.
  intros HPQ H. induction H; try (constructor; auto; fail).
Qed.

(* ================================================================== *)
(** * The blocks of the three runners are scripts *)
(* ================================================================== *)

Ltac script_step :=
  lazymatch goal with
  | |- script _ _ (bind _ _) => apply script_bind; [ | intro ]
  | |- script _ _ (pure _) => apply script_pure
  | |- script _ _ return_ => apply script_return
  | |- script _ _ (throw (typeError _)) => apply script_typeError
  | |- script _ _ (log _ _ _) => apply script_log
  | |- script _ _ (call _ _) => apply script_call; intro; reflexivity
  | |- script _ _ (optional_call _ _ _) =>
      apply script_optional_call; intro; reflexivity
  | |- script _ _ (require _ _) => apply script_require
  | |- script _ _ (when _ _) => apply script_when
  | |- script _ _ (tryCatch _ _) => apply script_tryCatch; [ | intro ]
  | |- script _ _ (message _) => apply script_message
  | |- script _ _ (includes_any _ _) => apply script_includes_any
  | |- script _ _ read_contractAddress => apply script_read
  | |- script _ _ (setLastAuthorization (Some _)) =>
      apply script_store; reflexivity
  | |- script _ _ (emit EvConsoleError) => apply script_console_error
  | |- script _ _ (emit (EvCall _ _)) => apply script_forward; reflexivity
  | |- script _ _ (match ?x with _ => _ end) => destruct x
  end.

Ltac script_auto := cbv zeta; repeat script_step.

Lemma App_setup_script w :
  script (App.clock w) (among App_setup_calls false) (App.setup w).
Proof. unfold App.setup. script_auto. Qed.

Lemma App_sign_init_data_script clock ra :
  script clock (among App_init_calls false)
    (App.sign_init_data (log clock) ra).
Proof. unfold App.sign_init_data. script_auto. Qed.

Lemma App_prepare_script clock ra sig :
  script clock (among App_prepare_calls false)
    (App.prepare (log clock) ra sig).
Proof. unfold App.prepare. script_auto. Qed.

Lemma App_critical_test_script clock ra :
  script clock (among App_critical_calls false)
    (App.critical_test (log clock) ra).
Proof. unfold App.critical_test. script_auto. Qed.

Lemma App_workaround_script clock address ra answer :
  script clock (among App_workaround_calls false)
    (App.workaround (log clock) address ra answer).
Proof. unfold App.workaround. script_auto. Qed.

Lemma App_try_workaround_script clock ctx failed :
  script clock (among App_workaround_calls false)
    (App.try_workaround (log clock) ctx failed).
Proof.
  unfold App.try_workaround. script_auto.
  all: apply App_workaround_script.
Qed.

Lemma App_capabilities_script clock wallet :
  script clock (among no_calls false) (App.capabilities (log clock) wallet).
Proof. unfold App.capabilities. script_auto. Qed.

Lemma among_any cs stores ev : among cs stores ev -> among any_call true ev.
Proof. destruct ev as [| |[a|]| | |c o]; simpl; auto. Qed.

Lemma script_any clock cs stores (A : Type) (m : M A) :
  script clock (among cs stores) m -> script clock (among any_call true) m.
Proof. apply script_weaken. apply among_any. Qed.

Lemma App_steps_script w : script (App.clock w) (among any_call true) (App.steps w).
Proof.
  unfold App.steps. cbv zeta.
  apply script_bind; [apply (script_any (App_setup_script w))|intro ctx].
  apply script_bind;
    [apply (script_any (App_sign_init_data_script _ _))|intro sig].
  apply script_bind; [apply (script_any (App_prepare_script _ _ _))|intros _].
  apply script_bind;
    [apply (script_any (App_critical_test_script _ _))|intro failed].
  apply script_bind;
    [apply (script_any (App_try_workaround_script _ _ _))|intros _].
  apply (script_any (App_capabilities_script _ _)).
Qed.

Lemma App_guarded_script w :
  script (App.clock w) (among any_call true)
    (tryCatch (App.steps w) (App.unexpected w)).
Proof.
  apply script_tryCatch; [apply App_steps_script|intro e].
  unfold App.unexpected. script_auto.
Qed.

Lemma Eip7702Test_identify_script w :
  script (Eip7702Test.clock w) (among Eip7702Test_before_signer_calls false)
    (Eip7702Test.identify w).
Proof. unfold Eip7702Test.identify. script_auto. Qed.

Lemma Eip7702Test_check_network_script clock connector :
  script clock (among Eip7702Test_before_signer_calls false)
    (Eip7702Test.check_network (log clock) connector).
Proof. unfold Eip7702Test.check_network. script_auto. Qed.

Lemma Eip7702Test_activate_script clock wallet connector :
  script clock (among Eip7702Test_before_signer_calls false)
    (Eip7702Test.activate (log clock) wallet connector).
Proof. unfold Eip7702Test.activate. script_auto. Qed.

Lemma Eip7702Test_sign_script clock connector :
  script clock (among Eip7702Test_sign_calls true)
    (Eip7702Test.sign (log clock) connector).
Proof. unfold Eip7702Test.sign. script_auto. Qed.

Lemma Eip7702Test_steps_script w :
  script (Eip7702Test.clock w) (among any_call true) (Eip7702Test.steps w).
Proof.
  unfold Eip7702Test.steps. cbv zeta.
  apply script_bind;
    [apply (script_any (Eip7702Test_identify_script w))|intro found].
  apply script_bind;
    [apply (script_any (Eip7702Test_check_network_script _ _))|intros _].
  apply script_bind;
    [apply (script_any (Eip7702Test_activate_script _ _ _))|intros _].
  apply (script_any (Eip7702Test_sign_script _ _)).
Qed.

Lemma Eip7702Test_guarded_script w :
  script (Eip7702Test.clock w) (among any_call true)
    (tryCatch (Eip7702Test.steps w) (Eip7702Test.failed w)).
Proof.
  apply script_tryCatch; [apply Eip7702Test_steps_script|intro e].
  unfold Eip7702Test.failed. script_auto.
Qed.

Lemma RhinestoneTest_serve_script clock reqs :
  script clock (among dynamicSigner_calls false)
    (RhinestoneTest.serve (log clock) reqs).
Proof.
  induction reqs as [|[request answer] reqs IH]; simpl.
  - constructor.
  - apply script_bind; [|intros _; exact IH].
    unfold RhinestoneTest.eoaAccount. simpl. script_auto.
Qed.

Lemma RhinestoneTest_sdk_call_script clock cs (A : Type) c
    (answer : RhinestoneTest.Answer A) :
  (forall ev, among dynamicSigner_calls false ev -> among cs false ev) ->
  cs c = true ->
  script clock (among cs false) (RhinestoneTest.sdk_call (log clock) c answer).
Proof.
  intros Hsub Hc. unfold RhinestoneTest.sdk_call.
  apply script_bind.
  - apply (@script_weaken clock _ _ _ _ Hsub).
    apply RhinestoneTest_serve_script.
  - intros _. apply script_call. intro o. exact Hc.
Qed.

Lemma dynamicSigner_among cs :
  (forall c, dynamicSigner_calls c = true -> cs c = true) ->
  forall ev, among dynamicSigner_calls false ev -> among cs false ev.
Proof. intros H [| |[a|]| | |c o]; simpl; auto. Qed.

Ltac sdk_step :=
  lazymatch goal with
  | |- script _ _ (RhinestoneTest.sdk_call _ _ _) =>
      apply RhinestoneTest_sdk_call_script;
      [apply dynamicSigner_among; intros [] H; (exact H || reflexivity)
      |reflexivity]
  | _ => script_step
  end.

Lemma RhinestoneTest_setup_script w :
  script (RhinestoneTest.clock w) (among RhinestoneTest_setup_calls false)
    (RhinestoneTest.setup w).
Proof. unfold RhinestoneTest.setup. cbv zeta. repeat sdk_step. Qed.

Lemma RhinestoneTest_sign_init_data_script clock ra :
  script clock (among RhinestoneTest_init_calls false)
    (RhinestoneTest.sign_init_data (log clock) ra).
Proof. unfold RhinestoneTest.sign_init_data. cbv zeta. repeat sdk_step. Qed.

Lemma RhinestoneTest_prepare_script clock ra sig :
  script clock (among RhinestoneTest_prepare_calls false)
    (RhinestoneTest.prepare (log clock) ra sig).
Proof. unfold RhinestoneTest.prepare. cbv zeta. repeat sdk_step. Qed.

Lemma RhinestoneTest_sign_and_submit_script clock ra :
  script clock (among RhinestoneTest_submit_calls false)
    (RhinestoneTest.sign_and_submit (log clock) ra).
Proof. unfold RhinestoneTest.sign_and_submit. cbv zeta. repeat sdk_step. Qed.

Lemma RhinestoneTest_steps_script w :
  script (RhinestoneTest.clock w) (among any_call true)
    (RhinestoneTest.steps w).
Proof.
  unfold RhinestoneTest.steps. cbv zeta.
  apply script_bind;
    [apply (script_any (RhinestoneTest_setup_script w))|intro ra].
  apply script_bind;
    [apply (script_any (RhinestoneTest_sign_init_data_script _ _))|intro sig].
  apply script_bind;
    [apply (script_any (RhinestoneTest_prepare_script _ _ _))|intros _].
  apply (script_any (RhinestoneTest_sign_and_submit_script _ _)).
Qed.

Lemma RhinestoneTest_guarded_script w :
  script (RhinestoneTest.clock w) (among any_call true)
    (tryCatch (RhinestoneTest.steps w) (RhinestoneTest.failed w)).
Proof.
  apply script_tryCatch; [apply RhinestoneTest_steps_script|intro e].
  unfold RhinestoneTest.failed. script_auto.
Qed.

(* ================================================================== *)
(** * The shape of a run *)
(* ================================================================== *)

Lemma finally_stop (A : Type) (m : M A) (st : State) :
  tryFinally m (setRunning false) st
  = (completion (m st), stopped (final (m st)),
     (events (m st) ++ [EvSetRunning false])%list).
Proof.
  unfold tryFinally, completion, final, events.
  destruct (m st) as [[c s1] t1]. reflexivity.
Qed.

(** A run clears the state cells, raises the flag, goes through the guarded
    steps and lowers the flag. *)
Lemma runTest_shape (v : Variant) (st : State) :
  runTest v st
  = (completion (guarded v (entry v st)),
     stopped (final (guarded v (entry v st))),
     (resets v ++ EvSetRunning true
        :: events (guarded v (entry v st)) ++ [EvSetRunning false])%list).
Proof.
  destruct v as [w|w|w]; simpl.
  - unfold App.runTest, bind at 1 2. simpl. rewrite finally_stop. reflexivity.
  - unfold RhinestoneTest.runTest, bind at 1 2. simpl.
    rewrite finally_stop. reflexivity.
  - unfold Eip7702Test.runTest, bind at 1 2 3. simpl.
    rewrite finally_stop. reflexivity.
Qed.

Lemma guarded_script (v : Variant) :
  script (clock v) (among any_call true) (guarded v).
Proof.
  destruct v as [w|w|w]; simpl.
  - apply App_guarded_script.
  - apply RhinestoneTest_guarded_script.
  - apply Eip7702Test_guarded_script.
Qed.

(** The guarded steps throw only when a collaborator has thrown [null] or
    [undefined], on which the [catch] clause fails to read [message]. *)
Lemma guarded_escape (v : Variant) (st : State) (e : Thrown) :
  completion (guarded v st) = Throw e ->
  exists c, In (EvCall c (Rejected JsNullish)) (events (guarded v st)).
Proof.
  assert (H : forall (steps : M unit) (handler : Thrown -> M unit),
             script (clock v) (among any_call true) steps ->
             (forall m, exists s' t', forall s,
                 handler (JsError m) s = (Normal tt, s' s, t')) ->
             (exists s' t', forall s,
                 handler JsNoMessage s = (Normal tt, s' s, t')) ->
             completion (tryCatch steps handler st) = Throw e ->
             exists c, In (EvCall c (Rejected JsNullish))
                          (events (tryCatch steps handler st))).
  { intros steps handler Hs Herr Hno.
    pose proof (script_nullish Hs st) as Hn.
    unfold tryCatch, completion, events in *.
    destruct (steps st) as [[c s1] t1]. destruct c as [u| |e0]; simpl in *;
      try discriminate.
    destruct e0 as [m| |].
    - destruct (Herr m) as (s' & t' & E). rewrite E. discriminate.
    - destruct Hno as (s' & t' & E). rewrite E. discriminate.
    - intros _. destruct (Hn eq_refl) as [c Hin]. exists c.
      destruct (handler JsNullish s1) as [[c2 s2] t2]. simpl.
      apply in_or_app. now left. }
  destruct v as [w|w|w]; simpl; apply H.
  - apply App_steps_script.
  - intro m. eexists _, _. intro s. reflexivity.
  - eexists _, _. intro s. reflexivity.
  - apply RhinestoneTest_steps_script.
  - intro m. eexists _, _. intro s. reflexivity.
  - eexists _, _. intro s. reflexivity.
  - apply Eip7702Test_steps_script.
  - intro m. eexists _, _. intro s. reflexivity.
  - eexists _, _. intro s. reflexivity.
Qed.

(** The part of C5 that holds.  In every variant and on every way through
    the run, the running flag is raised once, before anything is logged or
    called (only the state cells are cleared before), and lowered once, as
    the last thing the run does, so it is false when [runTest] is over; and
    as long as no collaborator throws [null] or [undefined], nothing is
    thrown out of [runTest]. *)
Theorem running_flag_cleanup (v : Variant) (st : State) :
  let r := runTest v st in
  (exists rest,
      events r = (resets v ++ EvSetRunning true
                    :: rest ++ [EvSetRunning false])%list
      /\ Forall is_reset (resets v)
      /\ forall b, ~ In (EvSetRunning b) rest)
  /\ running (final r) = false
  /\ (throws_errors_only (events r) ->
      completion r = Normal tt \/ completion r = Return).
Proof.
  cbv zeta. rewrite runTest_shape. unfold events at 1, final at 1. simpl.
  split; [|split].
  - exists (events (guarded v (entry v st))). split; [reflexivity|]. split.
    + destruct v; simpl;
        repeat (apply Forall_cons || apply Forall_nil); unfold is_reset; auto.
    + intros b Hin.
      destruct (script_events (guarded_script v) _ _ Hin) as [H|H];
        exact H.
  - reflexivity.
  - intro Hsafe. unfold completion at 1 3. simpl.
    destruct (completion (guarded v (entry v st))) as [[]| |e] eqn:E; auto.
    exfalso. destruct (guarded_escape _ _ E) as [c Hin].
    apply (Hsafe c JsNullish); [|reflexivity].
    unfold events at 1. simpl.
    apply in_or_app. right. right. apply in_or_app. now left.
Qed.

Lemma running_flag_cleanup_witness :
  throws_errors_only
    (events (runTest (BugRepro (Demo.app [8453%Z] Demo.account)) Demo.initial))
  /\ (completion (runTest (BugRepro (Demo.app [8453%Z] Demo.account))
                    Demo.initial) = Normal tt
      \/ completion (runTest (BugRepro (Demo.app [8453%Z] Demo.account))
                       Demo.initial) = Return).
Proof.
  assert (H : throws_errors_only
                (events (runTest (BugRepro (Demo.app [8453%Z] Demo.account))
                           Demo.initial))).
  { intros c e Hin Hn. subst e. vm_compute in Hin.
    repeat (destruct Hin as [Hin|Hin]; [discriminate Hin|]). exact Hin. }
  split; [exact H|].
  exact (proj2 (proj2 (running_flag_cleanup
                         (BugRepro (Demo.app [8453%Z] Demo.account))
                         Demo.initial)) H).
Defined.

(** A list none of whose members passes the test [p] has no member that
    does. *)
Lemma none_passes (A : Type) (p : A -> bool) (l : list A) :
  existsb p l = false -> forall x, In x l -> p x = false.
Proof.
  intros H x Hin. destruct (p x) eqn:E; [|reflexivity].
  rewrite <- H. symmetry. apply existsb_exists. now exists x.
Qed.

Ltac check_none p :=
  match goal with
  | H : In ?x ?l |- _ =>
      let F := fresh "F" in
      assert (F : existsb p l = false) by (vm_compute; reflexivity);
      apply (@none_passes _ p l F) in H
  end.

(** C5 does not hold.  A collaborator that rejects with [undefined] takes
    the run into the [catch] clause, which reads [e.message] and so throws
    itself: the [finally] clause still lowers the flag, but the error leaves
    [runTest].  It is so in the three runners: in the bug reproduction when
    [getWalletClient] rejects with [undefined], in the other two when
    [getSigner] does. *)
Theorem nullish_rejection_leaves_runTest :
  (let r := runTest (BugRepro Scenario.app_with_void_wallet) Demo.initial in
   In (EvCall Call.getWalletClient (Rejected JsNullish)) (events r)
   /\ running (final r) = false
   /\ exists e, completion r = Throw e)
  /\ (let r := runTest (EndToEnd Scenario.end_to_end_with_void_signer)
                       Demo.initial in
      In (EvCall Call.getSigner (Rejected JsNullish)) (events r)
      /\ running (final r) = false
      /\ exists e, completion r = Throw e)
  /\ (let r := runTest (DirectSigning Scenario.direct_with_void_signer)
                       Demo.initial in
      In (EvCall Call.getSigner (Rejected JsNullish)) (events r)
      /\ running (final r) = false
      /\ exists e, completion r = Throw e).
Proof.
  cbv zeta.
  split; [|split];
    (split; [vm_compute; repeat (try (left; reflexivity); right)|];
     split; [vm_compute; reflexivity|];
     exists (typeError "message"); vm_compute; reflexivity).
Qed.

(* ================================================================== *)
(** * Running twice *)
(* ================================================================== *)

Lemma stamp_constant_clock (clock : nat -> string) cs :
  (forall i j, clock i = clock j) ->
  forall n m, stamp clock n cs = stamp clock m cs.
Proof.
  intro Hc. induction cs as [|c cs IH]; intros n m; simpl; auto.
  now rewrite (Hc n m), (IH (S n) (S m)).
Qed.

(** A run is a function of the collaborators, of [contractAddress] and of
    the clock count alone. *)
Lemma runTest_normal_form (v : Variant) (addr : string) :
  exists c cs la t, forall st,
    contractAddress st = addr ->
    runTest v st
    = (c,
       mkState (stamp (clock v) (clockReads st) cs) false addr
               (match la with
                | Some a => Some a
                | None => lastAuthorization (entry v st)
                end)
               (clockReads st + length cs),
       t).
Proof.
  destruct (script_normal_form (guarded_script v) addr)
    as (c & cs & la & t & _ & E).
  exists c, cs, la,
    (resets v ++ EvSetRunning true :: t ++ [EvSetRunning false])%list.
  intros st Hst. rewrite runTest_shape.
  assert (Hentry : contractAddress (entry v st) = addr)
    by (destruct v; exact Hst).
  rewrite (E _ Hentry). unfold completion, final, events, stopped, after.
  simpl. destruct v; simpl; rewrite Hst; reflexivity.
Qed.

(** C8 (as amended).  Two runs in a row against the same collaborators log
    the same lines, with the same levels and messages in the same order,
    emit the same events and complete the same way; the second run starts
    from an empty log, and nothing the first run left in the state cells
    shows in it.  The entries carry the time of the clock reading at which
    they were written, so the two logs are equal as a whole exactly when
    the clock shows the same times again. *)
Theorem rerun_same_lines (v : Variant) (st : State) :
  let first := runTest v st in
  let second := runTest v (final first) in
  exists cs,
    (forall st', contractAddress st' = contractAddress st ->
       logs (final (runTest v st')) = stamp (clock v) (clockReads st') cs
       /\ events (runTest v st') = events first
       /\ completion (runTest v st') = completion first)
    /\ logs (final second) = stamp (clock v) (clockReads st + length cs) cs
    /\ map content (logs (final second)) = map content (logs (final first))
    /\ events second = events first
    /\ completion second = completion first
    /\ ((forall i j, clock v i = clock v j) ->
        logs (final second) = logs (final first)).
Proof.
  cbv zeta.
  destruct (runTest_normal_form v (contractAddress st))
    as (c & cs & la & t & E).
  exists cs.
  assert (G : forall st', contractAddress st' = contractAddress st ->
       logs (final (runTest v st')) = stamp (clock v) (clockReads st') cs
       /\ events (runTest v st') = events (runTest v st)
       /\ completion (runTest v st') = completion (runTest v st)).
  { intros st' Hst'. rewrite (E st' Hst'), (E st eq_refl). auto. }
  split; [exact G|].
  assert (Hfinal : contractAddress (final (runTest v st)) = contractAddress st)
    by (rewrite (E st eq_refl); reflexivity).
  assert (Hreads : clockReads (final (runTest v st))
                   = clockReads st + length cs)
    by (rewrite (E st eq_refl); reflexivity).
  destruct (G _ Hfinal) as (L2 & E2 & C2).
  destruct (G st eq_refl) as (L1 & _ & _).
  rewrite Hreads in L2.
  repeat split; auto.
  - now rewrite L1, L2, !stamp_content.
  - intro Hc. rewrite L1, L2. now apply stamp_constant_clock.
Qed.

(** C8 as the specification has it fails: the second log differs from the
    first in the times as soon as the clock has moved on. *)
Lemma rerun_same_lines_counterexample :
  ~ (forall v st,
       logs (final (runTest v (final (runTest v st))))
       = logs (final (runTest v st))).
Proof.
  intro H.
  specialize (H (EndToEnd Demo.end_to_end_without_wallet) Demo.initial).
  vm_compute in H. discriminate H.
Qed.

Lemma rerun_same_lines_witness :
  exists cs,
    logs (final (runTest (DirectSigning (Demo.direct [8453%Z])) Demo.initial))
    = stamp Demo.clock 0 cs
    /\ length cs = 29.
Proof.
  destruct (rerun_same_lines (DirectSigning (Demo.direct [8453%Z]))
              Demo.initial) as (cs & G & _).
  destruct (G Demo.initial eq_refl) as (L & _ & _).
  exists cs. split; [exact L|].
  apply (f_equal (@length LogEntry)) in L. rewrite stamp_length in L.
  rewrite <- L. reflexivity.
Defined.

(* ================================================================== *)
(** * No wallet *)
(* ================================================================== *)

(** C2 (as amended).  Started without a wallet handle, the end-to-end
    runner logs exactly one entry, of level error; the bug reproduction and
    the direct-signing runner log their step-1 heading first, so their log
    has two entries, an info entry and then the error entry.  In all three
    there is exactly one error entry, it is the last one, the run ends by
    [return] and the running flag is false again. *)
Theorem no_wallet_log (v : Variant) (st : State) :
  primaryWallet v = None ->
  let r := runTest v st in
  logs (final r)
  = stamp (clock v) (clockReads st)
      (match v with
       | EndToEnd _ => [(error, "No wallet connected")]
       | _ => [(info, "Step 1: Checking Dynamic wallet connection...");
               (error, "No wallet connected. Please connect first.")]
       end)
  /\ length (filter is_error (logs (final r))) = 1
  /\ running (final r) = false
  /\ completion r = Return.
Proof.
  destruct v as [[] | [] | []]; simpl; intros ->; repeat split; reflexivity.
Qed.

Lemma no_wallet_log_witness :
  length (logs (final (runTest (EndToEnd Demo.end_to_end_without_wallet)
                         Demo.initial))) = 1
  /\ running (final (runTest (EndToEnd Demo.end_to_end_without_wallet)
                       Demo.initial)) = false.
Proof.
  destruct (no_wallet_log (EndToEnd Demo.end_to_end_without_wallet)
              Demo.initial eq_refl) as (L & _ & R & _).
  split; [rewrite L; reflexivity | exact R].
Defined.

(** C2 as the specification has it fails for the bug reproduction: with no
    wallet its log has two entries. *)
Lemma no_wallet_log_counterexample :
  ~ (forall v st,
       primaryWallet v = None ->
       length (logs (final (runTest v st))) = 1).
Proof.
  intro H.
  specialize (H (BugRepro Demo.app_without_wallet) Demo.initial eq_refl).
  vm_compute in H. discriminate H.
Qed.

(* ================================================================== *)
(** * From the steps to the run *)
(* ================================================================== *)

Ltac in_cases H :=
  simpl in H;
  repeat (destruct H as [H|H]; [try discriminate H|]);
  try contradiction.

Lemma handler_script (v : Variant) (e : Thrown) :
  script (clock v) (among no_calls false) (handler v e).
Proof.
  destruct v; simpl;
    [unfold App.unexpected|unfold RhinestoneTest.failed
    |unfold Eip7702Test.failed]; script_auto.
Qed.

Lemma handler_calls (v : Variant) (e : Thrown) (st : State) c o :
  ~ In (EvCall c o) (events (handler v e st)).
Proof.
  intro Hin.
  destruct (script_events (handler_script v e) _ _ Hin) as [H|H].
  - exact H.
  - discriminate H.
Qed.

(** The calls of a run are the calls of its steps. *)
Lemma run_calls (v : Variant) (st : State) c o :
  In (EvCall c o) (events (runTest v st))
  <-> In (EvCall c o) (events (steps v (entry v st))).
Proof.
  rewrite runTest_shape. unfold events at 1. simpl.
  unfold guarded, tryCatch.
  pose proof (handler_calls v) as Hh.
  destruct (steps v (entry v st)) as [[c1 s1] t1].
  assert (Hpre : In (EvCall c o) (resets v) -> False)
    by (destruct v; simpl; intros [H|H]; try discriminate H;
        try destruct H as [H|H]; try discriminate H; auto).
  destruct c1 as [u| |e]; unfold events; simpl.
  1,2: split;
    [intro H; apply in_app_or in H; destruct H as [H|[H|H]];
     [tauto|discriminate H|];
     apply in_app_or in H; destruct H as [H|H]; [exact H|in_cases H]
    |intro H; apply in_or_app; right; right; apply in_or_app; now left].
  specialize (Hh e s1 c o). destruct (handler v e s1) as [[c2 s2] t2].
  unfold events in Hh. simpl in *. split.
  - intro H. apply in_app_or in H. destruct H as [H|[H|H]];
      [tauto|discriminate H|].
    apply in_app_or in H. destruct H as [H|H]; [|in_cases H].
    apply in_app_or in H. tauto.
  - intro H. apply in_or_app. right. right.
    apply in_or_app. left. apply in_or_app. now left.
Qed.

(** When the steps end without throwing, so does the run, with the log as
    the steps left it. *)
Lemma run_of_steps (v : Variant) (st : State) :
  (forall e, completion (steps v (entry v st)) <> Throw e) ->
  completion (runTest v st) = completion (steps v (entry v st))
  /\ logs (final (runTest v st)) = logs (final (steps v (entry v st))).
Proof.
  intro H. rewrite runTest_shape. unfold guarded, tryCatch.
  destruct (steps v (entry v st)) as [[c1 s1] t1].
  destruct c1 as [u| |e]; try (split; reflexivity).
  exfalso. now apply (H e).
Qed.

(* ================================================================== *)
(** * Configuration *)
(* ================================================================== *)

(** Evaluation of a block on a given state unfolds the statement forms. *)
Arguments pure {A} a st /.
Arguments bind {A B} m k st /.
Arguments return_ {A} st /.
Arguments throw {A} e st /.
Arguments emit ev st /.
Arguments modify f st /.
Arguments read_contractAddress st /.
Arguments tryCatch {A} m h st /.
Arguments tryFinally {A} m f st /.
Arguments log clock lvl m st /.
Arguments setLogs l st /.
Arguments setRunning b st /.
Arguments setLastAuthorization a st /.

(** Closes the case of a run that has been evaluated to its end. *)
Ltac finish_leaf :=
  solve [ reflexivity
        | match goal with Hx : _ = true |- _ => discriminate Hx end ].

Ltac close_leaf :=
  repeat split; try discriminate; intros;
  repeat match goal with
         | H : exists _, _ |- _ => destruct H as [? H]
         | H : _ /\ _ |- _ => destruct H as [? H]
         end;
  try match goal with
      | H : In _ _ |- _ =>
          in_cases H; inversion H; subst; finish_leaf
      | H : _ \/ _ |- _ =>
          in_cases H; inversion H; subst; finish_leaf
      | H : False |- _ => destruct H
      end.

Lemma App_setup_without_key (w : App.World) (st : State) :
  truthy (App.RHINESTONE_API_KEY w) = false ->
  let r := App.setup w st in
  (forall a, completion r <> Normal a)
  /\ (forall c o, In (EvCall c o) (events r) -> before_sdk c = true)
  /\ ((exists c, builds_owner_account c = true
                 /\ In (EvCall c Returned) (events r)) ->
      completion r = Return
      /\ exists earlier t,
           logs (final r)
           = (earlier
                ++ [mkLogEntry t error "VITE_RHINESTONE_API_KEY not set"])%list).
Proof.
  destruct w as [clk key wallet cwc wcta sdk ca]. simpl. intro Hk.
  unfold App.setup, completion, final, events. cbn. rewrite Hk.
  destruct wallet as [[addr conn gwc]|]; cbn; [|solve [close_leaf]].
  destruct gwc as [[|]|e]; cbn.
  2,3: solve [close_leaf].
  destruct cwc as [wc|e]; cbn; [|solve [close_leaf]].
  destruct wcta as [ty|e]; cbn; [|solve [close_leaf]].
  close_leaf. eexists _, _. reflexivity.
Qed.

Lemma RhinestoneTest_setup_without_key (w : RhinestoneTest.World) (st : State) :
  truthy (RhinestoneTest.RHINESTONE_API_KEY w) = false ->
  let r := RhinestoneTest.setup w st in
  (forall a, completion r <> Normal a)
  /\ (forall c o, In (EvCall c o) (events r) -> before_sdk c = true)
  /\ ((exists c, builds_owner_account c = true
                 /\ In (EvCall c Returned) (events r)) ->
      completion r = Return
      /\ exists earlier t,
           logs (final r)
           = (earlier
                ++ [mkLogEntry t error "RHINESTONE_API_KEY not set"])%list).
Proof.
  destruct w as [clk key wallet ta sdk ca]. simpl. intro Hk.
  unfold RhinestoneTest.setup, completion, final, events. cbn. rewrite Hk.
  destruct wallet as [[addr conn gwc]|]; cbn; [|solve [close_leaf]].
  destruct conn as [[nm sup nets gn sn sa gaa gs hwc hpk]|]; cbn;
    [|solve [close_leaf]].
  destruct sa as [sa|]; cbn; [|solve [close_leaf]].
  destruct gs as [gs|]; cbn; [|solve [close_leaf]].
  destruct sa as [[]|e]; cbn; [|solve [close_leaf]].
  destruct gs as [signer|e]; cbn; [|solve [close_leaf]].
  destruct signer as [[acct [sg|]]|]; cbn; [|solve [close_leaf]..].
  destruct ta as [[]|e]; cbn; [|solve [close_leaf]].
  close_leaf. eexists _, _. reflexivity.
Qed.


Lemma bind_abrupt (A B : Type) (m : M A) (k : A -> M B) (st : State) :
  (forall a, completion (m st) <> Normal a) ->
  events (bind m k st) = events (m st)
  /\ final (bind m k st) = final (m st)
  /\ (completion (m st) = Return -> completion (bind m k st) = Return)
  /\ (forall e, completion (m st) = Throw e ->
                completion (bind m k st) = Throw e).
Proof.
  unfold bind, completion, final, events.
  destruct (m st) as [[c s1] t1]. destruct c as [a| |e]; simpl; intro H.
  - now destruct (H a).
  - repeat split; auto; discriminate.
  - repeat split; auto; try discriminate. now intros e0 [= ->].
Qed.

Lemma steps_without_key (v : Variant) (st : State) :
  account_abstraction v = true ->
  truthy (RHINESTONE_API_KEY v) = false ->
  let r := steps v st in
  (forall c o, In (EvCall c o) (events r) -> before_sdk c = true)
  /\ ((exists c, builds_owner_account c = true
                 /\ In (EvCall c Returned) (events r)) ->
      completion r = Return
      /\ exists earlier t,
           logs (final r)
           = (earlier ++ [mkLogEntry t error (key_not_set v)])%list).
Proof.
  destruct v as [w|w|w]; simpl; intros Haa Hk; try discriminate Haa.
  - destruct (App_setup_without_key w st Hk) as (Hn & Hc & Hr).
    unfold App.steps. cbv zeta.
    destruct (bind_abrupt (App.setup w)
                (fun ctx =>
                   eip7702InitSignature <-
                     App.sign_init_data (log (App.clock w))
                       (App.rhinestoneAccount ctx) ;;
                   App.prepare (log (App.clock w)) (App.rhinestoneAccount ctx)
                     eip7702InitSignature ;;
                   signAuthFailed <-
                     App.critical_test (log (App.clock w))
                       (App.rhinestoneAccount ctx) ;;
                   App.try_workaround (log (App.clock w)) ctx signAuthFailed ;;
                   App.capabilities (log (App.clock w)) (App.wallet ctx))
                st Hn) as (Ee & Ef & Er & _).
    rewrite Ee, Ef. split; [exact Hc|].
    intro H. destruct (Hr H) as [Hret Hlog]. split; [now apply Er|exact Hlog].
  - destruct (RhinestoneTest_setup_without_key w st Hk) as (Hn & Hc & Hr).
    unfold RhinestoneTest.steps. cbv zeta.
    destruct (bind_abrupt (RhinestoneTest.setup w)
                (fun rhinestoneAccount =>
                   eip7702InitSignature <-
                     RhinestoneTest.sign_init_data
                       (log (RhinestoneTest.clock w)) rhinestoneAccount ;;
                   RhinestoneTest.prepare (log (RhinestoneTest.clock w))
                     rhinestoneAccount eip7702InitSignature ;;
                   RhinestoneTest.sign_and_submit
                     (log (RhinestoneTest.clock w)) rhinestoneAccount)
                st Hn) as (Ee & Ef & Er & _).
    rewrite Ee, Ef. split; [exact Hc|].
    intro H. destruct (Hr H) as [Hret Hlog]. split; [now apply Er|exact Hlog].
Qed.

(** C9 (as amended).  Start-up checks one setting, the environment
    identifier of the wallet provider: without it the entry module throws
    and nothing is mounted; with it the page is mounted whatever the API key
    is.  The API key is looked at later, by the two account-abstraction
    runners themselves: when it is missing, every call of a run is one of
    those that come before the SDK client is constructed ([getWalletClient],
    [createWalletClient], [walletClientToAccount], [setActiveAccount],
    [getSigner] or [toAccount]), so [RhinestoneSDK] is not constructed and
    nothing is called on a client or on an account of the SDK; and a run that
    got as far as building the owner account logs the error line for the
    missing key as its last entry and ends by [return]. *)
Theorem startup_checks_environment_id :
  (forall env,
      truthy (Main.VITE_DYNAMIC_ENVIRONMENT_ID env) = false ->
      Main.main env
      = Main.Failed (JsError "VITE_DYNAMIC_ENVIRONMENT_ID is required"))
  /\ (forall env,
         truthy (Main.VITE_DYNAMIC_ENVIRONMENT_ID env) = true ->
         Main.main env
         = Main.Mounted (tmpl (Main.VITE_DYNAMIC_ENVIRONMENT_ID env))
                        (Main.VITE_RHINESTONE_API_KEY env))
  /\ (forall v st,
         account_abstraction v = true ->
         truthy (RHINESTONE_API_KEY v) = false ->
         let r := runTest v st in
         (forall c o, In (EvCall c o) (events r) -> before_sdk c = true)
         /\ ((exists c, builds_owner_account c = true
                        /\ In (EvCall c Returned) (events r)) ->
             completion r = Return
             /\ exists earlier t,
                  logs (final r)
                  = (earlier ++ [mkLogEntry t error (key_not_set v)])%list)).
Proof.
  split; [|split].
  - intros env H. unfold Main.main. now rewrite H.
  - intros env H. unfold Main.main. now rewrite H.
  - intros v st Haa Hk. cbv zeta.
    destruct (steps_without_key v (entry v st) Haa Hk) as [Hc Hr].
    split.
    + intros c o Hin. apply run_calls in Hin. now apply (Hc c o).
    + intros (c & Hb & Hin). apply run_calls in Hin.
      destruct (Hr (ex_intro _ c (conj Hb Hin))) as [Hret Hlog].
      assert (Hno : forall e, completion (steps v (entry v st)) <> Throw e)
        by (intro e; rewrite Hret; discriminate).
      destruct (run_of_steps v st Hno) as [E1 E2].
      rewrite E1, E2. split; [exact Hret|exact Hlog].
Qed.

Lemma startup_checks_environment_id_witness :
  Main.main (Main.mkEnv (Some "key") None)
  = Main.Failed (JsError "VITE_DYNAMIC_ENVIRONMENT_ID is required")
  /\ Main.main (Main.mkEnv None (Some "env"))
     = Main.Mounted "env" None
  /\ completion (runTest (EndToEnd (Demo.end_to_end None)) Demo.initial)
     = Return.
Proof.
  destruct startup_checks_environment_id as (H1 & H2 & H3).
  split; [|split].
  - exact (H1 (Main.mkEnv (Some "key") None) eq_refl).
  - exact (H2 (Main.mkEnv None (Some "env")) eq_refl).
  - apply (H3 (EndToEnd (Demo.end_to_end None)) Demo.initial eq_refl eq_refl).
    exists (Call.toAccount Demo.sender). split; [reflexivity|].
    vm_compute. tauto.
Defined.

(** C9 as the specification has it fails: without the API key the entry
    module does not throw. *)
Lemma startup_checks_counterexample :
  ~ (forall env,
       truthy (Main.VITE_RHINESTONE_API_KEY env) = false
       \/ truthy (Main.VITE_DYNAMIC_ENVIRONMENT_ID env) = false ->
       exists e, Main.main env = Main.Failed e).
Proof.
  intro H.
  destruct (H (Main.mkEnv None (Some "env")) (or_introl eq_refl)) as [e He].
  discriminate He.
Qed.

(* ================================================================== *)
(** * The network check *)
(* ================================================================== *)

Ltac split_last :=
  match goal with
  | |- exists earlier t, ?L = _ =>
      exists (removelast L); eexists; reflexivity
  end.

(** C6 (as amended).  In the direct-signing variant, when Base is not among
    the chains the wallet handle declares, the only call a run can make is
    the support probe of step 2: the signer is never acquired and nothing is
    signed; and a run that reaches step 3 logs the error line for the
    missing chain as its last entry and ends by [return]. *)
Theorem base_absent_stops_direct_signing
    (w : Eip7702Test.World) (st : State) :
  existsb (Z.eqb base_id) (declared_chains (DirectSigning w)) = false ->
  let r := runTest (DirectSigning w) st in
  (forall c o, In (EvCall c o) (events r) ->
               c = Call.isSignAuthorizationSupported /\ signing_call c = false)
  /\ ((exists t, In (mkLogEntry t info "Step 3: Checking network...")
                    (logs (final r))) ->
      completion r = Return
      /\ exists earlier t,
           logs (final r)
           = (earlier
                ++ [mkLogEntry t error
                      "Base not available. Add it in Dynamic dashboard."])%list).
Proof.
  destruct w as [clk wallet]. unfold declared_chains. simpl.
  unfold Eip7702Test.runTest, Eip7702Test.steps, Eip7702Test.identify,
    Eip7702Test.failed, completion, final, events.
  destruct wallet as [[addr conn gwc]|]; cbn; [|intros _; solve [close_leaf]].
  unfold Wallet.declared_chains. simpl.
  destruct conn as [[nm sup nets gn sn sa gaa gs hwc hpk]|]; cbn;
    [|intros _; solve [close_leaf]].
  intro Hb.
  destruct sup as [[[|]|[m| |]]|]; cbn; unfold Eip7702Test.check_network; cbn;
    rewrite ?Hb; cbn.
  all: try solve [close_leaf].
  all: close_leaf; split_last.
Qed.

Lemma base_absent_stops_direct_signing_witness :
  ~ In (EvCall Call.getSigner Returned)
       (events (runTest (DirectSigning (Demo.direct [1%Z])) Demo.initial)).
Proof.
  intro H.
  destruct (proj1 (base_absent_stops_direct_signing
                     (Demo.direct [1%Z]) Demo.initial eq_refl)
                  Call.getSigner Returned H) as [_ Hs].
  discriminate Hs.
Defined.

(** C6 as the specification has it fails for the bug reproduction, which
    does not look at the declared chains: it goes on to
    [signAuthorizations] with a wallet that declares no chain at all. *)
Lemma base_absent_counterexample :
  ~ (forall v st,
       existsb (Z.eqb base_id) (declared_chains v) = false ->
       forall c o, signing_call c = true ->
                   ~ In (EvCall c o) (events (runTest v st))).
Proof.
  intro H.
  apply (H (BugRepro (Demo.app [] Demo.account)) Demo.initial eq_refl
           Call.signAuthorizations (Rejected Demo.wrong_account_type) eq_refl).
  vm_compute. repeat (try (left; reflexivity); right).
Qed.

(* ================================================================== *)
(** * Step 10 and after *)
(* ================================================================== *)

Lemma App_capabilities_completes clk wallet st :
  completion (App.capabilities (log clk) wallet st) = Normal tt.
Proof.
  unfold App.capabilities, completion. cbn.
  destruct wallet as [addr [[nm sup nets gn sn sa gaa gs hwc hpk]|] gwc]; cbn.
  - destruct nm as [n|]; cbn.
    + destruct (includes (toLowerCase n) "embedded" || includes (toLowerCase n) "dynamic"); cbn;
      destruct hwc, gs, hpk; reflexivity.
    + destruct hwc, gs, hpk; reflexivity.
  - reflexivity.
Qed.

Lemma App_try_workaround_completes clk ctx failed st :
  completion (App.try_workaround (log clk) ctx failed st) = Normal tt
  \/ exists m, completion (App.try_workaround (log clk) ctx failed st)
               = Throw (JsError m).
Proof.
  unfold App.try_workaround, App.workaround, completion.
  destruct failed; cbn; [|left; reflexivity].
  destruct (App.signAuthorization (App.walletClient ctx)) as [answer|]; cbn;
    [|left; reflexivity].
  destruct (App.getTransactionMessages (App.rhinestoneAccount ctx))
    as [messages|[m| |]]; cbn; try (left; reflexivity);
    [|right; eexists; reflexivity].
  destruct (App.delegate_candidate messages (Wallet.address (App.wallet ctx)))
    as [d|]; cbn; [|left; reflexivity].
  destruct answer as [auth|[m| |]]; cbn; try (left; reflexivity).
  destruct (includes m "not supported" || (includes m "Method not found" || false)); left; reflexivity.
Qed.

Lemma events_bind A B (m : M A) (k : A -> M B) st :
  events (bind m k st)
  = match completion (m st) with
    | Normal a => (events (m st) ++ events (k a (final (m st))))%list
    | _ => events (m st)
    end.
Proof.
  unfold completion, final, events. cbn.
  destruct (m st) as [[[a| |e] s1] t1]; cbn; try reflexivity.
  destruct (k a s1) as [[c2 s2] t2]; reflexivity.
Qed.

Lemma final_bind A B (m : M A) (k : A -> M B) st :
  final (bind m k st)
  = match completion (m st) with
    | Normal a => final (k a (final (m st)))
    | _ => final (m st)
    end.
Proof.
  unfold completion, final, events. cbn.
  destruct (m st) as [[[a| |e] s1] t1]; cbn; try reflexivity.
  destruct (k a s1) as [[c2 s2] t2]; reflexivity.
Qed.

Lemma completion_bind A B (m : M A) (k : A -> M B) st :
  completion (bind m k st)
  = match completion (m st) with
    | Normal a => completion (k a (final (m st)))
    | Return => Return
    | Throw e => Throw e
    end.
Proof.
  unfold completion, final, events. cbn.
  destruct (m st) as [[[a| |e] s1] t1]; cbn; try reflexivity.
  destruct (k a s1) as [[c2 s2] t2]; reflexivity.
Qed.

Lemma script_appends clk P A (m : M A) :
  script clk P m -> forall st, exists l, logs (final (m st)) = (logs st ++ l)%list.
Proof.
  intros H st.
  destruct (script_normal_form H (contractAddress st)) as (c & cs & la & t & _ & E).
  rewrite (E st eq_refl). eexists. reflexivity.
Qed.

Lemma script_no_call clk cs stores A (m : M A) :
  script clk (among cs stores) m ->
  forall c, cs c = false ->
  forall st o, ~ In (EvCall c o) (events (m st)).
Proof.
  intros H c Hc st o Hin. destruct (script_events H _ _ Hin) as [F|F].
  - exact F.
  - simpl in F. congruence.
Qed.

Arguments App.capabilities : simpl never.
Arguments App.try_workaround : simpl never.
Arguments App.workaround : simpl never.

Lemma App_critical_test_run clk ra st message :
  In (EvCall Call.signAuthorizations (Rejected (JsError message)))
     (events (App.critical_test (log clk) ra st)) ->
  (includes message "Account type" || includes message "json-rpc"
   || includes message "not supported") = true ->
  let r := App.critical_test (log clk) ra st in
  completion r = Normal true
  /\ exists t0 t1 t2,
      logs (final r)
      = (logs st
         ++ [mkLogEntry t0 info
               "Step 10: Calling signAuthorizations (THE BUG TEST)...";
             mkLogEntry t1 error ("signAuthorizations FAILED: " ++ message);
             mkLogEntry t2 error bug_confirmed])%list.
Proof.
  unfold App.critical_test, completion, final, events. cbn.
  destruct (App.signAuthorizations ra) as [n|e]; cbn.
  - intro H. in_cases H.
  - destruct e as [m| |]; cbn; [|intro H; in_cases H..].
    destruct (includes m "Account type"
              || (includes m "json-rpc" || (includes m "not supported" || false)))
      eqn:Eb; cbn; intro H; in_cases H; injection H as ->; intro Hm.
    + split; [reflexivity|]. eexists _, _, _.
      rewrite <- !app_assoc. reflexivity.
    + rewrite orb_false_r, orb_assoc in Eb. congruence.
Qed.

Lemma App_try_workaround_logs clk ctx st :
  exists t l,
    logs (final (App.try_workaround (log clk) ctx true st))
    = (logs st
       ++ mkLogEntry t info
            "Step 11: Testing walletClient.signAuthorization workaround..."
       :: l)%list.
Proof.
  unfold App.try_workaround. cbn [negb]. rewrite final_bind.
  assert (S : script clk (among App_workaround_calls false)
                (match App.signAuthorization (App.walletClient ctx) with
                 | Some answer =>
                     App.workaround (log clk) (Wallet.address (App.wallet ctx))
                       (App.rhinestoneAccount ctx) answer
                 | None =>
                     log clk error
                       "walletClient.signAuthorization not available on this walletClient"
                 end)).
  { destruct (App.signAuthorization (App.walletClient ctx)).
    - apply App_workaround_script.
    - constructor. }
  cbn. 
  match goal with
  | |- context [final (?m ?s)] => destruct (script_appends S s) as [l L]
  end.
  rewrite L. cbn. eexists _, l. rewrite <- app_assoc. reflexivity.
Qed.

Lemma App_steps_bug_confirmed (w : App.World) (st : State) (message : string) :
  In (EvCall Call.signAuthorizations (Rejected (JsError message)))
     (events (App.steps w st)) ->
  (includes message "Account type" || includes message "json-rpc"
   || includes message "not supported") = true ->
  let r := App.steps w st in
  (completion r = Normal tt \/ exists m, completion r = Throw (JsError m))
  /\ exists before t1 t2 t3 after,
      logs (final r)
      = (logs st ++ before
         ++ [mkLogEntry t1 error ("signAuthorizations FAILED: " ++ message);
             mkLogEntry t2 error bug_confirmed;
             mkLogEntry t3 info
               "Step 11: Testing walletClient.signAuthorization workaround..."]
         ++ after)%list.
Proof.
  unfold App.steps. cbv zeta. intros H Hm.
  (* steps 1 to 7 *)
  rewrite events_bind in H. rewrite completion_bind, final_bind.
  pose proof (script_no_call (App_setup_script w) Call.signAuthorizations
                eq_refl st (Rejected (JsError message))) as N1.
  destruct (script_appends (App_setup_script w) st) as [l1 L1].
  destruct (completion (App.setup w st)) as [ctx| |e]; [|contradiction..].
  apply in_app_or in H; destruct H as [H|H]; [contradiction|]. clear N1.
  set (s1 := final (App.setup w st)) in *.
  (* step 8 *)
  rewrite events_bind in H. rewrite completion_bind, final_bind.
  pose proof (script_no_call
                (App_sign_init_data_script (App.clock w)
                   (App.rhinestoneAccount ctx))
                Call.signAuthorizations eq_refl s1
                (Rejected (JsError message))) as N2.
  destruct (script_appends (App_sign_init_data_script (App.clock w)
                   (App.rhinestoneAccount ctx)) s1) as [l2 L2].
  destruct (completion (App.sign_init_data (log (App.clock w))
                          (App.rhinestoneAccount ctx) s1)) as [sig| |e];
    [|contradiction..].
  apply in_app_or in H; destruct H as [H|H]; [contradiction|]. clear N2.
  set (s2 := final (App.sign_init_data _ _ s1)) in *.
  (* step 9 *)
  rewrite events_bind in H. rewrite completion_bind, final_bind.
  pose proof (script_no_call
                (App_prepare_script (App.clock w)
                   (App.rhinestoneAccount ctx) sig)
                Call.signAuthorizations eq_refl s2
                (Rejected (JsError message))) as N3.
  destruct (script_appends (App_prepare_script (App.clock w)
                   (App.rhinestoneAccount ctx) sig) s2) as [l3 L3].
  destruct (completion (App.prepare (log (App.clock w))
                          (App.rhinestoneAccount ctx) sig s2)) as [[]| |e];
    [|contradiction..].
  apply in_app_or in H; destruct H as [H|H]; [contradiction|]. clear N3.
  set (s3 := final (App.prepare _ _ _ s2)) in *.
  (* step 10 *)
  rewrite events_bind in H. rewrite completion_bind, final_bind.
  assert (Hc : In (EvCall Call.signAuthorizations (Rejected (JsError message)))
                  (events (App.critical_test (log (App.clock w))
                             (App.rhinestoneAccount ctx) s3))).
  { destruct (completion (App.critical_test (log (App.clock w))
                            (App.rhinestoneAccount ctx) s3)) as [failed| |e];
      try exact H.
    apply in_app_or in H; destruct H as [H|H]; [exact H|]. exfalso.
    rewrite events_bind in H.
    match type of H with
    | In _ (match completion (?m ?s) with _ => _ end) =>
        pose proof (script_no_call
                      (App_try_workaround_script (App.clock w) ctx failed)
                      Call.signAuthorizations eq_refl s
                      (Rejected (JsError message))) as N5;
        destruct (completion (m s)); try contradiction
    end.
    apply in_app_or in H; destruct H as [H|H]; [contradiction|].
    revert H.
    now apply (script_no_call (App_capabilities_script _ _)
                 Call.signAuthorizations). }
  destruct (App_critical_test_run _ _ _ _ Hc Hm) as (Cc & t0 & t1 & t2 & L4).
  rewrite Cc. clear H Hc.
  set (s4 := final (App.critical_test _ _ s3)) in *.
  (* steps 11 and 12 *)
  rewrite completion_bind, final_bind.
  destruct (App_try_workaround_logs (App.clock w) ctx s4) as (t3 & l5 & L5).
  assert (L : logs (final (App.try_workaround (log (App.clock w)) ctx true s4))
              = (logs st
                 ++ (l1 ++ l2 ++ l3
                     ++ [mkLogEntry t0 info
                           "Step 10: Calling signAuthorizations (THE BUG TEST)..."])
                 ++ [mkLogEntry t1 error ("signAuthorizations FAILED: " ++ message);
                     mkLogEntry t2 error bug_confirmed;
                     mkLogEntry t3 info
                       "Step 11: Testing walletClient.signAuthorization workaround..."]
                 ++ l5)%list).
  { rewrite L5, L4, L3, L2, L1. rewrite <- !app_assoc. reflexivity. }
  destruct (App_try_workaround_completes (App.clock w) ctx true s4)
    as [Cw|[m Cw]]; rewrite Cw.
  - rewrite App_capabilities_completes. split; [now left|].
    destruct (script_appends (App_capabilities_script (App.clock w)
                                (App.wallet ctx))
                (final (App.try_workaround (log (App.clock w)) ctx true s4)))
      as [l6 L6].
    rewrite L6, L.
    exists (l1 ++ l2 ++ l3
            ++ [mkLogEntry t0 info
                  "Step 10: Calling signAuthorizations (THE BUG TEST)..."])%list,
      t1, t2, t3, (l5 ++ l6)%list.
    rewrite <- !app_assoc. reflexivity.
  - split; [right; now exists m|].
    rewrite L. eexists _, t1, t2, t3, l5. reflexivity.
Qed.

(** When the steps throw an [Error], the [catch] clause logs its message
    and the run completes. *)
Lemma run_of_throw (v : Variant) (st : State) (m : string) :
  completion (steps v (entry v st)) = Throw (JsError m) ->
  completion (runTest v st) = Normal tt
  /\ exists t,
      logs (final (runTest v st))
      = (logs (final (steps v (entry v st)))
         ++ [mkLogEntry t error (handler_prefix v ++ m)])%list.
Proof.
  intro H. rewrite runTest_shape. unfold guarded, completion, final in *.
  cbn. destruct (steps v (entry v st)) as [[c1 s1] t1]. simpl in H. subst c1.
  destruct v; cbn; (split; [reflexivity|eexists; reflexivity]).
Qed.

(** C1.  In the bug reproduction, whenever the [signAuthorizations] call
    throws an error whose message contains "Account type", "json-rpc" or
    "not supported", the log holds the failure entry with the message, right
    after it the BUG CONFIRMED marker, and right after that the heading of
    step 11, the bypass; nothing is thrown out of [runTest]. *)
Theorem bug_confirmed_marker (w : App.World) (st : State) (message : string) :
  In (EvCall Call.signAuthorizations (Rejected (JsError message)))
     (events (runTest (BugRepro w) st)) ->
  (includes message "Account type" || includes message "json-rpc"
   || includes message "not supported") = true ->
  let r := runTest (BugRepro w) st in
  completion r = Normal tt
  /\ exists before t1 t2 t3 after,
      logs (final r)
      = (before
         ++ [mkLogEntry t1 error ("signAuthorizations FAILED: " ++ message);
             mkLogEntry t2 error bug_confirmed;
             mkLogEntry t3 info
               "Step 11: Testing walletClient.signAuthorization workaround..."]
         ++ after)%list.
Proof.
  intros H Hm. cbv zeta. apply run_calls in H.
  destruct (App_steps_bug_confirmed w (cleared st) message H Hm)
    as (Hc & before & t1 & t2 & t3 & after & L).
  change (App.steps w (cleared st))
    with (steps (BugRepro w) (entry (BugRepro w) st)) in *.
  simpl (logs (cleared st)) in L. simpl app in L.
  destruct Hc as [Hc|[m Hc]].
  - assert (Hno : forall e, completion (steps (BugRepro w)
                                          (entry (BugRepro w) st)) <> Throw e)
      by (intro e; rewrite Hc; discriminate).
    destruct (run_of_steps _ st Hno) as [E1 E2].
    rewrite E1, E2, Hc, L. split; [reflexivity|].
    now exists before, t1, t2, t3, after.
  - destruct (run_of_throw _ st Hc) as (E1 & t & E2).
    rewrite E1, E2, L. split; [reflexivity|].
    exists before, t1, t2, t3,
      (after ++ [mkLogEntry t error (handler_prefix (BugRepro w) ++ m)])%list.
    now rewrite <- !app_assoc.
Qed.

Lemma bug_confirmed_marker_witness :
  completion (runTest (BugRepro (Demo.app [8453%Z] Demo.account)) Demo.initial)
  = Normal tt.
Proof.
  apply (bug_confirmed_marker (Demo.app [8453%Z] Demo.account) Demo.initial
           "Account type json-rpc is not supported").
  - vm_compute. repeat (try (left; reflexivity); right).
  - reflexivity.
Defined.

(* ================================================================== *)
(** * Preparing the transaction *)
(* ================================================================== *)

Lemma run_events (v : Variant) (st : State) :
  events (runTest v st)
  = (resets v ++ EvSetRunning true
       :: events (steps v (entry v st))
       ++ match completion (steps v (entry v st)) with
          | Throw e => events (handler v e (final (steps v (entry v st))))
          | _ => []
          end
       ++ [EvSetRunning false])%list.
Proof.
  rewrite runTest_shape. unfold guarded, completion, final, events. cbn.
  destruct (steps v (entry v st)) as [[[u| |e] s1] t1]; cbn.
  - reflexivity.
  - reflexivity.
  - destruct (handler v e s1) as [[c2 s2] t2]. cbn.
    now rewrite <- app_assoc.
Qed.

Lemma run_logs (v : Variant) (st : State) :
  logs (final (runTest v st))
  = match completion (steps v (entry v st)) with
    | Throw e => logs (final (handler v e (final (steps v (entry v st)))))
    | _ => logs (final (steps v (entry v st)))
    end.
Proof.
  rewrite runTest_shape. unfold guarded, completion, final, events. cbn.
  destruct (steps v (entry v st)) as [[[u| |e] s1] t1]; cbn; try reflexivity.
  destruct (handler v e s1) as [[c2 s2] t2]. reflexivity.
Qed.

Lemma run_completion (v : Variant) (st : State) :
  completion (runTest v st)
  = match completion (steps v (entry v st)) with
    | Throw e => completion (handler v e (final (steps v (entry v st))))
    | c => c
    end.
Proof.
  rewrite runTest_shape. unfold guarded, completion, final, events. cbn.
  destruct (steps v (entry v st)) as [[[u| |e] s1] t1]; cbn; try reflexivity.
  destruct (handler v e s1) as [[c2 s2] t2]. reflexivity.
Qed.

Arguments App.setup : simpl never.
Arguments App.sign_init_data : simpl never.
Arguments App.prepare : simpl never.
Arguments App.critical_test : simpl never.

Lemma App_prepare_failure clk ra sig0 st sig e :
  In (EvCall (Call.prepareTransaction sig) (Rejected e))
     (events (App.prepare (log clk) ra sig0 st)) ->
  let r := App.prepare (log clk) ra sig0 st in
  sig = sig0
  /\ exists t1 t2,
      events r = (t1 ++ EvCall (Call.prepareTransaction sig) (Rejected e) :: t2)%list
      /\ Forall is_console t1 /\ Forall is_console t2
      /\ (e <> JsNullish ->
          completion r = Return
          /\ exists t, logs (final r)
               = (logs st ++ [mkLogEntry (clk (clockReads st)) info ("Step 9: Preparing transaction with feeAsset: " ++ dq ++ "USDC" ++ dq ++ "...");
                    mkLogEntry (clk (S (clockReads st))) info ("Including eip7702InitSignature: " ++ of_bool (truthy sig0));
                    mkLogEntry t error ("prepareTransaction failed: " ++ tmpl (message_of e))])%list)
      /\ (e = JsNullish -> exists m, completion r = Throw (JsError m)).
Proof.
  unfold App.prepare, completion, final, events. cbn.
  destruct (App.prepareTransaction ra) as [[]|[m| |]]; cbn; intro H; in_cases H;
    injection H as -> <-; (split; [reflexivity|]).
  all: eexists [_; _], _; split; [reflexivity|].
  all: split; [repeat constructor|split; [repeat constructor|]].
  all: split; [intro Hn|intro Hn; try discriminate Hn].
  all: try (now destruct Hn).
  all: try (split; [reflexivity|]; eexists; rewrite <- !app_assoc; reflexivity).
  eexists; reflexivity.
Qed.

Lemma Forall_console_no_call t c o :
  Forall is_console t -> ~ In (EvCall c o) t.
Proof.
  intros H Hin. rewrite Forall_forall in H. exact (H _ Hin).
Qed.

Lemma App_steps_prepare_failure (w : App.World) (st : State) sig e :
  In (EvCall (Call.prepareTransaction sig) (Rejected e))
     (events (App.steps w st)) ->
  let r := App.steps w st in
  exists t1 t2,
    events r = (t1 ++ EvCall (Call.prepareTransaction sig) (Rejected e) :: t2)%list
    /\ (forall sig' o, ~ In (EvCall (Call.prepareTransaction sig') o) t1)
    /\ Forall is_console t2
    /\ (e <> JsNullish ->
        completion r = Return
        /\ exists earlier t,
            logs (final r)
            = (earlier
               ++ [mkLogEntry t error
                     ("prepareTransaction failed: " ++ tmpl (message_of e))])%list)
    /\ (e = JsNullish -> exists m, completion r = Throw (JsError m)).
Proof.
  unfold App.steps. cbv zeta. intro H.
  (* steps 1 to 7 *)
  rewrite events_bind in H. rewrite events_bind, completion_bind, final_bind.
  pose proof (fun sig' o =>
                script_no_call (App_setup_script w)
                  (Call.prepareTransaction sig') eq_refl st o) as N1.
  destruct (completion (App.setup w st)) as [ctx| |e0];
    [|now destruct (N1 _ _ H)..].
  apply in_app_or in H; destruct H as [H|H]; [now destruct (N1 _ _ H)|].
  set (s1 := final (App.setup w st)) in *.
  (* step 8 *)
  rewrite events_bind in H. rewrite events_bind, completion_bind, final_bind.
  pose proof (fun sig' o =>
                script_no_call
                  (App_sign_init_data_script (App.clock w)
                     (App.rhinestoneAccount ctx))
                  (Call.prepareTransaction sig') eq_refl s1 o) as N2.
  destruct (completion (App.sign_init_data (log (App.clock w))
                          (App.rhinestoneAccount ctx) s1)) as [sig0| |e0];
    [|now destruct (N2 _ _ H)..].
  apply in_app_or in H; destruct H as [H|H]; [now destruct (N2 _ _ H)|].
  set (s2 := final (App.sign_init_data _ _ s1)) in *.
  (* step 9 *)
  rewrite events_bind in H. rewrite events_bind, completion_bind, final_bind.
  assert (Hp : In (EvCall (Call.prepareTransaction sig) (Rejected e))
                  (events (App.prepare (log (App.clock w))
                             (App.rhinestoneAccount ctx) sig0 s2))).
  { destruct (completion (App.prepare (log (App.clock w))
                            (App.rhinestoneAccount ctx) sig0 s2)) as [[]| |e0];
      try exact H.
    apply in_app_or in H; destruct H as [H|H]; [exact H|]. exfalso.
    rewrite events_bind in H.
    match type of H with
    | In _ (match completion (?m ?s) with _ => _ end) =>
        pose proof (script_no_call
                      (App_critical_test_script (App.clock w)
                         (App.rhinestoneAccount ctx))
                      (Call.prepareTransaction sig) eq_refl s (Rejected e))
          as N4;
        destruct (completion (m s)) as [failed| |e0]; try contradiction
    end.
    apply in_app_or in H; destruct H as [H|H]; [contradiction|].
    rewrite events_bind in H.
    match type of H with
    | In _ (match completion (?m ?s) with _ => _ end) =>
        pose proof (script_no_call
                      (App_try_workaround_script (App.clock w) ctx failed)
                      (Call.prepareTransaction sig) eq_refl s (Rejected e))
          as N5;
        destruct (completion (m s)); try contradiction
    end.
    apply in_app_or in H; destruct H as [H|H]; [contradiction|].
    revert H.
    now apply (script_no_call (App_capabilities_script _ _)
                 (Call.prepareTransaction sig)). }
  destruct (@App_prepare_failure _ _ _ _ _ _ Hp)
    as (-> & t1 & t2 & Ee & C1 & C2 & Herr & Hnull).
  exists (events (App.setup w st)
          ++ events (App.sign_init_data (log (App.clock w))
                       (App.rhinestoneAccount ctx) s1) ++ t1)%list, t2.
  assert (Hshape :
            completion (App.prepare (log (App.clock w))
                          (App.rhinestoneAccount ctx) sig0 s2) = Return
            \/ exists m,
                completion (App.prepare (log (App.clock w))
                              (App.rhinestoneAccount ctx) sig0 s2)
                = Throw (JsError m)).
  { destruct e as [m| |]; [left|left|right];
      try (apply Herr; discriminate). now apply Hnull. }
  split; [|split; [|split; [|split]]].
  - destruct Hshape as [Hs|[m Hs]]; rewrite Hs, Ee;
      now rewrite <- !app_assoc.
  - intros sig' o Hin. apply in_app_or in Hin. destruct Hin as [Hin|Hin];
      [now destruct (N1 _ _ Hin)|].
    apply in_app_or in Hin. destruct Hin as [Hin|Hin];
      [now destruct (N2 _ _ Hin)|].
    revert Hin. now apply Forall_console_no_call.
  - exact C2.
  - intro Hn. destruct (Herr Hn) as (Hr & t & L). rewrite Hr.
    split; [reflexivity|]. rewrite L.
    eexists (logs s2 ++ [_; _])%list, t.
    rewrite <- app_assoc. reflexivity.
  - intro Hn. destruct (Hnull Hn) as [m Hs]. rewrite Hs. now exists m.
Qed.

Arguments RhinestoneTest.serve : simpl never.
Arguments RhinestoneTest.setup : simpl never.
Arguments RhinestoneTest.sign_init_data : simpl never.
Arguments RhinestoneTest.prepare : simpl never.
Arguments RhinestoneTest.sign_and_submit : simpl never.

(** Serving the requests of the SDK never fails: it logs, and forwards to
    the Dynamic signer. *)
Lemma RhinestoneTest_serve_run clk reqs :
  exists cs t,
    (forall c o, In (EvCall c o) t -> dynamicSigner_calls c = true)
    /\ forall st,
        RhinestoneTest.serve (log clk) reqs st
        = (Normal tt, after clk st cs None, t).
Proof.
  induction reqs as [|[request answer] reqs (cs & t & Ht & IH)].
  - exists [], []. split; [intros c o []|]. intro st. cbn.
    now rewrite after_nil.
  - assert (Hfwd : forall c, dynamicSigner_calls c = true ->
             (forall st, RhinestoneTest.eoaAccount (log clk) (request, answer) st
                         = (Normal tt, st, [EvCall c answer])) ->
             exists cs' t',
               (forall c' o, In (EvCall c' o) t' -> dynamicSigner_calls c' = true)
               /\ forall st,
                   RhinestoneTest.serve (log clk) ((request, answer) :: reqs) st
                   = (Normal tt, after clk st cs' None, t')).
    { intros c Hc Hrun. exists cs, (EvCall c answer :: t). split.
      - intros c' o [H|H]; [injection H as <- _; exact Hc|now apply (Ht c' o)].
      - intro st. unfold RhinestoneTest.serve; fold RhinestoneTest.serve.
        cbn. rewrite Hrun, IH. reflexivity. }
    destruct request as [| |domain message|ca ad chain nonce].
    + apply (Hfwd Call.dynamicSigner_signMessage); reflexivity.
    + apply (Hfwd Call.dynamicSigner_signTransaction); reflexivity.
    + apply (Hfwd (Call.dynamicSigner_signTypedData
                     (convertBigIntsToString domain)
                     (convertBigIntsToString message))); reflexivity.
    + exists ((info, "Signing authorization for: " ++ tmpl (or_else ca ad))
              :: cs),
        (EvConsoleLog ("[INFO] Signing authorization for: "
                       ++ tmpl (or_else ca ad))
         :: EvCall (Call.dynamicSigner_signAuthorization (or_else ca ad)
                      chain nonce) answer
         :: t).
      split.
      * intros c o [H|[H|H]];
          [discriminate H|injection H as <- _; reflexivity
          |now apply (Ht c o)].
      * intro st. unfold RhinestoneTest.serve; fold RhinestoneTest.serve.
        unfold RhinestoneTest.eoaAccount. cbn. rewrite IH.
        unfold after. cbn. rewrite <- app_assoc, <- plus_n_Sm. reflexivity.
Qed.

Ltac in_split H :=
  simpl in H;
  repeat first
    [ match type of H with
      | _ \/ _ => destruct H as [H|H]; [try discriminate H|]
      end
    | match type of H with
      | In _ (_ ++ _) =>
          apply in_app_or in H; destruct H as [H|H]; simpl in H
      end ];
  try contradiction.

Lemma RhinestoneTest_prepare_failure clk ra sig0 st sig e :
  In (EvCall (Call.prepareTransaction sig) (Rejected e))
     (events (RhinestoneTest.prepare (log clk) ra sig0 st)) ->
  let r := RhinestoneTest.prepare (log clk) ra sig0 st in
  sig = sig0
  /\ completion r = Throw e
  /\ exists t1,
      events r = (t1 ++ [EvCall (Call.prepareTransaction sig) (Rejected e)])%list
      /\ forall sig' o, ~ In (EvCall (Call.prepareTransaction sig') o) t1.
Proof.
  unfold RhinestoneTest.prepare, RhinestoneTest.sdk_call,
    completion, final, events.
  destruct (RhinestoneTest_serve_run clk
              (RhinestoneTest.requests (RhinestoneTest.prepareTransaction ra)))
    as (cs & t & Ht & E).
  cbn. destruct (RhinestoneTest.getAddress ra) as [addr|e0]; cbn;
    [|intro H; in_cases H].
  rewrite E. cbn.
  destruct (RhinestoneTest.result (RhinestoneTest.prepareTransaction ra))
    as [[]|e0]; cbn; intro H; in_split H;
    try (apply Ht in H; discriminate H).
  injection H as -> ->.
  split; [reflexivity|]. split; [reflexivity|].
  eexists (_ :: _ :: t). split; [reflexivity|].
  intros sig' o [H|[H|H]]; try discriminate H.
  apply Ht in H. discriminate H.
Qed.

Lemma RhinestoneTest_steps_prepare_failure (w : RhinestoneTest.World)
    (st : State) sig e :
  In (EvCall (Call.prepareTransaction sig) (Rejected e))
     (events (RhinestoneTest.steps w st)) ->
  let r := RhinestoneTest.steps w st in
  completion r = Throw e
  /\ exists t1,
      events r = (t1 ++ [EvCall (Call.prepareTransaction sig) (Rejected e)])%list
      /\ forall sig' o, ~ In (EvCall (Call.prepareTransaction sig') o) t1.
Proof.
  unfold RhinestoneTest.steps. cbv zeta. intro H.
  rewrite events_bind in H. rewrite events_bind, completion_bind.
  pose proof (fun sig' o =>
                script_no_call (RhinestoneTest_setup_script w)
                  (Call.prepareTransaction sig') eq_refl st o) as N1.
  destruct (completion (RhinestoneTest.setup w st)) as [ra| |e0];
    [|now destruct (N1 _ _ H)..].
  apply in_app_or in H; destruct H as [H|H]; [now destruct (N1 _ _ H)|].
  set (s1 := final (RhinestoneTest.setup w st)) in *.
  rewrite events_bind in H. rewrite events_bind, completion_bind.
  pose proof (fun sig' o =>
                script_no_call
                  (RhinestoneTest_sign_init_data_script
                     (RhinestoneTest.clock w) ra)
                  (Call.prepareTransaction sig') eq_refl s1 o) as N2.
  destruct (completion (RhinestoneTest.sign_init_data
                          (log (RhinestoneTest.clock w)) ra s1))
    as [sig0| |e0]; [|now destruct (N2 _ _ H)..].
  apply in_app_or in H; destruct H as [H|H]; [now destruct (N2 _ _ H)|].
  set (s2 := final (RhinestoneTest.sign_init_data _ _ s1)) in *.
  rewrite events_bind in H. rewrite events_bind, completion_bind.
  assert (Hp : In (EvCall (Call.prepareTransaction sig) (Rejected e))
                  (events (RhinestoneTest.prepare
                             (log (RhinestoneTest.clock w)) ra sig0 s2))).
  { destruct (completion (RhinestoneTest.prepare
                            (log (RhinestoneTest.clock w)) ra sig0 s2))
      as [[]| |e0]; try exact H.
    apply in_app_or in H; destruct H as [H|H]; [exact H|]. exfalso.
    revert H.
    now apply (script_no_call (RhinestoneTest_sign_and_submit_script _ _)
                 (Call.prepareTransaction sig)). }
  destruct (@RhinestoneTest_prepare_failure _ _ _ _ _ _ Hp)
    as (-> & Hc & t1 & Ee & Hn).
  rewrite Hc, Ee. split; [reflexivity|].
  exists (events (RhinestoneTest.setup w st)
          ++ events (RhinestoneTest.sign_init_data
                       (log (RhinestoneTest.clock w)) ra s1) ++ t1)%list.
  split; [now rewrite <- !app_assoc|].
  intros sig' o Hin. apply in_app_or in Hin. destruct Hin as [Hin|Hin];
    [now destruct (N1 _ _ Hin)|].
  apply in_app_or in Hin. destruct Hin as [Hin|Hin];
    [now destruct (N2 _ _ Hin)|now destruct (Hn _ _ Hin)].
Qed.

Lemma resets_no_call v c o : ~ In (EvCall c o) (resets v).
Proof. destruct v; simpl; intuition discriminate. Qed.

(** The part of C4 that holds.  In both account-abstraction variants, once
    [prepareTransaction] has thrown, the run makes no further call of any
    kind: no transaction signing, no authorization signing, no bypass and no
    submission; it was the first and only [prepareTransaction] call; and
    when what was thrown is not [null] or [undefined] the run ends without
    throwing, its last log entry being the error line with the message. *)
Theorem prepare_failure_ends_the_run
    (v : Variant) (st : State) (sig : option string) (e : Thrown) :
  account_abstraction v = true ->
  In (EvCall (Call.prepareTransaction sig) (Rejected e))
     (events (runTest v st)) ->
  let r := runTest v st in
  exists t1 t2,
    events r
    = (t1 ++ EvCall (Call.prepareTransaction sig) (Rejected e) :: t2)%list
    /\ (forall sig' o, ~ In (EvCall (Call.prepareTransaction sig') o) t1)
    /\ (forall c o, ~ In (EvCall c o) t2)
    /\ (e <> JsNullish ->
        (completion r = Return \/ completion r = Normal tt)
        /\ exists earlier t,
            logs (final r)
            = (earlier ++ [mkLogEntry t error (prepare_failed v e)])%list).
Proof.
  intros Haa H. cbv zeta. apply run_calls in H.
  rewrite run_events, run_logs, run_completion.
  destruct v as [w|w|w]; try discriminate Haa; simpl steps in *;
    simpl entry in *.
  - destruct (@App_steps_prepare_failure _ _ _ _ H)
      as (t1 & t2 & Ee & N1 & C2 & Herr & Hnull).
    rewrite Ee.
    exists (resets (BugRepro w) ++ EvSetRunning true :: t1)%list,
      (t2 ++ match completion (App.steps w (cleared st)) with
             | Throw e0 =>
                 events (handler (BugRepro w) e0
                           (final (App.steps w (cleared st))))
             | _ => []
             end ++ [EvSetRunning false])%list.
    split; [|split; [|split]].
    + simpl. now rewrite <- !app_assoc.
    + intros sig' o Hin. in_split Hin. now apply (N1 sig' o).
    + intros c o Hin. in_split Hin.
      * revert Hin. now apply Forall_console_no_call.
      * destruct (completion (App.steps w (cleared st))) as [u| |e0];
          try contradiction.
        revert Hin. apply (handler_calls (BugRepro w)).
    + intro Hn. destruct (Herr Hn) as (Hr & earlier & t & L).
      rewrite Hr. split; [now left|]. now exists earlier, t.
  - destruct (@RhinestoneTest_steps_prepare_failure _ _ _ _ H)
      as (Hc & t1 & Ee & N1).
    rewrite Ee, Hc.
    exists (resets (EndToEnd w) ++ EvSetRunning true :: t1)%list,
      (events (handler (EndToEnd w) e
                 (final (RhinestoneTest.steps w (cleared st))))
       ++ [EvSetRunning false])%list.
    split; [|split; [|split]].
    + simpl. now rewrite <- !app_assoc.
    + intros sig' o Hin. in_split Hin. now apply (N1 sig' o).
    + intros c o Hin. in_split Hin.
      revert Hin. apply (handler_calls (EndToEnd w)).
    + intro Hn. simpl handler. unfold RhinestoneTest.failed, completion, final.
      destruct e as [m| |]; try (now destruct Hn); cbn;
        (split; [now right|]); eexists _, _; reflexivity.
Qed.

Lemma prepare_failure_ends_the_run_witness :
  exists t1 t2,
    events (runTest (EndToEnd (Demo.end_to_end (Some "key"))) Demo.initial)
    = (t1 ++ EvCall (Call.prepareTransaction None)
                    (Rejected (JsError "no route")) :: t2)%list
    /\ forall c o, ~ In (EvCall c o) t2.
Proof.
  destruct (prepare_failure_ends_the_run
              (EndToEnd (Demo.end_to_end (Some "key"))) Demo.initial
              None (JsError "no route") eq_refl)
    as (t1 & t2 & E & _ & N & _).
  - vm_compute. repeat (try (left; reflexivity); right).
  - now exists t1, t2.
Defined.

(** C4 does not hold.  In the end-to-end runner, when [prepareTransaction]
    rejects with [undefined], the [catch] clause throws on reading
    [e.message] before it has logged anything: the log has no error entry,
    nothing is written with [console.error], and the error leaves
    [runTest]. *)
Theorem nullish_prepare_rejection_is_not_logged :
  let r := runTest (EndToEnd Scenario.end_to_end_with_void_prepare)
                   Demo.initial in
  In (EvCall (Call.prepareTransaction (Some "0xfeed")) (Rejected JsNullish))
     (events r)
  /\ (forall entry, In entry (logs (final r)) -> level entry <> error)
  /\ ~ In EvConsoleError (events r)
  /\ exists e, completion r = Throw e.
Proof.
  cbv zeta.
  split; [vm_compute; repeat (try (left; reflexivity); right)|].
  split; [intros entry H;
          check_none (fun e => match level e with
                                | error => true
                                | _ => false
                                end);
          intro E; rewrite E in H; discriminate H|].
  split; [intro H;
          check_none (fun ev => match ev with
                                 | EvConsoleError => true
                                 | _ => false
                                 end);
          discriminate H|].
  exists (typeError "message"). vm_compute. reflexivity.
Qed.

(* ================================================================== *)
(** * The init signature *)
(* ================================================================== *)

Lemma events_bind_app A B (m : M A) (k : A -> M B) st :
  events (bind m k st)
  = (events (m st)
     ++ match completion (m st) with
        | Normal a => events (k a (final (m st)))
        | _ => []
        end)%list.
Proof.
  rewrite events_bind. destruct (completion (m st)); auto using app_nil_r.
Qed.

Lemma App_sign_init_data_failure clk ra st e :
  e <> JsNullish ->
  In (EvCall Call.signEip7702InitData (Rejected e))
     (events (App.sign_init_data (log clk) ra st)) ->
  let r := App.sign_init_data (log clk) ra st in
  completion r = Normal None
  /\ (exists line1 line2,
        events r = [EvConsoleLog line1;
                    EvCall Call.signEip7702InitData (Rejected e);
                    EvConsoleLog line2])
  /\ exists t0 t,
      logs (final r)
      = (logs st ++ [mkLogEntry t0 info "Step 8: Signing EIP-7702 init data...";
                     mkLogEntry t error (init_failed e)])%list.
Proof.
  unfold App.sign_init_data, completion, final, events. cbn. intro Hn.
  destruct (App.signEip7702InitData ra) as [sg|[m| |]]; cbn.
  - destruct (truthy sg && negb (tmpl sg =? "0x")); cbn; intro H; in_cases H.
  - intro H. in_cases H. injection H as <-.
    split; [reflexivity|]. split; [eexists _, _; reflexivity|].
    eexists _, _. rewrite <- app_assoc. reflexivity.
  - intro H. in_cases H. injection H as <-.
    split; [reflexivity|]. split; [eexists _, _; reflexivity|].
    eexists _, _. rewrite <- app_assoc. reflexivity.
  - intro H. in_cases H. injection H as <-. now destruct Hn.
Qed.

Lemma App_prepare_makes_the_call clk ra sig st :
  exists t2 o t3,
    events (App.prepare (log clk) ra sig st)
    = (t2 ++ EvCall (Call.prepareTransaction sig) o :: t3)%list
    /\ Forall is_console t2.
Proof.
  unfold App.prepare, events. cbn.
  destruct (App.prepareTransaction ra) as [[]|[m| |]]; cbn;
    eexists [_; _], _, _; (split; [reflexivity|repeat constructor]).
Qed.

Lemma App_after_init_script clock ctx sig :
  script clock (among any_call true)
    (App.prepare (log clock) (App.rhinestoneAccount ctx) sig ;;
     signAuthFailed <- App.critical_test (log clock) (App.rhinestoneAccount ctx) ;;
     App.try_workaround (log clock) ctx signAuthFailed ;;
     App.capabilities (log clock) (App.wallet ctx)).
Proof.
  apply script_bind; [apply (script_any (App_prepare_script _ _ _))|intros _].
  apply script_bind;
    [apply (script_any (App_critical_test_script _ _))|intro failed].
  apply script_bind;
    [apply (script_any (App_try_workaround_script _ _ _))|intros _].
  apply (script_any (App_capabilities_script _ _)).
Qed.

Lemma App_steps_init_failure (w : App.World) (st : State) (e : Thrown) :
  e <> JsNullish ->
  In (EvCall Call.signEip7702InitData (Rejected e)) (events (App.steps w st)) ->
  let r := App.steps w st in
  (exists t1 t2 o t3,
      events r
      = (t1 ++ EvCall Call.signEip7702InitData (Rejected e)
            :: t2 ++ EvCall (Call.prepareTransaction None) o :: t3)%list
      /\ Forall is_console t2)
  /\ exists before t after,
      logs (final r)
      = (logs st ++ before ++ mkLogEntry t error (init_failed e) :: after)%list.
Proof.
  unfold App.steps. cbv zeta. intros Hn H.
  rewrite events_bind in H. rewrite events_bind, final_bind.
  pose proof (script_no_call (App_setup_script w)
                Call.signEip7702InitData eq_refl st (Rejected e)) as N1.
  destruct (script_appends (App_setup_script w) st) as [l1 L1].
  destruct (completion (App.setup w st)) as [ctx| |e0]; [|contradiction..].
  apply in_app_or in H; destruct H as [H|H]; [contradiction|].
  set (s1 := final (App.setup w st)) in *.
  rewrite events_bind in H. rewrite events_bind, final_bind.
  assert (Hi : In (EvCall Call.signEip7702InitData (Rejected e))
                  (events (App.sign_init_data (log (App.clock w))
                             (App.rhinestoneAccount ctx) s1))).
  { destruct (completion (App.sign_init_data (log (App.clock w))
                            (App.rhinestoneAccount ctx) s1)) as [sig| |e0];
      try exact H.
    apply in_app_or in H; destruct H as [H|H]; [exact H|]. exfalso.
    rewrite events_bind in H.
    match type of H with
    | In _ (match completion (?m ?s) with _ => _ end) =>
        pose proof (script_no_call
                      (App_prepare_script (App.clock w)
                         (App.rhinestoneAccount ctx) sig)
                      Call.signEip7702InitData eq_refl s (Rejected e)) as N3;
        destruct (completion (m s)) as [[]| |e0]; try contradiction
    end.
    apply in_app_or in H; destruct H as [H|H]; [contradiction|].
    rewrite events_bind in H.
    match type of H with
    | In _ (match completion (?m ?s) with _ => _ end) =>
        pose proof (script_no_call
                      (App_critical_test_script (App.clock w)
                         (App.rhinestoneAccount ctx))
                      Call.signEip7702InitData eq_refl s (Rejected e)) as N4;
        destruct (completion (m s)) as [failed| |e0]; try contradiction
    end.
    apply in_app_or in H; destruct H as [H|H]; [contradiction|].
    rewrite events_bind in H.
    match type of H with
    | In _ (match completion (?m ?s) with _ => _ end) =>
        pose proof (script_no_call
                      (App_try_workaround_script (App.clock w) ctx failed)
                      Call.signEip7702InitData eq_refl s (Rejected e)) as N5;
        destruct (completion (m s)); try contradiction
    end.
    apply in_app_or in H; destruct H as [H|H]; [contradiction|].
    revert H.
    now apply (script_no_call (App_capabilities_script _ _)
                 Call.signEip7702InitData). }
  destruct (App_sign_init_data_failure _ _ _ Hn Hi)
    as (Hc & (line1 & line2 & Ee) & t0 & t & L2).
  rewrite Hc, Ee. clear H Hi.
  set (s2 := final (App.sign_init_data _ _ s1)) in *.
  destruct (script_appends (App_after_init_script (App.clock w) ctx None) s2)
    as [l3 L3].
  split.
  - rewrite events_bind_app.
    destruct (App_prepare_makes_the_call (App.clock w) (App.rhinestoneAccount ctx)
                None s2) as (t2 & o & t3 & Ep & Hcons).
    rewrite Ep.
    exists (events (App.setup w st) ++ [EvConsoleLog line1])%list,
      (EvConsoleLog line2 :: t2), o.
    eexists. split; [|constructor; [exact I|exact Hcons]].
    rewrite <- !app_assoc. cbn [app]. reflexivity.
  - rewrite L3, L2, L1.
    exists (l1 ++ [mkLogEntry t0 info "Step 8: Signing EIP-7702 init data..."])%list,
      t, l3.
    rewrite <- !app_assoc. reflexivity.
Qed.

Lemma RhinestoneTest_setup_normal w st ra :
  completion (RhinestoneTest.setup w st) = Normal ra ->
  exists a, RhinestoneTest.getAddress ra = Ok a.
Proof.
  destruct w as [clk key wallet ta sdk ca].
  unfold RhinestoneTest.setup, RhinestoneTest.sdk_call, completion. cbn.
  destruct (RhinestoneTest_serve_run clk (RhinestoneTest.requests ca))
    as (cs & t & Ht & E).
  destruct wallet as [[addr conn gwc]|]; cbn; [|discriminate].
  destruct conn as [[nm sup nets gn sn sa gaa gs hwc hpk]|]; cbn;
    [|discriminate].
  destruct sa as [sa|]; cbn; [|discriminate].
  destruct gs as [gs|]; cbn; [|discriminate].
  destruct sa as [[]|e]; cbn; [|discriminate].
  destruct gs as [signer|e]; cbn; [|discriminate].
  destruct signer as [[acct [sg|]]|]; cbn; [|discriminate..].
  destruct ta as [[]|e]; cbn; [|discriminate].
  destruct (truthy key); cbn; [|discriminate].
  destruct sdk as [[]|e]; cbn; [|discriminate].
  rewrite E. cbn.
  destruct (RhinestoneTest.result ca) as [acc|e]; cbn; [|discriminate].
  destruct (RhinestoneTest.getAddress acc) as [a|e] eqn:Ea; cbn;
    [|discriminate].
  intros [= <-]. now exists a.
Qed.

Lemma RhinestoneTest_sign_init_data_failure clk ra st e :
  e <> JsNullish ->
  In (EvCall Call.signEip7702InitData (Rejected e))
     (events (RhinestoneTest.sign_init_data (log clk) ra st)) ->
  let r := RhinestoneTest.sign_init_data (log clk) ra st in
  completion r = Normal None
  /\ (exists t1 line,
        events r = (t1 ++ [EvCall Call.signEip7702InitData (Rejected e);
                           EvConsoleLog line])%list)
  /\ exists l t,
      logs (final r)
      = (logs st ++ l ++ [mkLogEntry t error (init_failed e)])%list.
Proof.
  unfold RhinestoneTest.sign_init_data, RhinestoneTest.sdk_call,
    completion, final, events. intro Hn.
  destruct (RhinestoneTest_serve_run clk
              (RhinestoneTest.requests (RhinestoneTest.signEip7702InitData ra)))
    as (cs & t & Ht & E).
  cbn. rewrite E. cbn.
  destruct (RhinestoneTest.result (RhinestoneTest.signEip7702InitData ra))
    as [sg|[m| |]]; cbn; intro H; in_split H;
    try (apply Ht in H; discriminate H); injection H as <-;
    try (now destruct Hn).
  all: split; [reflexivity|]; split;
    [eexists (_ :: t), _; cbn; rewrite <- app_assoc; reflexivity|].
  all: eexists (_ :: stamp clk _ cs), _; rewrite <- !app_assoc; reflexivity.
Qed.

Lemma RhinestoneTest_prepare_makes_the_call clk ra sig st a :
  RhinestoneTest.getAddress ra = Ok a ->
  exists t2 o t3,
    events (RhinestoneTest.prepare (log clk) ra sig st)
    = (t2 ++ EvCall (Call.prepareTransaction sig) o :: t3)%list
    /\ forall c o', In (EvCall c o') t2 -> between_sdk_calls c = true.
Proof.
  unfold RhinestoneTest.prepare, RhinestoneTest.sdk_call, events. intro Ha.
  destruct (RhinestoneTest_serve_run clk
              (RhinestoneTest.requests (RhinestoneTest.prepareTransaction ra)))
    as (cs & t & Ht & E).
  cbn. rewrite Ha. cbn. rewrite E. cbn.
  assert (Hbetween : forall c o',
             In (EvCall c o')
                (EvConsoleLog "[INFO] Preparing transaction..."
                 :: EvCall Call.getAddress Returned :: t) ->
             between_sdk_calls c = true).
  { intros c o' [H|[H|H]]; [discriminate H|injection H as <- _; reflexivity|].
    apply Ht in H. unfold between_sdk_calls. now destruct c. }
  destruct (RhinestoneTest.result (RhinestoneTest.prepareTransaction ra))
    as [[]|e]; cbn;
    eexists (_ :: _ :: t), _, _; (split; [|exact Hbetween]);
    cbn; rewrite <- ?app_assoc; reflexivity.
Qed.

Lemma RhinestoneTest_after_init_script clock ra sig :
  script clock (among any_call true)
    (RhinestoneTest.prepare (log clock) ra sig ;;
     RhinestoneTest.sign_and_submit (log clock) ra).
Proof.
  apply script_bind;
    [apply (script_any (RhinestoneTest_prepare_script _ _ _))|intros _].
  apply (script_any (RhinestoneTest_sign_and_submit_script _ _)).
Qed.

Lemma RhinestoneTest_steps_init_failure (w : RhinestoneTest.World)
    (st : State) (e : Thrown) :
  e <> JsNullish ->
  In (EvCall Call.signEip7702InitData (Rejected e))
     (events (RhinestoneTest.steps w st)) ->
  let r := RhinestoneTest.steps w st in
  (exists t1 t2 o t3,
      events r
      = (t1 ++ EvCall Call.signEip7702InitData (Rejected e)
            :: t2 ++ EvCall (Call.prepareTransaction None) o :: t3)%list
      /\ forall c o', In (EvCall c o') t2 -> between_sdk_calls c = true)
  /\ exists before t after,
      logs (final r)
      = (logs st ++ before ++ mkLogEntry t error (init_failed e) :: after)%list.
Proof.
  unfold RhinestoneTest.steps. cbv zeta. intros Hn H.
  rewrite events_bind in H. rewrite events_bind, final_bind.
  pose proof (script_no_call (RhinestoneTest_setup_script w)
                Call.signEip7702InitData eq_refl st (Rejected e)) as N1.
  destruct (script_appends (RhinestoneTest_setup_script w) st) as [l1 L1].
  pose proof (@RhinestoneTest_setup_normal w st) as Hget.
  destruct (completion (RhinestoneTest.setup w st)) as [ra| |e0];
    [|contradiction..].
  destruct (Hget ra eq_refl) as [a Ha]. clear Hget.
  apply in_app_or in H; destruct H as [H|H]; [contradiction|].
  set (s1 := final (RhinestoneTest.setup w st)) in *.
  rewrite events_bind in H. rewrite events_bind, final_bind.
  assert (Hi : In (EvCall Call.signEip7702InitData (Rejected e))
                  (events (RhinestoneTest.sign_init_data
                             (log (RhinestoneTest.clock w)) ra s1))).
  { destruct (completion (RhinestoneTest.sign_init_data
                            (log (RhinestoneTest.clock w)) ra s1))
      as [sig| |e0]; try exact H.
    apply in_app_or in H; destruct H as [H|H]; [exact H|]. exfalso.
    rewrite events_bind in H.
    match type of H with
    | In _ (match completion (?m ?s) with _ => _ end) =>
        pose proof (script_no_call
                      (RhinestoneTest_prepare_script
                         (RhinestoneTest.clock w) ra sig)
                      Call.signEip7702InitData eq_refl s (Rejected e)) as N3;
        destruct (completion (m s)) as [[]| |e0]; try contradiction
    end.
    apply in_app_or in H; destruct H as [H|H]; [contradiction|].
    revert H.
    now apply (script_no_call (RhinestoneTest_sign_and_submit_script _ _)
                 Call.signEip7702InitData). }
  destruct (RhinestoneTest_sign_init_data_failure _ _ _ Hn Hi)
    as (Hc & (t1 & line & Ee) & l2 & t & L2).
  rewrite Hc, Ee. clear H Hi.
  set (s2 := final (RhinestoneTest.sign_init_data _ _ s1)) in *.
  destruct (script_appends
              (RhinestoneTest_after_init_script (RhinestoneTest.clock w)
                 ra None) s2) as [l3 L3].
  split.
  - rewrite events_bind_app.
    destruct (RhinestoneTest_prepare_makes_the_call (RhinestoneTest.clock w)
                ra None s2 Ha) as (t2 & o & t3 & Ep & Hb).
    rewrite Ep.
    exists (events (RhinestoneTest.setup w st) ++ t1)%list,
      (EvConsoleLog line :: t2), o.
    eexists. split.
    + rewrite <- !app_assoc. cbn [app]. reflexivity.
    + intros c o' [Hin|Hin]; [discriminate Hin|now apply (Hb c o')].
  - rewrite L3, L2, L1. exists (l1 ++ l2)%list, t, l3.
    rewrite <- !app_assoc. reflexivity.
Qed.

Lemma entry_logs v st : logs (entry v st) = [].
Proof. now destruct v. Qed.

(** The part of C3 that holds.  In both account-abstraction variants, when
    [signEip7702InitData] throws something other than [null] or
    [undefined], the run goes on: the error line with the message is logged,
    and [prepareTransaction] is then called with no init signature; between
    the two calls the runner calls nothing of the SDK but the address
    getter, and serves the owner-account requests. *)
Theorem init_signature_failure_is_soft
    (v : Variant) (st : State) (e : Thrown) :
  account_abstraction v = true ->
  e <> JsNullish ->
  In (EvCall Call.signEip7702InitData (Rejected e)) (events (runTest v st)) ->
  let r := runTest v st in
  (exists t1 t2 o t3,
      events r
      = (t1 ++ EvCall Call.signEip7702InitData (Rejected e)
            :: t2 ++ EvCall (Call.prepareTransaction None) o :: t3)%list
      /\ forall c o', In (EvCall c o') t2 -> between_sdk_calls c = true)
  /\ exists before t after,
      logs (final r)
      = (before ++ mkLogEntry t error (init_failed e) :: after)%list.
Proof.
  intros Haa Hn H. cbv zeta. apply run_calls in H.
  assert (Hsteps :
            (exists t1 t2 o t3,
                events (steps v (entry v st))
                = (t1 ++ EvCall Call.signEip7702InitData (Rejected e)
                      :: t2 ++ EvCall (Call.prepareTransaction None) o
                      :: t3)%list
                /\ forall c o', In (EvCall c o') t2 ->
                                between_sdk_calls c = true)
            /\ exists before t after,
                logs (final (steps v (entry v st)))
                = (logs (entry v st) ++ before
                   ++ mkLogEntry t error (init_failed e) :: after)%list).
  { destruct v as [w|w|w]; try discriminate Haa.
    - destruct (@App_steps_init_failure w (cleared st) e Hn H)
        as [(t1 & t2 & o & t3 & Ee & Hc) Hl].
      split; [|exact Hl]. exists t1, t2, o, t3. split; [exact Ee|].
      intros c o' Hin. exfalso. revert Hin.
      now apply Forall_console_no_call.
    - exact (@RhinestoneTest_steps_init_failure w (cleared st) e Hn H). }
  destruct Hsteps as [(t1 & t2 & o & t3 & Ee & Hb)
                        (before & t & after & L)].
  rewrite entry_logs in L. cbn [app] in L.
  split.
  - rewrite run_events, Ee.
    exists (resets v ++ EvSetRunning true :: t1)%list, t2, o.
    eexists. split; [|exact Hb].
    rewrite <- !app_assoc. cbn [app]. rewrite <- !app_assoc. cbn [app].
    reflexivity.
  - rewrite run_logs.
    destruct (completion (steps v (entry v st))) as [u| |e0].
    1,2: now exists before, t, after.
    destruct (script_appends (handler_script v e0)
                (final (steps v (entry v st)))) as [l Lh].
    rewrite Lh, L. exists before, t, (after ++ l)%list.
    now rewrite <- app_assoc.
Qed.

Lemma init_signature_failure_is_soft_witness :
  (exists t1 t2 o t3,
      events (runTest (BugRepro (Demo.app [8453%Z] Demo.account))
                      Demo.initial)
      = (t1 ++ EvCall Call.signEip7702InitData
                      (Rejected (JsError "init data rejected"))
            :: t2 ++ EvCall (Call.prepareTransaction None) o :: t3)%list)
  /\ (exists t1 t2 o t3,
         events (runTest (EndToEnd (Demo.end_to_end (Some "key")))
                         Demo.initial)
         = (t1 ++ EvCall Call.signEip7702InitData
                         (Rejected (JsError "init data rejected"))
               :: t2 ++ EvCall (Call.prepareTransaction None) o :: t3)%list).
Proof.
  split.
  - destruct (init_signature_failure_is_soft
                (BugRepro (Demo.app [8453%Z] Demo.account)) Demo.initial
                (e := JsError "init data rejected") eq_refl)
      as [(t1 & t2 & o & t3 & E & _) _].
    + discriminate.
    + vm_compute. repeat (try (left; reflexivity); right).
    + now exists t1, t2, o, t3.
  - destruct (init_signature_failure_is_soft
                (EndToEnd (Demo.end_to_end (Some "key"))) Demo.initial
                (e := JsError "init data rejected") eq_refl)
      as [(t1 & t2 & o & t3 & E & _) _].
    + discriminate.
    + vm_compute. repeat (try (left; reflexivity); right).
    + now exists t1, t2, o, t3.
Defined.

(** C3 does not hold.  In both account-abstraction variants, when
    [signEip7702InitData] rejects with [undefined], the [catch] clause
    around it throws on reading [e.message]: the line for the failed init
    signature is not logged, the run ends in the outer [catch] clause, whose
    error line is the last entry of the log, and [prepareTransaction] is not
    called. *)
Theorem nullish_init_rejection_stops_the_run :
  (let v := BugRepro Scenario.app_with_void_init in
   let r := runTest v Demo.initial in
   In (EvCall Call.signEip7702InitData (Rejected JsNullish)) (events r)
   /\ (forall sig o, ~ In (EvCall (Call.prepareTransaction sig) o) (events r))
   /\ (forall entry, In entry (logs (final r)) ->
                     msg entry <> init_failed JsNullish)
   /\ exists earlier t m,
        logs (final r)
        = (earlier ++ [mkLogEntry t error (handler_prefix v ++ m)])%list)
  /\ (let v := EndToEnd Scenario.end_to_end_with_void_init in
      let r := runTest v Demo.initial in
      In (EvCall Call.signEip7702InitData (Rejected JsNullish)) (events r)
      /\ (forall sig o,
             ~ In (EvCall (Call.prepareTransaction sig) o) (events r))
      /\ (forall entry, In entry (logs (final r)) ->
                        msg entry <> init_failed JsNullish)
      /\ exists earlier t m,
           logs (final r)
           = (earlier ++ [mkLogEntry t error (handler_prefix v ++ m)])%list).
Proof.
  cbv zeta.
  split;
    (split; [vm_compute; repeat (try (left; reflexivity); right)|];
     split; [intros sig o H;
             check_none (fun ev => match ev with
                                    | EvCall (Call.prepareTransaction _) _ =>
                                        true
                                    | _ => false
                                    end);
             discriminate H|];
     split; [intros entry H;
             check_none (fun e => msg e =? init_failed JsNullish);
             now apply String.eqb_neq|];
     match goal with
     | |- exists earlier t m, ?L = _ =>
         exists (removelast L), "10:00:07",
                (tmpl (message_of (typeError "message")))
     end;
     vm_compute; reflexivity).
Qed.

(* ================================================================== *)
(** * The stored authorization *)
(* ================================================================== *)

(** A block that may not store leaves [lastAuthorization] and
    [contractAddress] as they were. *)
Lemma script_frame clk cs A (m : M A) :
  script clk (among cs false) m ->
  forall st,
    lastAuthorization (final (m st)) = lastAuthorization st
    /\ contractAddress (final (m st)) = contractAddress st
    /\ forall a, ~ In (EvSetLastAuthorization a) (events (m st)).
Proof.
  intros H st.
  destruct (script_normal_form H (contractAddress st))
    as (c & cs' & la & t & Hla & E).
  pose proof (script_events H st) as Hev.
  rewrite (E st eq_refl) in *. unfold final, events in *. simpl in *.
  assert (Hno : forall a, ~ In (EvSetLastAuthorization a) t).
  { intros a Hin. destruct (Hev _ Hin) as [F|F]; [exact F|].
    destruct a; [discriminate F|exact F]. }
  destruct la as [a|].
  - now destruct (Hno (Some a) (Hla a eq_refl)).
  - auto.
Qed.

Arguments Eip7702Test.identify : simpl never.
Arguments Eip7702Test.check_network : simpl never.
Arguments Eip7702Test.activate : simpl never.
Arguments Eip7702Test.sign : simpl never.

Lemma Eip7702Test_sign_run clk connector st :
  let r := Eip7702Test.sign (log clk) connector st in
  (lastAuthorization (final r) = lastAuthorization st
   /\ forall a, ~ In (EvSetLastAuthorization a) (events r))
  \/ exists a,
      stores_after_signing (contractAddress st) (events r) a
      /\ lastAuthorization (final r) = Some a.
Proof.
  unfold Eip7702Test.sign, stores_after_signing, final, events. cbn.
  destruct (Connector.getSigner connector) as [[[[acct sg]|]|e]|]; cbn.
  2-4: left; split; [reflexivity|intros a H; in_cases H].
  destruct sg as [[[a|]|e]|]; cbn.
  2-4: left; split; [reflexivity|intros a H; in_cases H].
  right. exists a. split; [|reflexivity].
  eexists [_; _; _; _; _], _. split; [reflexivity|]. split.
  - cbn. repeat (try (left; reflexivity); right).
  - intros a' H. in_cases H. now injection H as <-.
Qed.

Lemma stores_after_signing_prefix address t0 t a :
  (forall a', ~ In (EvSetLastAuthorization a') t0) ->
  stores_after_signing address t a ->
  stores_after_signing address (t0 ++ t) a.
Proof.
  intros Hno (t1 & t2 & E & Hin & Hall).
  exists (t0 ++ t1)%list, t2. split; [now rewrite E, <- app_assoc|].
  split; [exact Hin|].
  intros a' H. apply in_app_or in H. destruct H as [H|H].
  - now destruct (Hno a').
  - now apply Hall.
Qed.

Lemma stores_after_signing_suffix address t t3 a :
  (forall a', ~ In (EvSetLastAuthorization a') t3) ->
  stores_after_signing address t a ->
  stores_after_signing address (t ++ t3) a.
Proof.
  intros Hno (t1 & t2 & E & Hin & Hall).
  exists t1, (t2 ++ t3)%list. split; [now rewrite E, <- app_assoc|].
  split; [apply in_or_app; now left|].
  intros a' H. apply in_app_or in H. destruct H as [H|H].
  - now apply Hall.
  - now destruct (Hno a').
Qed.

Lemma Eip7702Test_steps_run (w : Eip7702Test.World) (st : State) :
  let r := Eip7702Test.steps w st in
  (lastAuthorization (final r) = lastAuthorization st
   /\ forall a, ~ In (EvSetLastAuthorization a) (events r))
  \/ exists a,
      stores_after_signing (contractAddress st) (events r) a
      /\ lastAuthorization (final r) = Some a.
Proof.
  unfold Eip7702Test.steps. cbv zeta.
  rewrite events_bind_app, final_bind.
  destruct (script_frame (Eip7702Test_identify_script w) st)
    as (F1 & A1 & N1).
  destruct (completion (Eip7702Test.identify w st)) as [found| |e];
    [|left; rewrite app_nil_r; auto..].
  set (s1 := final (Eip7702Test.identify w st)) in *.
  rewrite events_bind_app, final_bind.
  destruct (script_frame
              (Eip7702Test_check_network_script (Eip7702Test.clock w)
                 (snd found)) s1) as (F2 & A2 & N2).
  destruct (completion (Eip7702Test.check_network
                          (log (Eip7702Test.clock w)) (snd found) s1))
    as [[]| |e].
  2,3: left; rewrite app_nil_r; split; [congruence|];
    intros a H; apply in_app_or in H; destruct H as [H|H];
    [now apply (N1 a)|now apply (N2 a)].
  set (s2 := final (Eip7702Test.check_network _ _ s1)) in *.
  rewrite events_bind_app, final_bind.
  destruct (script_frame
              (Eip7702Test_activate_script (Eip7702Test.clock w)
                 (fst found) (snd found)) s2) as (F3 & A3 & N3).
  destruct (completion (Eip7702Test.activate
                          (log (Eip7702Test.clock w)) (fst found)
                          (snd found) s2)) as [[]| |e].
  2,3: left; rewrite app_nil_r; split; [congruence|];
    intros a H; apply in_app_or in H; destruct H as [H|H];
    [now apply (N1 a)|];
    apply in_app_or in H; destruct H as [H|H];
    [now apply (N2 a)|now apply (N3 a)].
  set (s3 := final (Eip7702Test.activate _ _ _ s2)) in *.
  destruct (Eip7702Test_sign_run (Eip7702Test.clock w) (snd found) s3)
    as [[F4 N4]|(a & S4 & F4)].
  - left. split; [congruence|].
    intros a H. apply in_app_or in H; destruct H as [H|H];
      [now apply (N1 a)|].
    apply in_app_or in H; destruct H as [H|H]; [now apply (N2 a)|].
    apply in_app_or in H; destruct H as [H|H];
      [now apply (N3 a)|now apply (N4 a)].
  - right. exists a. split; [|exact F4].
    replace (contractAddress st) with (contractAddress s3) by congruence.
    now repeat apply stores_after_signing_prefix.
Qed.

Lemma run_panel (w : Eip7702Test.World) (st : State) :
  Eip7702Test.panel (final (runTest (DirectSigning w) st))
  = lastAuthorization (final (Eip7702Test.steps w (cleared_all st))).
Proof.
  rewrite runTest_shape. unfold Eip7702Test.panel, guarded, final. cbn.
  destruct (Eip7702Test.steps w (cleared_all st)) as [[[u| |e] s1] t1]; cbn;
    try reflexivity.
  destruct (script_frame (handler_script (DirectSigning w) e) s1)
    as (F & _ & _).
  unfold final in F. cbn in F.
  destruct (Eip7702Test.failed w e s1) as [[c2 s2] t2]. exact F.
Qed.

Lemma run_tail_stores (v : Variant) (st : State) a :
  ~ In (EvSetLastAuthorization a)
       (match completion (steps v (entry v st)) with
        | Throw e => events (handler v e (final (steps v (entry v st))))
        | _ => []
        end ++ [EvSetRunning false]).
Proof.
  intro H. apply in_app_or in H. destruct H as [H|H]; [|in_cases H].
  destruct (completion (steps v (entry v st))) as [u| |e]; try easy.
  destruct (script_frame (handler_script v e) (final (steps v (entry v st))))
    as (_ & _ & N).
  now apply (N a).
Qed.

(** C10.  In the direct-signing variant a run first clears
    [lastAuthorization] (after the log, before the flag is raised and before
    any step) and never clears it again; it stores an authorization only
    after the signing call of this very run has returned, and then the panel
    shows that authorization; whatever the panel shows was stored in this
    run; and a run in which no signing call returned leaves the panel empty,
    whatever an earlier run had left there. *)
Theorem last_authorization_is_fresh (w : Eip7702Test.World) (st : State) :
  let r := runTest (DirectSigning w) st in
  (exists rest,
      events r = EvSetLogs [] :: EvSetLastAuthorization None
                   :: EvSetRunning true :: rest
      /\ ~ In (EvSetLastAuthorization None) rest)
  /\ (forall a, In (EvSetLastAuthorization (Some a)) (events r) ->
                exists t1 t2,
                  events r
                  = (t1 ++ EvCall (Call.signer_signAuthorization
                                     (contractAddress st) base_id) Returned
                        :: t2)%list
                  /\ In (EvSetLastAuthorization (Some a)) t2
                  /\ Eip7702Test.panel (final r) = Some a)
  /\ (forall a, Eip7702Test.panel (final r) = Some a ->
                In (EvSetLastAuthorization (Some a)) (events r))
  /\ ((forall address chain,
          ~ In (EvCall (Call.signer_signAuthorization address chain) Returned)
               (events r)) ->
      Eip7702Test.panel (final r) = None).
Proof.
  cbv zeta. rewrite run_panel, run_events.
  pose proof (run_tail_stores (DirectSigning w) st) as Htail.
  change (steps (DirectSigning w)) with (Eip7702Test.steps w) in *.
  change (entry (DirectSigning w) st) with (cleared_all st) in *.
  change (resets (DirectSigning w))
    with [EvSetLogs []; EvSetLastAuthorization None].
  set (tail := (match completion (Eip7702Test.steps w (cleared_all st)) with
                | Throw e => _
                | _ => []
                end ++ [EvSetRunning false])%list) in *.
  cbn [app].
  destruct (Eip7702Test_steps_run w (cleared_all st))
    as [[F N]|(a & (t1 & t2 & E & Hin & Hall) & F)].
  - (* nothing is stored in this run *)
    assert (Hno : forall a,
               ~ In (EvSetLastAuthorization a)
                    (events (Eip7702Test.steps w (cleared_all st)) ++ tail)).
    { intros a H. apply in_app_or in H. destruct H as [H|H];
        [now apply (N a)|now apply (Htail a)]. }
    rewrite F. cbn [cleared_all lastAuthorization].
    split; [|split; [|split]].
    + eexists. split; [reflexivity|apply Hno].
    + intros a [H|[H|[H|H]]]; try discriminate H. now destruct (Hno _ H).
    + discriminate.
    + reflexivity.
  - (* the authorization [a] is stored *)
    rewrite F, E.
    split; [|split; [|split]].
    + eexists. split; [reflexivity|].
      intro H. apply in_app_or in H. destruct H as [H|H].
      * rewrite <- E in H. apply Hall in H. discriminate H.
      * now apply (Htail None).
    + intros a0 [H|[H|[H|H]]]; try discriminate H.
      assert (a0 = a) as ->.
      { apply in_app_or in H. destruct H as [H|H].
        - rewrite <- E in H. apply Hall in H. now injection H.
        - now destruct (Htail _ H). }
      exists (EvSetLogs [] :: EvSetLastAuthorization None
              :: EvSetRunning true :: t1), (t2 ++ tail)%list.
      split; [cbn [app]; now rewrite <- app_assoc|].
      split; [apply in_or_app; now left|reflexivity].
    + intros a0 [= <-]. right. right. right.
      apply in_or_app. left. apply in_or_app. right. now right.
    + intro Hnone. exfalso.
      apply (Hnone (contractAddress st) base_id).
      right. right. right. apply in_or_app. left.
      apply in_or_app. right. now left.
Qed.

Lemma last_authorization_is_fresh_witness :
  Eip7702Test.panel
    (final (runTest (DirectSigning (Demo.direct [1%Z]))
              (mkState [] false Demo.delegate (Some Demo.authorization) 5)))
  = None.
Proof.
  apply (last_authorization_is_fresh (Demo.direct [1%Z])
           (mkState [] false Demo.delegate (Some Demo.authorization) 5)).
  intros address chain H. vm_compute in H.
  repeat (destruct H as [H|H]; [discriminate H|]). exact H.
Defined.

(* ================================================================== *)
(** * The bypass *)
(* ================================================================== *)

Lemma drop_empty n : drop n EmptyString = EmptyString.
Proof. now destruct n. Qed.

Lemma scan_addresses_skip s :
  forall skip, scan_addresses skip s = match_addresses (drop skip s).
Proof.
  induction s as [|c rest IH]; intros [|k]; simpl; try reflexivity.
  apply IH.
Qed.

Lemma match_addresses_step c rest :
  match_addresses (String c rest)
  = if address_at (String c rest)
    then substring 0 42 (String c rest) :: match_addresses (drop 41 rest)
    else match_addresses rest.
Proof.
  unfold match_addresses at 1. cbn [scan_addresses].
  now rewrite scan_addresses_skip.
Qed.

(** The matches of a global regular expression: the leftmost match, then
    the matches of what follows it. *)
Lemma match_addresses_spec s :
  (match_addresses s = [] /\ forall p, pattern_at p s = false)
  \/ exists p,
      (forall q, q < p -> pattern_at q s = false)
      /\ pattern_at p s = true
      /\ match_addresses s
         = substring p 42 s :: match_addresses (drop (p + 42) s).
Proof.
  induction s as [|c rest IH].
  - left. split; [reflexivity|]. intro p. unfold pattern_at.
    now rewrite drop_empty.
  - rewrite match_addresses_step.
    destruct (address_at (String c rest)) eqn:Ea.
    + right. exists 0. split; [lia|]. split; [exact Ea|reflexivity].
    + destruct IH as [[E Hno]|(p & Hbefore & Hp & E)].
      * left. split; [exact E|]. intros [|q]; [exact Ea|apply Hno].
      * right. exists (S p). split; [|split].
        -- intros [|q] Hq; [exact Ea|apply Hbefore; lia].
        -- exact Hp.
        -- exact E.
Qed.

Lemma scan_addresses_sound s :
  forall skip x,
    In x (scan_addresses skip s) ->
    exists p, skip <= p /\ pattern_at p s = true /\ x = substring p 42 s.
Proof.
  induction s as [|c rest IH]; intros skip x H; [destruct H|].
  destruct skip as [|k]; cbn [scan_addresses] in H.
  - destruct (address_at (String c rest)) eqn:Ea.
    + destruct H as [<-|H].
      * exists 0. auto.
      * destruct (IH _ _ H) as (p & _ & Hp & ->). exists (S p).
        split; [lia|]. auto.
    + destruct (IH _ _ H) as (p & _ & Hp & ->). exists (S p).
      split; [lia|]. auto.
  - destruct (IH _ _ H) as (p & Hle & Hp & ->). exists (S p).
    split; [lia|]. auto.
Qed.

Lemma substring_drop p n s : substring p n s = substring 0 n (drop p s).
Proof.
  revert s. induction p as [|p IH]; intros [|c rest]; simpl; auto;
    now destruct n.
Qed.

Lemma hex_run_prefix n : forall s,
  hex_run n s = true ->
  String.length (substring 0 n s) = n /\ hex_run n (substring 0 n s) = true.
Proof.
  induction n as [|n IH]; intros [|c rest] H; simpl in *; try discriminate;
    auto.
  apply andb_prop in H. destruct H as [Hc Hr].
  destruct (IH _ Hr) as [L R]. rewrite L, Hc, R. auto.
Qed.

Lemma pattern_shape p s :
  pattern_at p s = true ->
  String.length (substring p 42 s) = 42
  /\ address_at (substring p 42 s) = true.
Proof.
  unfold pattern_at. rewrite substring_drop.
  destruct (drop p s) as [|a [|b rest]]; try discriminate.
  - simpl. destruct a as [[] [] [] [] [] [] [] []]; discriminate.
  - intro H.
    assert (a = "0"%char /\ b = "x"%char /\ hex_run 40 rest = true)
      as (-> & -> & Hr).
    { unfold address_at in H.
      destruct a as [[] [] [] [] [] [] [] []]; try discriminate H.
      destruct b as [[] [] [] [] [] [] [] []]; try discriminate H.
      auto. }
    destruct (hex_run_prefix 40 rest Hr) as [L R].
    change (substring 0 42 (String "0" (String "x" rest)))
      with (String "0" (String "x" (substring 0 40 rest))).
    split; [simpl; now rewrite L|exact R].
Qed.

Lemma find_first (A : Type) (f : A -> bool) (l : list A) :
  match find f l with
  | Some d => f d = true
              /\ exists earlier later,
                  l = (earlier ++ d :: later)%list
                  /\ forall x, In x earlier -> f x = false
  | None => forall x, In x l -> f x = false
  end.
Proof.
  induction l as [|a l IH]; simpl; [easy|].
  destruct (f a) eqn:Ea.
  - split; [exact Ea|]. exists [], l. split; [reflexivity|easy].
  - destruct (find f l) as [d|].
    + destruct IH as (Hd & earlier & later & -> & Hall).
      split; [exact Hd|]. exists (a :: earlier), later.
      split; [reflexivity|]. intros x [<-|H]; auto.
    + intros x [<-|H]; auto.
Qed.

Lemma delegate_candidate_spec msgStr sender :
  match App.delegate_candidate msgStr sender with
  | Some d => first_other_match msgStr sender d
  | None => forall x, In x (match_addresses msgStr) ->
                      toLowerCase x = toLowerCase sender
  end.
Proof.
  unfold App.delegate_candidate.
  pose proof (find_first
                (fun a => negb (toLowerCase a =? toLowerCase sender))
                (match_addresses msgStr)) as H.
  destruct (find _ (match_addresses msgStr)) as [d|].
  - destruct H as (Hd & earlier & later & E & Hall).
    assert (Hin : In d (match_addresses msgStr))
      by (rewrite E; apply in_or_app; right; now left).
    destruct (scan_addresses_sound _ _ _ Hin) as (p & _ & Hp & ->).
    destruct (pattern_shape _ _ Hp) as [L R].
    split; [now exists p|]. split; [exact L|]. split; [exact R|].
    split.
    + apply negb_true_iff in Hd. now apply String.eqb_neq in Hd.
    + exists earlier, later. split; [exact E|].
      intros x Hx. specialize (Hall x Hx).
      apply negb_false_iff in Hall. now apply String.eqb_eq in Hall.
  - intros x Hx. specialize (H x Hx).
    apply negb_false_iff in H. now apply String.eqb_eq in H.
Qed.

Lemma App_workaround_run clk sender ra answer st msgStr :
  App.getTransactionMessages ra = Ok msgStr ->
  let r := App.workaround (log clk) sender ra answer st in
  exists l,
    logs (final r) = (logs st ++ l)%list
    /\ bypass_outcome msgStr sender (events r) l.
Proof.
  unfold App.workaround, bypass_outcome, final, events. intro Hm.
  cbn. rewrite Hm. cbn.
  destruct (App.delegate_candidate msgStr sender) as [d|]; cbn.
  - destruct answer as [auth|[m| |]]; cbn.
    + eexists. split; [rewrite <- !app_assoc; reflexivity|].
      split; [eexists; right; right; right; right; left; reflexivity|].
      split; [intros d' o H; in_cases H; now injection H as <-|].
      intros m H. in_cases H.
    + destruct (includes m "not supported"
                || (includes m "Method not found" || false)) eqn:Eb; cbn.
      * eexists. split; [rewrite <- !app_assoc; reflexivity|].
        split; [eexists; right; right; right; right; left; reflexivity|].
        split; [intros d' o H; in_cases H; now injection H as <-|].
        intros m' H _. in_cases H. injection H as <-.
        eexists [_; _; _], _, _, []. reflexivity.
      * eexists. split; [rewrite <- !app_assoc; reflexivity|].
        split; [eexists; right; right; right; right; left; reflexivity|].
        split; [intros d' o H; in_cases H; now injection H as <-|].
        intros m' H Hi. in_cases H. injection H as <-.
        rewrite orb_false_r in Eb. congruence.
    + eexists. split; [rewrite <- !app_assoc; reflexivity|].
      split; [eexists; right; right; right; right; left; reflexivity|].
      split; [intros d' o H; in_cases H; now injection H as <-|].
      intros m H. in_cases H.
    + eexists. split; [rewrite <- !app_assoc; reflexivity|].
      split; [eexists; right; right; right; right; left; reflexivity|].
      split; [intros d' o H; in_cases H; now injection H as <-|].
      intros m H. in_cases H.
  - eexists. split; [rewrite <- !app_assoc; reflexivity|].
    split; [intros d' o H; in_cases H|].
    eexists [_; _], _, [_]. reflexivity.
Qed.

Lemma bypass_outcome_extend msgStr sender t l t0 t3 l0 l3 :
  no_bypass_signing t0 -> no_bypass_signing t3 ->
  bypass_outcome msgStr sender t l ->
  bypass_outcome msgStr sender (t0 ++ t ++ t3) (l0 ++ l ++ l3).
Proof.
  unfold bypass_outcome, no_bypass_signing. intros H0 H3.
  assert (Hin : forall d o,
             In (EvCall (Call.walletClient_signAuthorization d) o)
                (t0 ++ t ++ t3) ->
             In (EvCall (Call.walletClient_signAuthorization d) o) t).
  { intros d o H. apply in_app_or in H. destruct H as [H|H];
      [now destruct (H0 d o)|].
    apply in_app_or in H. destruct H as [H|H]; [exact H|].
    now destruct (H3 d o). }
  destruct (App.delegate_candidate msgStr sender) as [d|].
  - intros ([o Ho] & Honly & Hmark). split; [|split].
    + exists o. apply in_or_app. right. apply in_or_app. now left.
    + intros d' o' H. apply (Honly d' o'). now apply Hin.
    + intros m H Hi. destruct (Hmark m (Hin _ _ H) Hi)
        as (before & t1 & t2 & after & ->).
      exists (l0 ++ before)%list, t1, t2, (after ++ l3)%list.
      now rewrite <- !app_assoc.
  - intros (Hnone & before & t1 & after & ->). split.
    + intros d' o H. apply (Hnone d' o). now apply Hin.
    + exists (l0 ++ before)%list, t1, (after ++ l3)%list.
      rewrite <- !app_assoc. reflexivity.
Qed.

Lemma script_no_bypass clk cs stores A (m : M A) st :
  script clk (among cs stores) m ->
  (forall d, cs (Call.walletClient_signAuthorization d) = false) ->
  no_bypass_signing (events (m st)).
Proof.
  intros H Hc d o. now apply (script_no_call H).
Qed.

Lemma App_try_workaround_run clk ctx answer st msgStr :
  App.signAuthorization (App.walletClient ctx) = Some answer ->
  App.getTransactionMessages (App.rhinestoneAccount ctx) = Ok msgStr ->
  let r := App.try_workaround (log clk) ctx true st in
  exists l,
    logs (final r) = (logs st ++ l)%list
    /\ bypass_outcome msgStr (Wallet.address (App.wallet ctx)) (events r) l.
Proof.
  unfold App.try_workaround. intros Hs Hm. cbv zeta. cbn [negb].
  rewrite Hs, events_bind_app, final_bind.
  set (heading := log clk info _).
  change (completion (heading st)) with (Normal tt). cbv iota.
  destruct (@App_workaround_run clk (Wallet.address (App.wallet ctx))
              (App.rhinestoneAccount ctx) answer (final (heading st))
              msgStr Hm) as (l & L & B).
  pose (e0 := mkLogEntry (clk (clockReads st)) info
                 "Step 11: Testing walletClient.signAuthorization workaround...").
  rewrite L. exists (e0 :: l). split; [cbn; now rewrite <- app_assoc|].
  apply (@bypass_outcome_extend _ _ _ _ (events (heading st)) [] [e0] []) in B.
  - rewrite !app_nil_r in B. exact B.
  - intros d o H0. cbn in H0. in_cases H0.
  - intros d o [].
Qed.

Lemma App_setup_normal w st ctx :
  completion (App.setup w st) = Normal ctx ->
  App.primaryWallet w = Some (App.wallet ctx)
  /\ App.createWalletClient w = Ok (App.walletClient ctx)
  /\ App.createAccount w = Ok (App.rhinestoneAccount ctx).
Proof.
  destruct w as [clk key wallet cwc wcta sdk ca].
  unfold App.setup, completion. cbn.
  destruct wallet as [[addr conn gwc]|]; cbn; [|discriminate].
  destruct gwc as [[|]|e]; cbn; [|discriminate..].
  destruct cwc as [wc|e]; cbn; [|discriminate].
  destruct wcta as [ty|e]; cbn; [|discriminate].
  destruct (truthy key); cbn; [|discriminate].
  destruct sdk as [[]|e]; cbn; [|discriminate].
  destruct ca as [acc|e]; cbn; [|discriminate].
  destruct (App.getAddress acc) as [a|e]; cbn; [|discriminate].
  destruct (App.isDeployed acc) as [d|e]; cbn; [|discriminate].
  intros [= <-]. auto.
Qed.

Lemma App_critical_test_failed clk ra st m :
  In (EvCall Call.signAuthorizations (Rejected (JsError m)))
     (events (App.critical_test (log clk) ra st)) ->
  completion (App.critical_test (log clk) ra st) = Normal true.
Proof.
  unfold App.critical_test, completion, final, events. cbn.
  destruct (App.signAuthorizations ra) as [n|e]; cbn.
  - intro H. in_cases H.
  - destruct e as [m'| |]; cbn; [|intro H; in_cases H..].
    destruct (includes m' "Account type"
              || (includes m' "json-rpc" || (includes m' "not supported" || false)));
      cbn; intro H; reflexivity.
Qed.

(** A block that neither makes the probed call nor signs leaves the outcome
    of the bypass to what follows it. *)
Lemma bypass_after A B clk cs stores (m : M A) (k : A -> M B) st
    msgStr sender c o :
  script clk (among cs stores) m ->
  cs c = false ->
  (forall d, cs (Call.walletClient_signAuthorization d) = false) ->
  In (EvCall c o) (events (bind m k st)) ->
  (forall a,
      completion (m st) = Normal a ->
      In (EvCall c o) (events (k a (final (m st)))) ->
      exists l,
        logs (final (k a (final (m st)))) = (logs (final (m st)) ++ l)%list
        /\ bypass_outcome msgStr sender (events (k a (final (m st)))) l) ->
  exists l,
    logs (final (bind m k st)) = (logs st ++ l)%list
    /\ bypass_outcome msgStr sender (events (bind m k st)) l.
Proof.
  intros S Hc Hd H K.
  rewrite events_bind in *. rewrite final_bind.
  pose proof (script_no_call S c Hc st o) as N.
  destruct (script_appends S st) as [l1 L1].
  destruct (completion (m st)) as [a| |e]; [|contradiction..].
  apply in_app_or in H. destruct H as [H|H]; [contradiction|].
  destruct (K a eq_refl H) as (l & L & O).
  exists (l1 ++ l)%list. split; [now rewrite L, L1, app_assoc|].
  apply (@bypass_outcome_extend _ _ _ _ (events (m st)) [] l1 []) in O.
  - now rewrite !app_nil_r in O.
  - now apply (script_no_bypass st S).
  - intros d o' [].
Qed.

Lemma App_steps_bypass w st m wallet wc answer ra msgStr :
  In (EvCall Call.signAuthorizations (Rejected (JsError m)))
     (events (App.steps w st)) ->
  App.primaryWallet w = Some wallet ->
  App.createWalletClient w = Ok wc ->
  App.signAuthorization wc = Some answer ->
  App.createAccount w = Ok ra ->
  App.getTransactionMessages ra = Ok msgStr ->
  let r := App.steps w st in
  exists l,
    logs (final r) = (logs st ++ l)%list
    /\ bypass_outcome msgStr (Wallet.address wallet) (events r) l.
Proof.
  unfold App.steps. cbv zeta. intros H Hw Hwc Hs Hra Hm.
  (* steps 1 to 7 *)
  eapply bypass_after;
    [apply (App_setup_script w)| | |exact H|]; [reflexivity|intro; reflexivity|].
  clear H. intros ctx Hctx H.
  destruct (App_setup_normal _ _ Hctx) as (Ew & Ewc & Era).
  assert (App.wallet ctx = wallet) as Xw by congruence.
  assert (App.walletClient ctx = wc) as Xwc by congruence.
  assert (App.rhinestoneAccount ctx = ra) as Xra by congruence.
  clear Ew Ewc Era Hctx. set (s1 := final (App.setup w st)) in *. clearbody s1.
  (* step 8 *)
  eapply bypass_after;
    [apply App_sign_init_data_script| | |exact H|]; [reflexivity|intro; reflexivity|].
  clear H. intros sig _ H.
  set (s2 := final (App.sign_init_data _ _ s1)) in *. clearbody s2.
  (* step 9 *)
  eapply bypass_after;
    [apply App_prepare_script| | |exact H|]; [reflexivity|intro; reflexivity|].
  clear H. intros [] _ H.
  set (s3 := final (App.prepare _ _ _ s2)) in *. clearbody s3.
  (* step 10 *)
  assert (Hc : In (EvCall Call.signAuthorizations (Rejected (JsError m)))
                  (events (App.critical_test (log (App.clock w))
                             (App.rhinestoneAccount ctx) s3))).
  { rewrite events_bind in H.
    destruct (completion (App.critical_test (log (App.clock w))
                            (App.rhinestoneAccount ctx) s3)) as [failed| |e];
      try exact H.
    apply in_app_or in H; destruct H as [H|H]; [exact H|]. exfalso.
    rewrite events_bind in H.
    match type of H with
    | In _ (match completion (?blk ?s) with _ => _ end) =>
        pose proof (script_no_call
                      (App_try_workaround_script (App.clock w) ctx failed)
                      Call.signAuthorizations eq_refl s
                      (Rejected (JsError m))) as N5;
        destruct (completion (blk s)); try contradiction
    end.
    apply in_app_or in H; destruct H as [H|H]; [contradiction|].
    revert H.
    now apply (script_no_call (App_capabilities_script _ _)
                 Call.signAuthorizations). }
  pose proof (App_critical_test_failed _ _ _ _ Hc) as Cc.
  rewrite events_bind_app, final_bind, Cc.
  destruct (script_appends (App_critical_test_script (App.clock w)
                              (App.rhinestoneAccount ctx)) s3) as [l4 L4].
  pose proof (script_no_bypass s3
                (App_critical_test_script (App.clock w)
                   (App.rhinestoneAccount ctx)) (fun _ => eq_refl)) as N4.
  set (s4 := final (App.critical_test _ _ s3)) in *. clearbody s4.
  set (t4 := events (App.critical_test _ _ s3)) in *. clearbody t4.
  clear H Hc Cc.
  (* steps 11 and 12 *)
  rewrite events_bind_app, final_bind.
  rewrite <- Xwc in Hs. rewrite <- Xra in Hm.
  destruct (App_try_workaround_run (App.clock w) ctx s4 Hs Hm)
    as (l5 & L5 & O). rewrite Xw in O.
  set (r5 := App.try_workaround (log (App.clock w)) ctx true s4) in *.
  destruct (completion r5) as [[]| |e].
  - destruct (script_appends (App_capabilities_script (App.clock w)
                                (App.wallet ctx)) (final r5)) as [l6 L6].
    pose proof (script_no_bypass (final r5)
                  (App_capabilities_script (App.clock w) (App.wallet ctx))
                  (fun _ => eq_refl)) as N6.
    exists (l4 ++ l5 ++ l6)%list. split.
    + rewrite L6, L5, L4, <- !app_assoc. reflexivity.
    + now apply bypass_outcome_extend.
  - exists (l4 ++ l5 ++ [])%list. split.
    + rewrite L5, L4, app_nil_r, <- !app_assoc. reflexivity.
    + apply bypass_outcome_extend; auto. intros d o [].
  - exists (l4 ++ l5 ++ [])%list. split.
    + rewrite L5, L4, app_nil_r, <- !app_assoc. reflexivity.
    + apply bypass_outcome_extend; auto. intros d o [].
Qed.

Lemma drop_length n : forall s,
  String.length (drop n s) = String.length s - n.
Proof.
  induction n as [|n IH]; intros [|c rest]; simpl; auto.
Qed.

Lemma match_addresses_successive s :
  successive_matches s (match_addresses s).
Proof.
  remember (String.length s) as n eqn:En. revert s En.
  induction n as [n IH] using lt_wf_ind. intros s ->.
  destruct (match_addresses_spec s) as [[E Hno]|(p & Hb & Hp & E)];
    rewrite E.
  - now constructor.
  - constructor; auto. eapply IH; [|reflexivity].
    rewrite drop_length. destruct s as [|c rest].
    + unfold pattern_at in Hp. rewrite drop_empty in Hp. discriminate Hp.
    + change (String.length (String c rest)) with (S (String.length rest)). lia.
Qed.

Lemma bypass_outcome_within msgStr sender t l t0 t3 l3 T L :
  T = (t0 ++ t ++ t3)%list -> L = (l ++ l3)%list ->
  no_bypass_signing t0 -> no_bypass_signing t3 ->
  bypass_outcome msgStr sender t l ->
  bypass_outcome msgStr sender T L.
Proof.
  intros -> -> H0 H3 O.
  now apply (@bypass_outcome_extend msgStr sender t l t0 t3 [] l3).
Qed.

(** C7 (as amended).  In the bug reproduction, when [signAuthorizations]
    has thrown an error and the wallet client has [signAuthorization], the
    bypass reads the serialized transaction messages as the global pattern
    does: the leftmost match of 0x and 40 hex digits, then the matches of
    what follows that match.  Its candidate is the first of these matches
    whose lowercase form differs from the lowercase sender address.  If
    there is one, [walletClient.signAuthorization] is called with it and
    with no other address, and when that call throws an error whose message
    contains "not supported" or "Method not found" the failure entry is
    followed at once by the second marker entry.  If there is none, every
    match is the sender, the error entry is logged and
    [walletClient.signAuthorization] is not called. *)
Theorem bypass_selects_first_other_match
    (w : App.World) (st : State) (m : string) (wallet : Wallet.t)
    (wc : App.WalletClient) (answer : Result Authorization.t)
    (ra : App.RhinestoneAccount) (msgStr : string) :
  In (EvCall Call.signAuthorizations (Rejected (JsError m)))
     (events (runTest (BugRepro w) st)) ->
  App.primaryWallet w = Some wallet ->
  App.createWalletClient w = Ok wc ->
  App.signAuthorization wc = Some answer ->
  App.createAccount w = Ok ra ->
  App.getTransactionMessages ra = Ok msgStr ->
  let r := runTest (BugRepro w) st in
  let sender := Wallet.address wallet in
  successive_matches msgStr (match_addresses msgStr)
  /\ match App.delegate_candidate msgStr sender with
     | Some d => first_other_match msgStr sender d
     | None => forall x, In x (match_addresses msgStr) ->
                         toLowerCase x = toLowerCase sender
     end
  /\ bypass_outcome msgStr sender (events r) (logs (final r)).
Proof.
  intros H Hw Hwc Hs Hra Hm. cbv zeta.
  split; [apply match_addresses_successive|].
  split; [apply delegate_candidate_spec|].
  apply run_calls in H.
  destruct (@App_steps_bypass w (cleared st) m wallet wc answer ra msgStr
              H Hw Hwc Hs Hra Hm)
    as (l & L & O).
  change (App.steps w (cleared st))
    with (steps (BugRepro w) (entry (BugRepro w) st)) in *.
  simpl (logs (cleared st)) in L. simpl app in L.
  rewrite run_events, run_logs.
  set (r0 := steps (BugRepro w) (entry (BugRepro w) st)) in *.
  assert (N0 : no_bypass_signing (resets (BugRepro w) ++ [EvSetRunning true])).
  { intros d o H0. simpl in H0. in_cases H0. }
  assert (N3 : no_bypass_signing [EvSetRunning false]).
  { intros d o H0. in_cases H0. }
  destruct (completion r0) as [u| |e].
  - apply (@bypass_outcome_within _ _ (events r0) l
             (resets (BugRepro w) ++ [EvSetRunning true])
             [EvSetRunning false] []); auto.
    now rewrite app_nil_r.
  - apply (@bypass_outcome_within _ _ (events r0) l
             (resets (BugRepro w) ++ [EvSetRunning true])
             [EvSetRunning false] []); auto.
    now rewrite app_nil_r.
  - destruct (script_appends (handler_script (BugRepro w) e) (final r0))
      as [lh Lh].
    apply (@bypass_outcome_within _ _ (events r0) l
             (resets (BugRepro w) ++ [EvSetRunning true])
             (events (handler (BugRepro w) e (final r0))
              ++ [EvSetRunning false]) lh); auto.
    + now rewrite Lh, L.
    + intros d o H0. apply in_app_or in H0. destruct H0 as [H0|H0].
      * now apply handler_calls in H0.
      * in_cases H0.
Qed.

Lemma bypass_selects_first_other_match_witness :
  bypass_outcome
    ("{from:" ++ Demo.sender ++ ",to:" ++ Demo.delegate ++ "}") Demo.sender
    (events (runTest (BugRepro (Demo.app [8453%Z] Demo.account))
               Demo.initial))
    (logs (final (runTest (BugRepro (Demo.app [8453%Z] Demo.account))
                    Demo.initial))).
Proof.
  apply (@bypass_selects_first_other_match
           (Demo.app [8453%Z] Demo.account) Demo.initial
           "Account type json-rpc is not supported"
           (Demo.wallet [8453%Z])
           (App.mkWalletClient (Some (Throws (JsError "Method not found"))))
           (Throws (JsError "Method not found")) Demo.account
           ("{from:" ++ Demo.sender ++ ",to:" ++ Demo.delegate ++ "}")).
  - vm_compute. repeat (try (left; reflexivity); right).
  - reflexivity.
  - reflexivity.
  - reflexivity.
  - reflexivity.
  - reflexivity.
Defined.

(** C7 as the specification has it fails: matches do not overlap, so a
    substring of the address shape that starts on the last digit of the
    sender address is not a match; the bypass then finds no candidate and
    signs nothing, although that substring is not the sender. *)
Lemma bypass_counterexample :
  ~ (forall w st m wallet wc answer ra msgStr,
       In (EvCall Call.signAuthorizations (Rejected (JsError m)))
          (events (runTest (BugRepro w) st)) ->
       App.primaryWallet w = Some wallet ->
       App.createWalletClient w = Ok wc ->
       App.signAuthorization wc = Some answer ->
       App.createAccount w = Ok ra ->
       App.getTransactionMessages ra = Ok msgStr ->
       forall p,
         pattern_at p msgStr = true ->
         toLowerCase (substring p 42 msgStr)
         <> toLowerCase (Wallet.address wallet) ->
         exists d o,
           In (EvCall (Call.walletClient_signAuthorization d) o)
              (events (runTest (BugRepro w) st))).
Proof.
  intro H.
  assert (Hin : In (EvCall Call.signAuthorizations
                      (Rejected (JsError "Account type json-rpc is not supported")))
                   (events (runTest (BugRepro Demo.overlapping) Demo.initial)))
    by (vm_compute; repeat (try (left; reflexivity); right)).
  destruct (H Demo.overlapping Demo.initial _ _ _ _ _ _ Hin
              eq_refl eq_refl eq_refl eq_refl eq_refl 47 eq_refl)
    as (d & o & Hd).
  - vm_compute. intro E. discriminate E.
  - vm_compute in Hd. in_cases Hd.
Qed.

(* ================================================================== *)
(** * Converting bigints and matching addresses *)
(* ================================================================== *)

Section JsValue_induction.

Variable P : JsValue -> Prop.
Hypothesis HNull : P JNull.
Hypothesis HUndefined : P JUndefined.
Hypothesis HBool : forall b, P (JBool b).
Hypothesis HNumber : forall z, P (JNumber z).
Hypothesis HBigInt : forall z, P (JBigInt z).
Hypothesis HString : forall s, P (JString s).
Hypothesis HArray : forall items, Forall P items -> P (JArray items).
Hypothesis HObject :
  forall fields, Forall (fun kv => P (snd kv)) fields -> P (JObject fields).

Lemma JsValue_induction : forall v : JsValue, P v.
Proof.
  fix IH 1. intros [| |b|z|z|s|items|fields].
  - exact HNull.
  - exact HUndefined.
  - apply HBool.
  - apply HNumber.
  - apply HBigInt.
  - apply HString.
  - apply HArray.
    exact ((fix all (l : list JsValue) : Forall P l :=
              match l with
              | [] => Forall_nil P
              | x :: rest => Forall_cons x (IH x) (all rest)
              end) items).
  - apply HObject.
    exact ((fix all (l : list (string * JsValue))
              : Forall (fun kv => P (snd kv)) l :=
              match l with
              | [] => Forall_nil _
              | kv :: rest => Forall_cons kv (IH (snd kv)) (all rest)
              end) fields).
Qed.

End JsValue_induction.

Lemma convert_no_bigint v : has_bigint (convertBigIntsToString v) = false.
Proof.
  induction v using JsValue_induction; simpl; try reflexivity.
  - induction H as [|x items Hx _ IH]; simpl; [reflexivity|].
    now rewrite Hx, IH.
  - induction H as [|[k x] fields Hx _ IH]; simpl in *; [reflexivity|].
    destruct (stored_key k); simpl; [now rewrite Hx, IH|exact IH].
Qed.

(** What [convertBigIntsToString] returns has no own property called
    [__proto__]. *)
Lemma convert_no_proto_key v :
  has_proto_key (convertBigIntsToString v) = false.
Proof.
  induction v using JsValue_induction; simpl; try reflexivity.
  - induction H as [|x items Hx _ IH]; simpl; [reflexivity|].
    now rewrite Hx, IH.
  - induction H as [|[k x] fields Hx _ IH]; simpl in *; [reflexivity|].
    destruct (stored_key k) eqn:E; simpl; [|exact IH].
    now rewrite E, Hx, IH.
Qed.

Lemma convert_plain v :
  has_bigint v = false -> has_proto_key v = false ->
  convertBigIntsToString v = v.
Proof.
  induction v using JsValue_induction; simpl; try reflexivity;
    try discriminate.
  - intros Hb Hp. f_equal.
    induction H as [|x items Hx _ IH]; simpl in *; [reflexivity|].
    apply orb_false_elim in Hb. destruct Hb as [Hb1 Hb2].
    apply orb_false_elim in Hp. destruct Hp as [Hp1 Hp2].
    now rewrite (Hx Hb1 Hp1), (IH Hb2 Hp2).
  - intros Hb Hp. f_equal.
    induction H as [|[k x] fields Hx _ IH]; simpl in *; [reflexivity|].
    apply orb_false_elim in Hb. destruct Hb as [Hb1 Hb2].
    apply orb_false_elim in Hp. destruct Hp as [Hp1 Hp2].
    apply orb_false_elim in Hp1. destruct Hp1 as [Hk Hp1].
    apply negb_false_iff in Hk. rewrite Hk.
    now rewrite (Hx Hb1 Hp1), (IH Hb2 Hp2).
Qed.

(** X1.  No bigint is left anywhere in what [convertBigIntsToString] returns,
    however deeply it was nested in arrays and objects. *)
Theorem convertBigIntsToString_removes_bigints (v : JsValue) :
  has_bigint (convertBigIntsToString v) = false.
Proof. apply convert_no_bigint. Qed.

(** X2.  A value without bigints, none of whose objects has an own property
    called [__proto__], comes back from [convertBigIntsToString] with the
    content it had. *)
Theorem convertBigIntsToString_keeps_plain_values (v : JsValue) :
  has_bigint v = false -> has_proto_key v = false ->
  convertBigIntsToString v = v.
Proof. apply convert_plain. Qed.

Lemma convertBigIntsToString_keeps_plain_values_witness :
  convertBigIntsToString
    (JObject [("name", JString "Permit"); ("chainId", JNumber 8453);
              ("salt", JArray [JNull; JBool true])])
  = JObject [("name", JString "Permit"); ("chainId", JNumber 8453);
             ("salt", JArray [JNull; JBool true])].
Proof.
  apply convertBigIntsToString_keeps_plain_values; reflexivity.
Defined.

(** X3.  For a value none of whose objects has an own property called
    [__proto__], converting a second time changes nothing.  (The condition
    keeps to the values whose conversion a [JsValue] gives in full: an own
    [__proto__] property with an object for value makes that object the
    prototype of the result, and a second conversion would copy the
    properties it lends.) *)
Theorem convertBigIntsToString_idempotent (v : JsValue) :
  has_proto_key v = false ->
  convertBigIntsToString (convertBigIntsToString v)
  = convertBigIntsToString v.
Proof.
  intros _. apply convert_plain; [apply convert_no_bigint|].
  apply convert_no_proto_key.
Qed.

Lemma convertBigIntsToString_idempotent_witness :
  convertBigIntsToString
    (convertBigIntsToString
       (JObject [("chainId", JBigInt 8453);
                 ("calls", JArray [JObject [("value", JBigInt 0)]])]))
  = JObject [("chainId", JString "8453");
             ("calls", JArray [JObject [("value", JString "0")]])].
Proof.
  rewrite convertBigIntsToString_idempotent; reflexivity.
Defined.

(** X4.  [convertBigIntsToString] keeps the arrays and objects of a value
    none of whose objects has an own property called [__proto__] as they
    are: the same lengths, the same keys, in the same order; only leaves
    change. *)
Theorem convertBigIntsToString_keeps_structure (v : JsValue) :
  has_proto_key v = false ->
  skeleton (convertBigIntsToString v) = skeleton v.
Proof.
  induction v using JsValue_induction; simpl; try reflexivity.
  - intro Hp. f_equal.
    induction H as [|x items Hx _ IH]; simpl in *; [reflexivity|].
    apply orb_false_elim in Hp. destruct Hp as [Hp1 Hp2].
    now rewrite (Hx Hp1), (IH Hp2).
  - intro Hp. f_equal.
    induction H as [|[k x] fields Hx _ IH]; simpl in *; [reflexivity|].
    apply orb_false_elim in Hp. destruct Hp as [Hp1 Hp2].
    apply orb_false_elim in Hp1. destruct Hp1 as [Hk Hp1].
    apply negb_false_iff in Hk. rewrite Hk. simpl.
    now rewrite (Hx Hp1), (IH Hp2).
Qed.

Lemma convertBigIntsToString_keeps_structure_witness :
  skeleton
    (convertBigIntsToString
       (JObject [("chainId", JBigInt 8453);
                 ("calls", JArray [JObject [("value", JBigInt 0)]])]))
  = JObject [("chainId", JNull);
             ("calls", JArray [JObject [("value", JNull)]])].
Proof.
  rewrite convertBigIntsToString_keeps_structure; reflexivity.
Defined.

Lemma address_at_length s : address_at s = true -> 42 <= String.length s.
Proof.
  intro H. destruct (pattern_shape 0 s H) as [L _].
  rewrite <- L. clear. revert s. generalize 42.
  induction n as [|n IH]; intros [|c rest]; simpl; try lia.
  specialize (IH rest). simpl in IH. 
  destruct n; simpl in *; lia.
Qed.

Lemma scan_addresses_bound s :
  forall skip, 42 * length (scan_addresses skip s) + skip <= String.length s
               \/ scan_addresses skip s = [].
Proof.
  induction s as [|c rest IH]; intro skip; [now right|].
  destruct skip as [|k]; cbn [scan_addresses].
  - destruct (address_at (String c rest)) eqn:Ea.
    + left. apply address_at_length in Ea.
      change (String.length (String c rest)) with (S (String.length rest))
        in *.
      destruct (IH 41) as [H|H]; [|rewrite H]; simpl length; lia.
    + destruct (IH 0) as [H|H]; [left|now right].
      change (String.length (String c rest)) with (S (String.length rest)).
      lia.
  - destruct (IH k) as [H|H]; [left|now right].
    change (String.length (String c rest)) with (S (String.length rest)).
    lia.
Qed.

(** X5.  Every match of the address pattern is 42 characters long, has
    the address shape itself, and is the substring of the text at a position
    where the pattern matches. *)
Theorem match_addresses_are_addresses (s x : string) :
  In x (match_addresses s) ->
  String.length x = 42
  /\ address_at x = true
  /\ exists p, pattern_at p s = true /\ x = substring p 42 s.
Proof.
  intro H. destruct (scan_addresses_sound _ _ _ H) as (p & _ & Hp & ->).
  destruct (pattern_shape p s Hp) as [L A].
  split; [exact L|]. split; [exact A|]. now exists p.
Qed.

Lemma match_addresses_are_addresses_witness :
  String.length Demo.delegate = 42 /\ address_at Demo.delegate = true.
Proof.
  destruct (@match_addresses_are_addresses
              ("{from:" ++ Demo.sender ++ ",to:" ++ Demo.delegate ++ "}")
              Demo.delegate) as (L & A & _).
  - vm_compute. right. left. reflexivity.
  - split; [exact L|exact A].
Defined.

(** X6.  The pattern yields no match exactly when the text has no
    position at all where 0x and 40 hex digits stand. *)
Theorem match_addresses_empty_iff_no_occurrence (s : string) :
  match_addresses s = [] <-> forall p, pattern_at p s = false.
Proof.
  destruct (match_addresses_spec s) as [[E Hno]|(p & _ & Hp & E)].
  - split; auto.
  - split.
    + intro H. rewrite H in E. discriminate E.
    + intro H. rewrite H in Hp. discriminate Hp.
Qed.

Lemma match_addresses_empty_iff_no_occurrence_witness :
  pattern_at 1 "{}" = false.
Proof.
  apply (proj1 (match_addresses_empty_iff_no_occurrence "{}")).
  reflexivity.
Defined.

(** X7.  The matches do not overlap: together they are never longer
    than the text. *)
Theorem match_addresses_do_not_overlap (s : string) :
  42 * length (match_addresses s) <= String.length s.
Proof.
  unfold match_addresses. destruct (scan_addresses_bound s 0) as [H|H].
  - lia.
  - rewrite H. simpl. lia.
Qed.

Lemma lower_ascii_idempotent c : lower_ascii (lower_ascii c) = lower_ascii c.
Proof. destruct c as [[] [] [] [] [] [] [] []]; reflexivity. Qed.

Lemma toLowerCase_idempotent s : toLowerCase (toLowerCase s) = toLowerCase s.
Proof.
  induction s as [|c rest IH]; simpl; [reflexivity|].
  now rewrite lower_ascii_idempotent, IH.
Qed.

(** X8.  The letter case in which the sender address is spelled makes
    no difference to the candidate delegate. *)
Theorem delegate_candidate_ignores_case (msgStr sender : string) :
  App.delegate_candidate msgStr (toLowerCase sender)
  = App.delegate_candidate msgStr sender.
Proof.
  unfold App.delegate_candidate. cbv zeta.
  now rewrite toLowerCase_idempotent.
Qed.

(* ================================================================== *)
(** * The console *)
(* ================================================================== *)

Lemma console_lines_app t1 t2 :
  console_lines (t1 ++ t2) = (console_lines t1 ++ console_lines t2)%list.
Proof.
  induction t1 as [|ev t1 IH]; simpl; [reflexivity|].
  destruct ev; simpl; now rewrite IH.
Qed.

Lemma script_console clk allowed (A : Type) (m : M A) :
  script clk allowed m ->
  forall st,
    map console_line (logs (final (m st)))
    = (map console_line (logs st) ++ console_lines (events (m st)))%list.
Proof.
  induction 1 as [A a|A B m k Hm IHm Hk IHk|A|A prop| |A c r Hc|c o Hc
                 |lvl txt|A m h Hm IHm Hh IHh| |a Ha]; intro st;
    unfold final, events in *.
  - simpl. now rewrite app_nil_r.
  - unfold bind. specialize (IHm st).
    destruct (m st) as [[c1 s1] t1]. destruct c1 as [a| |e]; simpl in *; auto.
    specialize (IHk a s1). destruct (k a s1) as [[c2 s2] t2]. simpl in *.
    now rewrite IHk, IHm, console_lines_app, app_assoc.
  - simpl. now rewrite app_nil_r.
  - simpl. now rewrite app_nil_r.
  - simpl. now rewrite app_nil_r.
  - destruct r as [a|e]; simpl; now rewrite app_nil_r.
  - simpl. now rewrite app_nil_r.
  - simpl. now rewrite map_app.
  - unfold tryCatch. specialize (IHm st).
    destruct (m st) as [[c1 s1] t1]. destruct c1 as [a| |e]; simpl in *; auto.
    specialize (IHh e s1). destruct (h e s1) as [[c2 s2] t2]. simpl in *.
    now rewrite IHh, IHm, console_lines_app, app_assoc.
  - simpl. now rewrite app_nil_r.
  - simpl. now rewrite app_nil_r.
Qed.

(** X9.  In every variant, what a run writes with [console.log] is its log:
    one line per entry, in the same order, each of the form [[LEVEL] msg]. *)
Theorem console_echoes_the_log (v : Variant) (st : State) :
  console_lines (events (runTest v st))
  = map console_line (logs (final (runTest v st))).
Proof.
  rewrite runTest_shape.
  pose proof (script_console (guarded_script v) (entry v st)) as H.
  assert (E : logs (entry v st) = []) by now destruct v.
  rewrite E in H. unfold final, events in *. cbn [fst snd map app] in *.
  change (logs (stopped ?s)) with (logs s). rewrite H.
  rewrite console_lines_app. cbn [console_lines].
  rewrite console_lines_app. cbn [console_lines]. rewrite app_nil_r.
  now destruct v.
Qed.

(* ================================================================== *)
(** * Typed data *)
(* ================================================================== *)

Lemma RhinestoneTest_serve_converted clk reqs :
  script clk (among converted_calls false)
    (RhinestoneTest.serve (log clk) reqs).
Proof.
  induction reqs as [|[request answer] reqs IH]; simpl.
  - constructor.
  - apply script_bind; [|intros _; exact IH].
    unfold RhinestoneTest.eoaAccount. simpl.
    destruct request as [| |domain message|ca a chain nonce];
      try (script_auto; fail).
    apply script_forward. simpl. now rewrite !convert_no_bigint.
Qed.

Lemma RhinestoneTest_sdk_call_converted clk (A : Type) c
    (answer : RhinestoneTest.Answer A) :
  converted_calls c = true ->
  script clk (among converted_calls false)
    (RhinestoneTest.sdk_call (log clk) c answer).
Proof.
  intro Hc. unfold RhinestoneTest.sdk_call.
  apply script_bind; [apply RhinestoneTest_serve_converted|intros _].
  apply script_call. intro o. exact Hc.
Qed.

Ltac converted_step :=
  lazymatch goal with
  | |- script _ _ (RhinestoneTest.sdk_call _ _ _) =>
      apply RhinestoneTest_sdk_call_converted; reflexivity
  | _ => script_step
  end.

Lemma RhinestoneTest_steps_converted w :
  script (RhinestoneTest.clock w) (among converted_calls false)
    (RhinestoneTest.steps w).
Proof.
  unfold RhinestoneTest.steps, RhinestoneTest.setup,
    RhinestoneTest.sign_init_data, RhinestoneTest.prepare,
    RhinestoneTest.sign_and_submit.
  cbv zeta. repeat converted_step.
Qed.

(** X10.  In the end-to-end runner, the domain and the message of every
    typed-data request that reaches the Dynamic signer hold no bigint. *)
Theorem typed_data_is_converted
    (w : RhinestoneTest.World) (st : State) (domain message : JsValue)
    (o : Outcome) :
  In (EvCall (Call.dynamicSigner_signTypedData domain message) o)
     (events (runTest (EndToEnd w) st)) ->
  has_bigint domain = false /\ has_bigint message = false.
Proof.
  intro H. apply run_calls in H.
  destruct (script_events (RhinestoneTest_steps_converted w) _ _ H) as [F|F].
  - destruct F.
  - simpl in F. apply andb_prop in F. destruct F as [F1 F2].
    now rewrite negb_true_iff in F1, F2.
Qed.

Lemma typed_data_is_converted_witness :
  has_bigint (JObject [("name", JString "Rhinestone");
                       ("chainId", JString "8453")]) = false
  /\ has_bigint (JObject [("nonce", JString "7");
                          ("owner", JString Demo.sender)]) = false.
Proof.
  apply (@typed_data_is_converted Scenario.willing Demo.initial _ _ Returned).
  vm_compute. repeat (try (left; reflexivity); right).
Defined.

(* ================================================================== *)
(** * Steps 8 to 12 of the bug reproduction *)
(* ================================================================== *)

(** A block that does not make the call [c] has completed when [c] is
    made after it. *)
Lemma focus_call (A B : Type) clk cs stores (m : M A) (k : A -> M B) st c o :
  script clk (among cs stores) m ->
  cs c = false ->
  In (EvCall c o) (events (bind m k st)) ->
  exists a,
    completion (m st) = Normal a
    /\ In (EvCall c o) (events (k a (final (m st)))).
Proof.
  intros S Hc H. rewrite events_bind in H.
  pose proof (script_no_call S c Hc st o) as N.
  destruct (completion (m st)) as [a| |e]; [|contradiction..].
  exists a. split; [reflexivity|].
  apply in_app_or in H. destruct H as [H|H]; [contradiction|exact H].
Qed.

Lemma bind_normal (A B : Type) (m : M A) (k : A -> M B) st a :
  completion (m st) = Normal a ->
  events (bind m k st) = (events (m st) ++ events (k a (final (m st))))%list
  /\ final (bind m k st) = final (k a (final (m st)))
  /\ completion (bind m k st) = completion (k a (final (m st))).
Proof.
  intro H. rewrite events_bind, final_bind, completion_bind, H. auto.
Qed.

Lemma App_late_script clock ctx :
  script clock (among App_late_calls false)
    (signAuthFailed <- App.critical_test (log clock) (App.rhinestoneAccount ctx) ;;
     App.try_workaround (log clock) ctx signAuthFailed ;;
     App.capabilities (log clock) (App.wallet ctx)).
Proof.
  apply script_bind.
  - apply (@script_weaken clock (among App_critical_calls false)).
    + intros [| |[a|]| | |c o]; simpl; auto. unfold App_late_calls.
      now intros ->.
    + apply App_critical_test_script.
  - intro failed. apply script_bind.
    + apply (@script_weaken clock (among App_workaround_calls false)).
      * intros [| |[a|]| | |c o]; simpl; auto. unfold App_late_calls.
        intros ->. apply orb_true_r.
      * apply App_try_workaround_script.
    + intros _.
      apply (@script_weaken clock (among no_calls false)).
      * intros [| |[a|]| | |c o]; simpl; auto. discriminate.
      * apply App_capabilities_script.
Qed.

Lemma App_sign_init_data_value clk ra st sig :
  completion (App.sign_init_data (log clk) ra st) = Normal sig ->
  match sig with
  | Some s => s <> EmptyString /\ s <> "0x"
              /\ App.signEip7702InitData ra = Ok (Some s)
  | None => True
  end.
Proof.
  unfold App.sign_init_data, completion.
  destruct (App.signEip7702InitData ra) as [[s|]|e];
    cbn -[truthy String.eqb].
  - match goal with
    | |- context [if ?b then _ else _] => destruct b eqn:E
    end; cbn; intros [= <-]; [|exact I].
    apply andb_prop in E. destruct E as [E1 E2].
    apply negb_true_iff, String.eqb_neq in E2.
    repeat split; auto. intros ->. discriminate E1.
  - now intros [= <-].
  - destruct e; cbn; intro H; try discriminate H; now injection H as <-.
Qed.

Lemma App_prepare_call clk ra sig st s o :
  In (EvCall (Call.prepareTransaction s) o)
     (events (App.prepare (log clk) ra sig st)) ->
  s = sig.
Proof.
  unfold App.prepare, events. cbn.
  destruct (App.prepareTransaction ra) as [[]|e]; cbn.
  - intro H. in_cases H. now injection H.
  - destruct e; cbn; intro H; in_cases H; now injection H.
Qed.

(** X11.  In the bug reproduction, an init signature that is handed to
    [prepareTransaction] is the one [signEip7702InitData] returned, and it is
    neither empty nor the bare prefix 0x. *)
Theorem init_signature_is_filtered
    (w : App.World) (st : State) (s : string) (o : Outcome) :
  In (EvCall (Call.prepareTransaction (Some s)) o)
     (events (runTest (BugRepro w) st)) ->
  s <> EmptyString /\ s <> "0x"
  /\ exists ra, App.createAccount w = Ok ra
                /\ App.signEip7702InitData ra = Ok (Some s).
Proof.
  intro H. apply run_calls in H. simpl steps in H. simpl entry in H.
  unfold App.steps in H. cbv zeta in H.
  eapply focus_call in H;
    [destruct H as (ctx & Hctx & H1)|apply (App_setup_script w)|reflexivity].
  destruct (App_setup_normal _ _ Hctx) as (_ & _ & Hra).
  eapply focus_call in H1;
    [destruct H1 as (sig & Hsig & H2)|apply App_sign_init_data_script
    |reflexivity].
  apply App_sign_init_data_value in Hsig.
  rewrite events_bind_app in H2. apply in_app_or in H2.
  destruct H2 as [H2|H2].
  - apply App_prepare_call in H2. subst sig.
    destruct Hsig as (N1 & N2 & E). repeat split; auto.
    now exists (App.rhinestoneAccount ctx).
  - exfalso. destruct (completion (App.prepare _ _ _ _)); try easy.
    revert H2. now apply (script_no_call (App_late_script _ ctx)).
Qed.

Lemma init_signature_is_filtered_witness :
  "0xfeed" <> EmptyString /\ "0xfeed" <> "0x"
  /\ exists ra, App.createAccount (Demo.app [8453%Z] Scenario.ready_account) = Ok ra
                /\ App.signEip7702InitData ra = Ok (Some "0xfeed").
Proof.
  apply (@init_signature_is_filtered (Demo.app [8453%Z] Scenario.ready_account)
           Demo.initial "0xfeed" Returned).
  vm_compute. repeat (try (left; reflexivity); right).
Defined.

Lemma completion_triple (A : Type) (c : Completion A) s t :
  completion (c, s, t) = c.
Proof. reflexivity. Qed.

Lemma final_triple (A : Type) (c : Completion A) s t : final (c, s, t) = s.
Proof. reflexivity. Qed.

Lemma events_triple (A : Type) (c : Completion A) s t : events (c, s, t) = t.
Proof. reflexivity. Qed.

Ltac project_run :=
  rewrite ?completion_triple, ?final_triple, ?events_triple in *.

Lemma run_triple (A : Type) (r : Completion A * State * list Event) :
  r = (completion r, final r, events r).
Proof. now destruct r as [[c s] t]. Qed.

Lemma early_calls_are_not_late cs t :
  (forall c, cs c = true -> App_late_calls c = false) ->
  (forall ev, In ev t -> is_console ev \/ among cs false ev) ->
  forall c o, In (EvCall c o) t -> App_late_calls c = false.
Proof.
  intros Hcs Ht c o Hin. destruct (Ht _ Hin) as [F|F]; [destruct F|].
  now apply Hcs.
Qed.

(** A run of the steps that gets to [signAuthorizations] has gone through
    steps 1 to 9, which made none of the calls of steps 10 and 11. *)
Lemma App_steps_reach_step_10 w st o :
  In (EvCall Call.signAuthorizations o) (events (App.steps w st)) ->
  exists ctx s3 t3 l3,
    App.primaryWallet w = Some (App.wallet ctx)
    /\ App.createWalletClient w = Ok (App.walletClient ctx)
    /\ App.createAccount w = Ok (App.rhinestoneAccount ctx)
    /\ logs s3 = (logs st ++ l3)%list
    /\ (forall c o', In (EvCall c o') t3 -> App_late_calls c = false)
    /\ let r :=
         (signAuthFailed <- App.critical_test (log (App.clock w))
                              (App.rhinestoneAccount ctx) ;;
          App.try_workaround (log (App.clock w)) ctx signAuthFailed ;;
          App.capabilities (log (App.clock w)) (App.wallet ctx)) s3 in
       App.steps w st = (completion r, final r, (t3 ++ events r)%list).
Proof.
  unfold App.steps. cbv zeta. intro H.
  (* steps 1 to 7 *)
  pose proof H as H0.
  eapply focus_call in H0;
    [destruct H0 as (ctx & C1 & H1)|apply (App_setup_script w)|reflexivity].
  destruct (App_setup_normal _ _ C1) as (Ew & Ewc & Era).
  destruct (script_appends (App_setup_script w) st) as [l1 L1].
  pose proof (script_events (App_setup_script w) st) as E1.
  set (s1 := final (App.setup w st)) in *.
  (* step 8 *)
  pose proof H1 as H0.
  eapply focus_call in H0;
    [destruct H0 as (sig & C2 & H2)|apply App_sign_init_data_script
    |reflexivity].
  destruct (script_appends (App_sign_init_data_script (App.clock w)
                              (App.rhinestoneAccount ctx)) s1) as [l2 L2].
  pose proof (script_events (App_sign_init_data_script (App.clock w)
                               (App.rhinestoneAccount ctx)) s1) as E2.
  set (s2 := final (App.sign_init_data _ _ s1)) in *.
  (* step 9 *)
  pose proof H2 as H0.
  eapply focus_call in H0;
    [destruct H0 as ([] & C3 & H3)|apply App_prepare_script|reflexivity].
  destruct (script_appends (App_prepare_script (App.clock w)
                              (App.rhinestoneAccount ctx) sig) s2) as [l3 L3].
  pose proof (script_events (App_prepare_script (App.clock w)
                               (App.rhinestoneAccount ctx) sig) s2) as E3.
  set (s3 := final (App.prepare _ _ _ s2)) in *.
  exists ctx, s3,
    (events (App.setup w st)
     ++ events (App.sign_init_data (log (App.clock w))
                  (App.rhinestoneAccount ctx) s1)
     ++ events (App.prepare (log (App.clock w))
                  (App.rhinestoneAccount ctx) sig s2))%list,
    (l1 ++ l2 ++ l3)%list.
  repeat split; auto.
  - rewrite L3, L2, L1, <- !app_assoc. reflexivity.
  - intros c o' Hin. apply in_app_or in Hin. destruct Hin as [Hin|Hin].
    + apply (early_calls_are_not_late App_setup_calls _
               (fun c => ltac:(destruct c; easy)) E1 _ _ Hin).
    + apply in_app_or in Hin. destruct Hin as [Hin|Hin].
      * apply (early_calls_are_not_late App_init_calls _
                 (fun c => ltac:(destruct c; easy)) E2 _ _ Hin).
      * apply (early_calls_are_not_late App_prepare_calls _
                 (fun c => ltac:(destruct c; easy)) E3 _ _ Hin).
  - cbv zeta.
    destruct (bind_normal (App.setup w)
                (fun ctx =>
                   eip7702InitSignature <-
                     App.sign_init_data (log (App.clock w))
                       (App.rhinestoneAccount ctx) ;;
                   App.prepare (log (App.clock w)) (App.rhinestoneAccount ctx)
                     eip7702InitSignature ;;
                   signAuthFailed <-
                     App.critical_test (log (App.clock w))
                       (App.rhinestoneAccount ctx) ;;
                   App.try_workaround (log (App.clock w)) ctx signAuthFailed ;;
                   App.capabilities (log (App.clock w)) (App.wallet ctx))
                st C1) as (B1e & B1f & B1c).
    destruct (bind_normal (App.sign_init_data (log (App.clock w))
                             (App.rhinestoneAccount ctx))
                (fun eip7702InitSignature =>
                   App.prepare (log (App.clock w)) (App.rhinestoneAccount ctx)
                     eip7702InitSignature ;;
                   signAuthFailed <-
                     App.critical_test (log (App.clock w))
                       (App.rhinestoneAccount ctx) ;;
                   App.try_workaround (log (App.clock w)) ctx signAuthFailed ;;
                   App.capabilities (log (App.clock w)) (App.wallet ctx))
                s1 C2) as (B2e & B2f & B2c).
    destruct (bind_normal (App.prepare (log (App.clock w))
                             (App.rhinestoneAccount ctx) sig)
                (fun _ =>
                   signAuthFailed <-
                     App.critical_test (log (App.clock w))
                       (App.rhinestoneAccount ctx) ;;
                   App.try_workaround (log (App.clock w)) ctx signAuthFailed ;;
                   App.capabilities (log (App.clock w)) (App.wallet ctx))
                s2 C3) as (B3e & B3f & B3c).
    fold s1 in B1e, B1f, B1c. fold s2 in B2e, B2f, B2c.
    fold s3 in B3e, B3f, B3c.
    rewrite (run_triple (bind (App.setup w) _ st)).
    rewrite B1e, B1f, B1c, B2e, B2f, B2c, B3e, B3f, B3c.
    now rewrite <- !app_assoc.
Qed.

Lemma App_capabilities_heading clk wallet st :
  exists l,
    logs (final (App.capabilities (log clk) wallet st))
    = (logs st
       ++ mkLogEntry (clk (clockReads st)) info
            "Step 12: Checking Dynamic wallet capabilities..." :: l)%list.
Proof.
  unfold App.capabilities. rewrite final_bind.
  change (completion (log clk info
                        "Step 12: Checking Dynamic wallet capabilities..." st))
    with (Normal tt). cbv iota.
  match goal with
  | |- context [final (?m (final (log clk info ?h st)))] =>
      assert (S : script clk (among no_calls false) m) by script_auto;
      destruct (script_appends S (final (log clk info h st))) as [l L]
  end.
  exists l. rewrite L. cbn. now rewrite <- app_assoc.
Qed.

Lemma App_critical_test_returned clk ra st :
  In (EvCall Call.signAuthorizations Returned)
     (events (App.critical_test (log clk) ra st)) ->
  exists n, App.signAuthorizations ra = Ok n.
Proof.
  unfold App.critical_test, events. cbn -[of_Z].
  destruct (App.signAuthorizations ra) as [n|e]; cbn -[of_Z].
  - intros _. now exists n.
  - destruct e as [m| |]; cbn; [|intro H; in_cases H..].
    destruct (includes m "Account type"
              || (includes m "json-rpc" || (includes m "not supported" || false)));
      cbn; intro H; in_cases H.
Qed.

Lemma App_critical_test_success clk ra st n :
  App.signAuthorizations ra = Ok n ->
  let r := App.critical_test (log clk) ra st in
  completion r = Normal false
  /\ exists t1 t2,
      logs (final r)
      = (logs st
         ++ [mkLogEntry t1 info
               "Step 10: Calling signAuthorizations (THE BUG TEST)...";
             mkLogEntry t2 success
               ("signAuthorizations succeeded! Got "
                ++ of_Z (Z.of_nat n) ++ " auth(s)")])%list.
Proof.
  intro H. unfold App.critical_test, completion, final. cbn -[of_Z].
  rewrite H. cbn -[of_Z]. split; [reflexivity|].
  eexists _, _. now rewrite <- app_assoc.
Qed.

Lemma App_try_workaround_skipped clk ctx st :
  let r := App.try_workaround (log clk) ctx false st in
  completion r = Normal tt
  /\ logs (final r)
     = (logs st
        ++ [mkLogEntry (clk (clockReads st)) info
              "Step 11: Skipping workaround test (signAuthorizations worked)"])%list.
Proof.
  unfold App.try_workaround, completion, final. cbn. auto.
Qed.

(** The steps after step 11, for a step 11 that completes. *)
Lemma App_finish clk ctx failed st :
  completion (App.try_workaround (log clk) ctx failed st) = Normal tt ->
  let r := (App.try_workaround (log clk) ctx failed ;;
            App.capabilities (log clk) (App.wallet ctx)) st in
  completion r = Normal tt
  /\ exists t l,
      logs (final r)
      = (logs (final (App.try_workaround (log clk) ctx failed st))
         ++ mkLogEntry t info
              "Step 12: Checking Dynamic wallet capabilities..." :: l)%list.
Proof.
  intro C. cbv zeta.
  destruct (@bind_normal _ _ (App.try_workaround (log clk) ctx failed)
              (fun _ => App.capabilities (log clk) (App.wallet ctx)) st _ C)
    as (_ & Bf & Bc).
  rewrite Bf, Bc, App_capabilities_completes. split; [reflexivity|].
  destruct (App_capabilities_heading clk (App.wallet ctx)
              (final (App.try_workaround (log clk) ctx failed st)))
    as [l L].
  eexists _, l. exact L.
Qed.

Lemma late_calls_workaround c :
  App_late_calls c = false -> App_workaround_calls c = false.
Proof. unfold App_late_calls. intro H. now apply orb_false_elim in H. Qed.

Lemma App_steps_success w st :
  In (EvCall Call.signAuthorizations Returned) (events (App.steps w st)) ->
  let r := App.steps w st in
  completion r = Normal tt
  /\ (forall c o, In (EvCall c o) (events r) -> App_workaround_calls c = false)
  /\ exists ra n,
      App.createAccount w = Ok ra /\ App.signAuthorizations ra = Ok n
      /\ exists before t1 t2 t3 after,
          logs (final r)
          = (logs st ++ before
             ++ [mkLogEntry t1 success
                   ("signAuthorizations succeeded! Got "
                    ++ of_Z (Z.of_nat n) ++ " auth(s)");
                 mkLogEntry t2 info
                   "Step 11: Skipping workaround test (signAuthorizations worked)";
                 mkLogEntry t3 info
                   "Step 12: Checking Dynamic wallet capabilities..."]
             ++ after)%list.
Proof.
  intro H. cbv zeta.
  pose proof H as R. apply App_steps_reach_step_10 in R.
  destruct R as (ctx & s3 & t3 & l3 & _ & _ & Era & L3 & N3 & E).
  cbv zeta in E. rewrite E in *. clear E. project_run.
  apply in_app_or in H. destruct H as [H|H];
    [apply N3 in H; discriminate H|].
  set (clk := App.clock w) in *. set (ra := App.rhinestoneAccount ctx) in *.
  assert (Hc : In (EvCall Call.signAuthorizations Returned)
                  (events (App.critical_test (log clk) ra s3))).
  { rewrite events_bind_app in H. apply in_app_or in H.
    destruct H as [H|H]; [exact H|]. exfalso.
    destruct (completion (App.critical_test (log clk) ra s3)) as [f| |e];
      try easy.
    rewrite events_bind_app in H. apply in_app_or in H.
    destruct H as [H|H].
    - revert H. now apply (script_no_call (App_try_workaround_script _ _ _)).
    - destruct (completion (App.try_workaround _ _ _ _)); try easy.
      revert H. now apply (script_no_call (App_capabilities_script _ _)). }
  pose proof Hc as Hn. apply App_critical_test_returned in Hn.
  destruct Hn as [n Hn].
  destruct (@App_critical_test_success clk ra s3 n Hn) as (C4 & t1 & t2 & L4).
  destruct (@bind_normal _ _ (App.critical_test (log clk) ra)
              (fun signAuthFailed =>
                 App.try_workaround (log clk) ctx signAuthFailed ;;
                 App.capabilities (log clk) (App.wallet ctx)) s3 _ C4)
    as (Be & Bf & Bc).
  cbv beta in Be, Bf, Bc.
  set (s4 := final (App.critical_test (log clk) ra s3)) in *.
  destruct (App_try_workaround_skipped clk ctx s4) as (C5 & L5).
  destruct (@App_finish clk ctx false s4 C5) as (C6 & t6 & l6 & L6).
  rewrite Bc, Bf, Be. split; [exact C6|]. split.
  - intros c o Hin. apply in_app_or in Hin. destruct Hin as [Hin|Hin];
      [now apply late_calls_workaround, (N3 c o)|].
    apply in_app_or in Hin. destruct Hin as [Hin|Hin].
    + destruct (script_events (App_critical_test_script clk ra) _ _ Hin)
        as [F|F]; [destruct F|]. now destruct c.
    + exfalso. rewrite events_bind_app in Hin. apply in_app_or in Hin.
      destruct Hin as [Hin|Hin].
      * unfold App.try_workaround, events in Hin. cbn in Hin. in_cases Hin.
      * rewrite C5 in Hin. revert Hin.
        now apply (script_no_call (App_capabilities_script _ _)).
  - exists ra, n. split; [exact Era|]. split; [exact Hn|].
    rewrite L6, L5, L4, L3.
    eexists (l3 ++ [_])%list, _, _, _, l6.
    rewrite <- !app_assoc. reflexivity.
Qed.

Lemma run_of_normal_steps (v : Variant) (st : State) :
  completion (steps v (entry v st)) = Normal tt ->
  completion (runTest v st) = Normal tt
  /\ logs (final (runTest v st)) = logs (final (steps v (entry v st))).
Proof.
  intro H. destruct (@run_of_steps v st) as [E1 E2].
  - intro e. rewrite H. discriminate.
  - now rewrite E1, E2.
Qed.

(** X12.  In the bug reproduction, when [signAuthorizations] returns, the
    bypass is skipped: neither [getTransactionMessages] nor
    [walletClient.signAuthorization] is called, the log shows the number of
    authorizations, then the line that step 11 is skipped, then the heading
    of step 12, and the run completes. *)
Theorem bypass_is_skipped_on_success (w : App.World) (st : State) :
  In (EvCall Call.signAuthorizations Returned)
     (events (runTest (BugRepro w) st)) ->
  let r := runTest (BugRepro w) st in
  completion r = Normal tt
  /\ (forall c o, In (EvCall c o) (events r) -> App_workaround_calls c = false)
  /\ exists ra n,
      App.createAccount w = Ok ra /\ App.signAuthorizations ra = Ok n
      /\ exists t1 t2 t3,
          holds_in_a_row (logs (final r))
            [mkLogEntry t1 success
               ("signAuthorizations succeeded! Got "
                ++ of_Z (Z.of_nat n) ++ " auth(s)");
             mkLogEntry t2 info
               "Step 11: Skipping workaround test (signAuthorizations worked)";
             mkLogEntry t3 info
               "Step 12: Checking Dynamic wallet capabilities..."].
Proof.
  intro H. cbv zeta. apply run_calls in H.
  apply App_steps_success in H. destruct H
    as (C & N & ra & n & Era & Hn & before & t1 & t2 & t3 & after & L).
  destruct (@run_of_normal_steps (BugRepro w) st C) as [E1 E2].
  split; [exact E1|]. split.
  - intros c o Hin. apply run_calls in Hin. now apply (N c o).
  - exists ra, n. split; [exact Era|]. split; [exact Hn|].
    exists t1, t2, t3, before, after. rewrite E2. exact L.
Qed.

Lemma bypass_is_skipped_on_success_witness :
  completion (runTest (BugRepro (Demo.app [8453%Z] Scenario.ready_account))
                Demo.initial) = Normal tt.
Proof.
  apply (@bypass_is_skipped_on_success (Demo.app [8453%Z] Scenario.ready_account)
           Demo.initial).
  vm_compute. repeat (try (left; reflexivity); right).
Defined.

Lemma App_critical_test_logs_failure clk ra st e :
  e <> JsNullish ->
  In (EvCall Call.signAuthorizations (Rejected e))
     (events (App.critical_test (log clk) ra st)) ->
  exists t0 t1 l,
    logs (final (App.critical_test (log clk) ra st))
    = (logs st
       ++ [mkLogEntry t0 info
             "Step 10: Calling signAuthorizations (THE BUG TEST)...";
           mkLogEntry t1 error
             ("signAuthorizations FAILED: " ++ tmpl (message_of e))]
       ++ l)%list
    /\ (message_of e = None ->
        l = []
        /\ exists reason,
            completion (App.critical_test (log clk) ra st)
            = Throw (JsError reason)).
Proof.
  intro Hn. unfold App.critical_test, completion, final, events. cbn.
  destruct (App.signAuthorizations ra) as [n|e0]; cbn.
  - intro H. in_cases H.
  - destruct e0 as [m| |]; cbn.
    + destruct (includes m "Account type"
                || (includes m "json-rpc" || (includes m "not supported" || false)));
        cbn; intro H; in_cases H; injection H as <-;
        eexists _, _, _; (split; [rewrite <- !app_assoc; reflexivity|]);
        discriminate.
    + intro H. in_cases H. injection H as <-.
      eexists _, _, []. split; [rewrite <- !app_assoc; reflexivity|].
      intros _. split; [reflexivity|]. eexists. reflexivity.
    + intro H. in_cases H. injection H as <-. now destruct Hn.
Qed.

Lemma App_late_focus clk ctx st o :
  In (EvCall Call.signAuthorizations o)
     (events ((signAuthFailed <- App.critical_test (log clk)
                                   (App.rhinestoneAccount ctx) ;;
               App.try_workaround (log clk) ctx signAuthFailed ;;
               App.capabilities (log clk) (App.wallet ctx)) st)) ->
  In (EvCall Call.signAuthorizations o)
     (events (App.critical_test (log clk) (App.rhinestoneAccount ctx) st)).
Proof.
  intro H. rewrite events_bind_app in H. apply in_app_or in H.
  destruct H as [H|H]; [exact H|]. exfalso.
  destruct (completion (App.critical_test (log clk)
                          (App.rhinestoneAccount ctx) st)) as [f| |e];
    try easy.
  rewrite events_bind_app in H. apply in_app_or in H.
  destruct H as [H|H].
  - revert H. now apply (script_no_call (App_try_workaround_script _ _ _)).
  - destruct (completion (App.try_workaround _ _ _ _)); try easy.
    revert H. now apply (script_no_call (App_capabilities_script _ _)).
Qed.

(** A run of the steps in which [signAuthorizations] throws an error goes
    on to step 11 with [signAuthFailed] set. *)
Lemma App_steps_reach_step_11 w st m :
  In (EvCall Call.signAuthorizations (Rejected (JsError m)))
     (events (App.steps w st)) ->
  exists ctx s4 t4 l4,
    App.primaryWallet w = Some (App.wallet ctx)
    /\ App.createWalletClient w = Ok (App.walletClient ctx)
    /\ App.createAccount w = Ok (App.rhinestoneAccount ctx)
    /\ logs s4 = (logs st ++ l4)%list
    /\ (forall c o, In (EvCall c o) t4 -> App_workaround_calls c = false)
    /\ let r := (App.try_workaround (log (App.clock w)) ctx true ;;
                 App.capabilities (log (App.clock w)) (App.wallet ctx)) s4 in
       App.steps w st = (completion r, final r, (t4 ++ events r)%list).
Proof.
  intro H. pose proof H as R. apply App_steps_reach_step_10 in R.
  destruct R as (ctx & s3 & t3 & l3 & Ew & Ewc & Era & L3 & N3 & E).
  cbv zeta in E. rewrite E in *. clear E. project_run.
  apply in_app_or in H. destruct H as [H|H];
    [apply N3 in H; discriminate H|].
  apply App_late_focus in H.
  set (clk := App.clock w) in *. set (ra := App.rhinestoneAccount ctx) in *.
  pose proof H as C4. apply App_critical_test_failed in C4.
  destruct (@bind_normal _ _ (App.critical_test (log clk) ra)
              (fun signAuthFailed =>
                 App.try_workaround (log clk) ctx signAuthFailed ;;
                 App.capabilities (log clk) (App.wallet ctx)) s3 _ C4)
    as (Be & Bf & Bc).
  cbv beta in Be, Bf, Bc.
  destruct (script_appends (App_critical_test_script clk ra) s3) as [l4 L4].
  exists ctx, (final (App.critical_test (log clk) ra s3)),
    (t3 ++ events (App.critical_test (log clk) ra s3))%list, (l3 ++ l4)%list.
  repeat split; auto.
  - rewrite L4, L3, <- app_assoc. reflexivity.
  - intros c o Hin. apply in_app_or in Hin. destruct Hin as [Hin|Hin];
      [now apply late_calls_workaround, (N3 c o)|].
    destruct (script_events (App_critical_test_script clk ra) _ _ Hin)
      as [F|F]; [destruct F|]. now destruct c.
  - cbv zeta. rewrite Bc, Bf, Be, <- app_assoc. reflexivity.
Qed.

Lemma App_try_workaround_unavailable clk ctx st :
  App.signAuthorization (App.walletClient ctx) = None ->
  let r := App.try_workaround (log clk) ctx true st in
  completion r = Normal tt
  /\ (forall c o, ~ In (EvCall c o) (events r))
  /\ exists t1 t2,
      logs (final r)
      = (logs st
         ++ [mkLogEntry t1 info
               "Step 11: Testing walletClient.signAuthorization workaround...";
             mkLogEntry t2 error
               "walletClient.signAuthorization not available on this walletClient"])%list.
Proof.
  intro H. unfold App.try_workaround, completion, final, events.
  rewrite H. cbn. split; [reflexivity|]. split.
  - intros c o Hin. in_cases Hin.
  - eexists _, _. now rewrite <- app_assoc.
Qed.

Lemma App_try_workaround_setup_failed clk ctx st answer reason :
  App.signAuthorization (App.walletClient ctx) = Some answer ->
  App.getTransactionMessages (App.rhinestoneAccount ctx)
  = Throws (JsError reason) ->
  let r := App.try_workaround (log clk) ctx true st in
  completion r = Normal tt
  /\ (forall d o, ~ In (EvCall (Call.walletClient_signAuthorization d) o)
                      (events r))
  /\ exists l t,
      logs (final r)
      = (logs st ++ l
         ++ [mkLogEntry t error ("Workaround setup failed: " ++ reason)])%list.
Proof.
  intros Hs Hm.
  unfold App.try_workaround, App.workaround, completion, final, events.
  rewrite Hs. cbn. rewrite Hm. cbn. split; [reflexivity|]. split.
  - intros d o Hin. in_cases Hin.
  - eexists [_; _], _. now rewrite <- !app_assoc.
Qed.

Lemma App_steps_after_step_11 w st ctx s4 t4 l4 l5 lines :
  logs s4 = (logs st ++ l4)%list ->
  (let r := (App.try_workaround (log (App.clock w)) ctx true ;;
             App.capabilities (log (App.clock w)) (App.wallet ctx)) s4 in
   App.steps w st = (completion r, final r, (t4 ++ events r)%list)) ->
  completion (App.try_workaround (log (App.clock w)) ctx true s4) = Normal tt ->
  logs (final (App.try_workaround (log (App.clock w)) ctx true s4))
  = (logs s4 ++ l5 ++ lines)%list ->
  completion (App.steps w st) = Normal tt
  /\ events (App.steps w st)
     = (t4 ++ events (App.try_workaround (log (App.clock w)) ctx true s4)
           ++ events (App.capabilities (log (App.clock w)) (App.wallet ctx)
                        (final (App.try_workaround (log (App.clock w)) ctx
                                  true s4))))%list
  /\ exists t after,
      logs (final (App.steps w st))
      = (logs st ++ (l4 ++ l5)
         ++ (lines
             ++ [mkLogEntry t info
                   "Step 12: Checking Dynamic wallet capabilities..."])
         ++ after)%list.
Proof.
  intros L4 E C5 L5. cbv zeta in E. rewrite E. project_run.
  destruct (@App_finish (App.clock w) ctx true s4 C5) as (C6 & t6 & l6 & L6).
  destruct (@bind_normal _ _ (App.try_workaround (log (App.clock w)) ctx true)
              (fun _ => App.capabilities (log (App.clock w)) (App.wallet ctx))
              s4 _ C5) as (Be & _ & _).
  split; [exact C6|]. split; [now rewrite Be|].
  exists t6, l6. rewrite L6, L5, L4, <- !app_assoc. reflexivity.
Qed.

(** X13.  In the bug reproduction, when [signAuthorizations] has thrown
    an error and the wallet client has no [signAuthorization], the bypass
    makes no call: the heading of step 11 is followed by the error line that
    the function is not available and then by the heading of step 12, and
    the run completes. *)
Theorem bypass_needs_signAuthorization
    (w : App.World) (st : State) (m : string) (wc : App.WalletClient) :
  In (EvCall Call.signAuthorizations (Rejected (JsError m)))
     (events (runTest (BugRepro w) st)) ->
  App.createWalletClient w = Ok wc ->
  App.signAuthorization wc = None ->
  let r := runTest (BugRepro w) st in
  completion r = Normal tt
  /\ (forall c o, In (EvCall c o) (events r) -> App_workaround_calls c = false)
  /\ exists t1 t2 t3,
      holds_in_a_row (logs (final r))
        [mkLogEntry t1 info
           "Step 11: Testing walletClient.signAuthorization workaround...";
         mkLogEntry t2 error
           "walletClient.signAuthorization not available on this walletClient";
         mkLogEntry t3 info
           "Step 12: Checking Dynamic wallet capabilities..."].
Proof.
  intros H Hwc Hs. cbv zeta. apply run_calls in H.
  simpl steps in H. simpl entry in H.
  apply App_steps_reach_step_11 in H.
  destruct H as (ctx & s4 & t4 & l4 & _ & Ewc & _ & L4 & N4 & E).
  assert (Hs' : App.signAuthorization (App.walletClient ctx) = None)
    by congruence.
  destruct (@App_try_workaround_unavailable (App.clock w) ctx s4 Hs')
    as (C5 & N5 & t1 & t2 & L5).
  destruct (@App_steps_after_step_11 w (cleared st) ctx s4 t4 l4 [] _
              L4 E C5 L5) as (C & Ev & t3 & after & L).
  destruct (@run_of_normal_steps (BugRepro w) st C) as [E1 E2].
  split; [exact E1|]. split.
  - intros c o Hin. apply run_calls in Hin. simpl steps in Hin.
    simpl entry in Hin. rewrite Ev in Hin.
    apply in_app_or in Hin. destruct Hin as [Hin|Hin]; [now apply (N4 c o)|].
    apply in_app_or in Hin. destruct Hin as [Hin|Hin];
      [now apply N5 in Hin|].
    exfalso. revert Hin.
    now apply (script_no_call (App_capabilities_script _ _)).
  - exists t1, t2, t3, l4, after. rewrite E2.
    simpl steps. simpl entry. rewrite L. simpl. now rewrite app_nil_r.
Qed.

Lemma bypass_needs_signAuthorization_witness :
  completion (runTest (BugRepro Scenario.app_with_plain_client) Demo.initial)
  = Normal tt.
Proof.
  apply (@bypass_needs_signAuthorization Scenario.app_with_plain_client Demo.initial
           "Account type json-rpc is not supported" (App.mkWalletClient None)).
  - vm_compute. repeat (try (left; reflexivity); right).
  - reflexivity.
  - reflexivity.
Defined.

(** X14.  In the bug reproduction, an error thrown by
    [getTransactionMessages] stays inside step 11: it is logged as a failed
    workaround setup, [walletClient.signAuthorization] is not called, step 12
    follows and the run completes. *)
Theorem bypass_setup_failure_is_caught
    (w : App.World) (st : State) (m : string) (wc : App.WalletClient)
    (answer : Result Authorization.t) (ra : App.RhinestoneAccount)
    (reason : string) :
  In (EvCall Call.signAuthorizations (Rejected (JsError m)))
     (events (runTest (BugRepro w) st)) ->
  App.createWalletClient w = Ok wc ->
  App.signAuthorization wc = Some answer ->
  App.createAccount w = Ok ra ->
  App.getTransactionMessages ra = Throws (JsError reason) ->
  let r := runTest (BugRepro w) st in
  completion r = Normal tt
  /\ (forall d o, ~ In (EvCall (Call.walletClient_signAuthorization d) o)
                      (events r))
  /\ exists t1 t2,
      holds_in_a_row (logs (final r))
        [mkLogEntry t1 error ("Workaround setup failed: " ++ reason);
         mkLogEntry t2 info
           "Step 12: Checking Dynamic wallet capabilities..."].
Proof.
  intros H Hwc Hs Hra Hm. cbv zeta. apply run_calls in H.
  simpl steps in H. simpl entry in H.
  apply App_steps_reach_step_11 in H.
  destruct H as (ctx & s4 & t4 & l4 & _ & Ewc & Era & L4 & N4 & E).
  assert (Hs' : App.signAuthorization (App.walletClient ctx) = Some answer)
    by congruence.
  assert (Hm' : App.getTransactionMessages (App.rhinestoneAccount ctx)
                = Throws (JsError reason)) by congruence.
  destruct (@App_try_workaround_setup_failed (App.clock w) ctx s4 answer
              reason Hs' Hm') as (C5 & N5 & l5 & t1 & L5).
  destruct (@App_steps_after_step_11 w (cleared st) ctx s4 t4 l4 l5 _
              L4 E C5 L5) as (C & Ev & t2 & after & L).
  destruct (@run_of_normal_steps (BugRepro w) st C) as [E1 E2].
  split; [exact E1|]. split.
  - intros d o Hin. apply run_calls in Hin. simpl steps in Hin.
    simpl entry in Hin. rewrite Ev in Hin.
    apply in_app_or in Hin. destruct Hin as [Hin|Hin];
      [apply N4 in Hin; discriminate Hin|].
    apply in_app_or in Hin. destruct Hin as [Hin|Hin];
      [now apply N5 in Hin|].
    revert Hin. now apply (script_no_call (App_capabilities_script _ _)).
  - exists t1, t2, (l4 ++ l5)%list, after. rewrite E2.
    simpl steps. simpl entry. rewrite L. reflexivity.
Qed.

Lemma bypass_setup_failure_is_caught_witness :
  completion (runTest (BugRepro (Demo.app [8453%Z] Scenario.silent_account))
                Demo.initial) = Normal tt.
Proof.
  apply (@bypass_setup_failure_is_caught
           (Demo.app [8453%Z] Scenario.silent_account) Demo.initial
           "Account type json-rpc is not supported"
           (App.mkWalletClient (Some (Throws (JsError "Method not found"))))
           (Throws (JsError "Method not found")) Scenario.silent_account
           "no messages").
  - vm_compute. repeat (try (left; reflexivity); right).
  - reflexivity.
  - reflexivity.
  - reflexivity.
  - reflexivity.
Defined.

(** X15.  In the bug reproduction, when [signAuthorizations] rejects with
    a value that has no [message], the failure line reads [undefined], the
    test for the known messages fails on it, and the run ends in the outer
    [catch]: the last line is the unexpected-error line, and steps 11 and 12
    make no call. *)
Theorem failure_without_message_ends_the_run (w : App.World) (st : State) :
  In (EvCall Call.signAuthorizations (Rejected JsNoMessage))
     (events (runTest (BugRepro w) st)) ->
  let r := runTest (BugRepro w) st in
  completion r = Normal tt
  /\ (forall c o, In (EvCall c o) (events r) -> App_workaround_calls c = false)
  /\ exists earlier t1 t2 reason,
      logs (final r)
      = (earlier
         ++ [mkLogEntry t1 error "signAuthorizations FAILED: undefined";
             mkLogEntry t2 error ("Unexpected error: " ++ reason)])%list.
Proof.
  intro H. cbv zeta. apply run_calls in H.
  simpl steps in H. simpl entry in H.
  pose proof H as R. apply App_steps_reach_step_10 in R.
  destruct R as (ctx & s3 & t3 & l3 & _ & _ & _ & L3 & N3 & E).
  cbv zeta in E.
  assert (Hc : In (EvCall Call.signAuthorizations (Rejected JsNoMessage))
                  (events (App.critical_test (log (App.clock w))
                             (App.rhinestoneAccount ctx) s3))).
  { rewrite E in H. project_run. apply in_app_or in H.
    destruct H as [H|H]; [apply N3 in H; discriminate H|].
    now apply App_late_focus in H. }
  destruct (@App_critical_test_logs_failure (App.clock w)
              (App.rhinestoneAccount ctx) s3 JsNoMessage
              ltac:(discriminate) Hc) as (t0 & t1 & l & L4 & Hl).
  destruct (Hl eq_refl) as (-> & reason & C4). clear Hl.
  destruct (@bind_abrupt _ _
              (App.critical_test (log (App.clock w))
                 (App.rhinestoneAccount ctx))
              (fun signAuthFailed =>
                 App.try_workaround (log (App.clock w)) ctx signAuthFailed ;;
                 App.capabilities (log (App.clock w)) (App.wallet ctx)) s3)
    as (Be & Bf & _ & Bc).
  { intros a Ha. rewrite C4 in Ha. discriminate Ha. }
  specialize (Bc _ C4). rewrite Be, Bf, Bc in E.
  assert (C : completion (steps (BugRepro w) (entry (BugRepro w) st))
              = Throw (JsError reason)) by (simpl; now rewrite E).
  destruct (run_of_throw _ _ C) as (E1 & t2 & E2).
  split; [exact E1|]. split.
  - intros c o Hin. apply run_calls in Hin. simpl steps in Hin.
    simpl entry in Hin. rewrite E in Hin. project_run.
    apply in_app_or in Hin. destruct Hin as [Hin|Hin];
      [now apply late_calls_workaround, (N3 c o)|].
    destruct (script_events (App_critical_test_script _ _) _ _ Hin)
      as [F|F]; [destruct F|]. now destruct c.
  - rewrite E2. simpl steps. simpl entry. rewrite E. project_run.
    rewrite L4, L3. simpl.
    eexists (l3 ++ [_])%list, t1, t2, reason.
    rewrite <- !app_assoc. reflexivity.
Qed.

Lemma failure_without_message_ends_the_run_witness :
  completion (runTest (BugRepro (Demo.app [8453%Z] Scenario.blunt_account))
                Demo.initial) = Normal tt.
Proof.
  apply (@failure_without_message_ends_the_run
           (Demo.app [8453%Z] Scenario.blunt_account) Demo.initial).
  vm_compute. repeat (try (left; reflexivity); right).
Defined.

(* ================================================================== *)
(** * The last line *)
(* ================================================================== *)

Lemma last_level_app l e : last_level (l ++ [e]) = Some (level e).
Proof. unfold last_level. now rewrite rev_app_distr. Qed.

Lemma rae_never (A : Type) (m : M A) :
  never_returns m -> returns_after_error m.
Proof. intros H st C. now destruct (H st). Qed.

Lemma rae_bind (A B : Type) (m : M A) (k : A -> M B) :
  returns_after_error m -> (forall a, returns_after_error (k a)) ->
  returns_after_error (bind m k).
Proof.
  intros Hm Hk st. rewrite completion_bind, final_bind.
  specialize (Hm st). destruct (completion (m st)) as [a| |e];
    [apply Hk|intros _; now apply Hm|discriminate].
Qed.

Lemma completion_tryCatch (A : Type) (m : M A) h st :
  completion (tryCatch m h st)
  = match completion (m st) with
    | Throw e => completion (h e (final (m st)))
    | c => c
    end.
Proof.
  unfold completion, final. cbn.
  destruct (m st) as [[[a| |e] s1] t1]; cbn; try reflexivity.
  now destruct (h e s1) as [[c2 s2] t2].
Qed.

Lemma final_tryCatch (A : Type) (m : M A) h st :
  final (tryCatch m h st)
  = match completion (m st) with
    | Throw e => final (h e (final (m st)))
    | _ => final (m st)
    end.
Proof.
  unfold completion, final. cbn.
  destruct (m st) as [[[a| |e] s1] t1]; cbn; try reflexivity.
  now destruct (h e s1) as [[c2 s2] t2].
Qed.

Lemma rae_tryCatch (A : Type) (m : M A) (h : Thrown -> M A) :
  returns_after_error m -> (forall e, returns_after_error (h e)) ->
  returns_after_error (tryCatch m h).
Proof.
  intros Hm Hh st. rewrite completion_tryCatch, final_tryCatch.
  specialize (Hm st). destruct (completion (m st)) as [a| |e];
    [discriminate|exact Hm|apply Hh].
Qed.

Lemma rae_error_return (A : Type) clk s :
  returns_after_error (bind (log clk error s) (fun _ => @return_ A)).
Proof. intros st _. unfold final. cbn. apply last_level_app. Qed.

Lemma rae_require (A : Type) (x : option A) clk s :
  returns_after_error (require x (log clk error s)).
Proof.
  destruct x; simpl; [now apply rae_never|apply rae_error_return].
Qed.

Lemma rae_when (b : bool) (m : M unit) :
  returns_after_error m -> returns_after_error (when b m).
Proof. intro H. destruct b; simpl; [exact H|now apply rae_never]. Qed.

Lemma never_pure (A : Type) (a : A) : never_returns (pure a).
Proof. intros st; discriminate. Qed.

Lemma never_log clk lvl s : never_returns (log clk lvl s).
Proof. intros st; discriminate. Qed.

Lemma never_call (A : Type) c (r : Result A) : never_returns (call c r).
Proof. intros st; destruct r; discriminate. Qed.

Lemma never_optional_call (A : Type) c (r : option (Result A)) d :
  never_returns (optional_call c r d).
Proof. destruct r; simpl; [apply never_call|apply never_pure]. Qed.

Lemma never_throw (A : Type) e : never_returns (@throw A e).
Proof. intros st; discriminate. Qed.

Lemma never_emit ev : never_returns (emit ev).
Proof. intros st; discriminate. Qed.

Lemma never_message e : never_returns (message e).
Proof. destruct e; intros st; discriminate. Qed.

Lemma never_includes_any m l : never_returns (includes_any m l).
Proof. destruct m; intros st; discriminate. Qed.

Lemma never_read : never_returns read_contractAddress.
Proof. intros st; discriminate. Qed.

Lemma never_store a : never_returns (setLastAuthorization a).
Proof. intros st; discriminate. Qed.

Lemma never_bind (A B : Type) (m : M A) (k : A -> M B) :
  never_returns m -> (forall a, never_returns (k a)) ->
  never_returns (bind m k).
Proof.
  intros Hm Hk st. rewrite completion_bind. specialize (Hm st).
  destruct (completion (m st)) as [a| |e];
    [apply Hk|intros _; now apply Hm|discriminate].
Qed.

Lemma never_serve clk reqs :
  never_returns (RhinestoneTest.serve (log clk) reqs).
Proof.
  induction reqs as [|[request answer] reqs IH]; [apply never_pure|].
  change (RhinestoneTest.serve (log clk) ((request, answer) :: reqs))
    with (bind (RhinestoneTest.eoaAccount (log clk) (request, answer))
               (fun _ => RhinestoneTest.serve (log clk) reqs)).
  apply never_bind; [|intros _; exact IH].
  destruct request; simpl; try apply never_emit.
  apply never_bind; [apply never_log|intros _; apply never_emit].
Qed.

Lemma never_sdk_call clk (A : Type) c (answer : RhinestoneTest.Answer A) :
  never_returns (RhinestoneTest.sdk_call (log clk) c answer).
Proof.
  unfold RhinestoneTest.sdk_call.
  apply never_bind; [apply never_serve|intros _; apply never_call].
Qed.

Ltac never_step :=
  lazymatch goal with
  | |- never_returns (pure _) => apply never_pure
  | |- never_returns (log _ _ _) => apply never_log
  | |- never_returns (call _ _) => apply never_call
  | |- never_returns (optional_call _ _ _) => apply never_optional_call
  | |- never_returns (throw _) => apply never_throw
  | |- never_returns (emit _) => apply never_emit
  | |- never_returns (message _) => apply never_message
  | |- never_returns (includes_any _ _) => apply never_includes_any
  | |- never_returns read_contractAddress => apply never_read
  | |- never_returns (setLastAuthorization _) => apply never_store
  | |- never_returns (RhinestoneTest.sdk_call _ _ _) => apply never_sdk_call
  end.

Ltac rae_step :=
  lazymatch goal with
  | |- returns_after_error (bind (log _ error _) (fun _ => return_)) =>
      apply rae_error_return
  | |- returns_after_error (bind _ _) => apply rae_bind; [|intro]
  | |- returns_after_error (tryCatch _ _) => apply rae_tryCatch; [|intro]
  | |- returns_after_error (when _ _) => apply rae_when
  | |- returns_after_error (require _ (log _ error _)) => apply rae_require
  | |- returns_after_error (match ?x with _ => _ end) => destruct x
  | |- returns_after_error _ => apply rae_never; never_step
  end.

Ltac rae_auto := cbv zeta; repeat rae_step.

Lemma steps_return_after_error (v : Variant) :
  returns_after_error (steps v).
Proof.
  destruct v as [w|w|w]; simpl.
  - unfold App.steps, App.setup, App.sign_init_data, App.prepare,
      App.critical_test, App.try_workaround, App.workaround,
      App.capabilities.
    rae_auto.
  - unfold RhinestoneTest.steps, RhinestoneTest.setup,
      RhinestoneTest.sign_init_data, RhinestoneTest.prepare,
      RhinestoneTest.sign_and_submit.
    rae_auto.
  - unfold Eip7702Test.steps, Eip7702Test.identify,
      Eip7702Test.check_network, Eip7702Test.activate, Eip7702Test.sign.
    rae_auto.
Qed.

Lemma eoi_bind_last (A B : Type) (m : M A) (k : A -> M B) :
  (forall a, ends_on_info (k a)) -> ends_on_info (bind m k).
Proof.
  intros Hk st b. rewrite completion_bind, final_bind.
  destruct (completion (m st)) as [a| |e]; try discriminate. apply Hk.
Qed.

Lemma eoi_log clk s : ends_on_info (log clk info s).
Proof. intros st a _. unfold final. cbn. apply last_level_app. Qed.

Lemma eoi_return (A : Type) : ends_on_info (@return_ A).
Proof. intros st a H. discriminate H. Qed.

Lemma eoi_throw (A : Type) e : ends_on_info (@throw A e).
Proof. intros st a H. discriminate H. Qed.

Ltac eoi_step :=
  lazymatch goal with
  | |- ends_on_info (bind _ _) => apply eoi_bind_last; intro
  | |- ends_on_info (log _ info _) => apply eoi_log
  | |- ends_on_info return_ => apply eoi_return
  | |- ends_on_info (throw _) => apply eoi_throw
  | |- ends_on_info (match ?x with _ => _ end) => destruct x
  end.

Lemma App_capabilities_ends_on_info clk wallet :
  ends_on_info (App.capabilities (log clk) wallet).
Proof.
  intros st a _. unfold App.capabilities, final. cbn.
  destruct wallet as [addr [[nm sup nets gn sn sa gaa gs hwc hpk]|] gwc]; cbn.
  - destruct nm as [n|]; cbn;
      [destruct (includes (toLowerCase n) "embedded"
                 || includes (toLowerCase n) "dynamic"); cbn|];
      destruct hwc, gs, hpk; cbn; apply last_level_app.
  - apply last_level_app.
Qed.

Lemma steps_end_on_info (v : Variant) : ends_on_info (steps v).
Proof.
  destruct v as [w|w|w]; simpl.
  - unfold App.steps. cbv zeta. do 5 (apply eoi_bind_last; intro).
    apply App_capabilities_ends_on_info.
  - unfold RhinestoneTest.steps, RhinestoneTest.sign_and_submit.
    cbv zeta. repeat eoi_step.
  - unfold Eip7702Test.steps, Eip7702Test.sign. cbv zeta. repeat eoi_step.
Qed.

Lemma handler_logs_error (v : Variant) (e : Thrown) (st : State) :
  e <> JsNullish ->
  completion (handler v e st) = Normal tt
  /\ last_level (logs (final (handler v e st))) = Some error.
Proof.
  intro Hn. destruct e as [m| |]; [| |now destruct Hn];
    destruct v; (split; [reflexivity|]); unfold final; cbn;
    apply last_level_app.
Qed.

Lemma handler_never_returns (v : Variant) (e : Thrown) :
  never_returns (handler v e).
Proof.
  destruct v; simpl;
    [unfold App.unexpected|unfold RhinestoneTest.failed
    |unfold Eip7702Test.failed];
    repeat (apply never_bind; [|intro]); never_step.
Qed.

(** X16.  In every variant the last line of the log tells how the run
    went: a run that ends by [return] has an error line last; so has a run
    whose steps threw an error value, which the [catch] clause logs; and a
    run whose steps went through to the end has an info line last. *)
Theorem last_line_tells_the_outcome (v : Variant) (st : State) :
  let r := runTest v st in
  let body := steps v (entry v st) in
  (completion r = Return -> last_level (logs (final r)) = Some error)
  /\ (forall e, completion body = Throw e -> e <> JsNullish ->
                completion r = Normal tt
                /\ last_level (logs (final r)) = Some error)
  /\ (completion body = Normal tt ->
      completion r = Normal tt
      /\ last_level (logs (final r)) = Some info).
Proof.
  cbv zeta. rewrite run_completion, run_logs. split; [|split].
  - pose proof (@steps_return_after_error v (entry v st)) as R.
    destruct (completion (steps v (entry v st))) as [u| |e];
      [discriminate|intros _; now apply R|].
    intro C. now apply handler_never_returns in C.
  - intros e C Hn. rewrite C. now apply handler_logs_error.
  - intro C. rewrite C. split; [reflexivity|].
    now apply (@steps_end_on_info v (entry v st) tt).
Qed.

Lemma last_line_tells_the_outcome_witness :
  last_level
    (logs (final (runTest (EndToEnd Demo.end_to_end_without_wallet)
                    Demo.initial))) = Some error
  /\ last_level
       (logs (final (runTest (BugRepro (Demo.app [8453%Z] Scenario.ready_account))
                       Demo.initial))) = Some info.
Proof.
  split.
  - apply (proj1 (last_line_tells_the_outcome
                    (EndToEnd Demo.end_to_end_without_wallet) Demo.initial)).
    reflexivity.
  - apply (proj2 (proj2 (last_line_tells_the_outcome
                           (BugRepro (Demo.app [8453%Z] Scenario.ready_account))
                           Demo.initial))).
    reflexivity.
Defined.

(* ================================================================== *)
(** * Direct signing *)
(* ================================================================== *)

Lemma Eip7702Test_identify_only w :
  script (Eip7702Test.clock w) (among Eip7702Test_identify_calls false)
    (Eip7702Test.identify w).
Proof. unfold Eip7702Test.identify. script_auto. Qed.

Lemma Eip7702Test_check_network_only clock connector :
  script clock (among Eip7702Test_network_calls false)
    (Eip7702Test.check_network (log clock) connector).
Proof. unfold Eip7702Test.check_network. script_auto. Qed.

Lemma Eip7702Test_activate_only clock wallet connector :
  script clock (among Eip7702Test_activate_calls false)
    (Eip7702Test.activate (log clock) wallet connector).
Proof. unfold Eip7702Test.activate. script_auto. Qed.

Lemma Eip7702Test_identify_normal w st wallet connector :
  completion (Eip7702Test.identify w st) = Normal (wallet, connector) ->
  Eip7702Test.primaryWallet w = Some wallet
  /\ Wallet.connector wallet = Some connector.
Proof.
  destruct w as [clk pw]. unfold Eip7702Test.identify, completion. cbn.
  destruct pw as [[addr conn gwc]|]; cbn; [|discriminate].
  destruct conn as [[nm sup nets gn sn sa gaa gs hwc hpk]|]; cbn;
    [|discriminate].
  destruct sup as [[[]|e]|]; cbn; try discriminate;
    intros [= <- <-]; auto.
Qed.

Lemma Eip7702Test_sign_call clk connector st address chain o :
  In (EvCall (Call.signer_signAuthorization address chain) o)
     (events (Eip7702Test.sign (log clk) connector st)) ->
  address = contractAddress st /\ chain = base_id.
Proof.
  unfold Eip7702Test.sign, events. cbn.
  destruct (Connector.getSigner connector) as [[[[acct sg]|]|e]|]; cbn;
    try (intro H; in_cases H; fail).
  destruct sg as [[[a|]|e]|]; cbn; intro H; in_cases H;
    injection H as <- <-; auto.
Qed.

(** X17.  The direct-signing runner asks the signer to authorize exactly
    the contract address that stands in the input field when the run starts,
    on Base, and a run leaves the field as it was. *)
Theorem signer_gets_the_address_in_the_field
    (w : Eip7702Test.World) (st : State) :
  let r := runTest (DirectSigning w) st in
  (forall address chain o,
      In (EvCall (Call.signer_signAuthorization address chain) o) (events r) ->
      address = contractAddress st /\ chain = base_id)
  /\ contractAddress (final r) = contractAddress st.
Proof.
  cbv zeta. split.
  - intros address chain o H. apply run_calls in H.
    simpl steps in H. simpl entry in H.
    unfold Eip7702Test.steps in H. cbv zeta in H.
    eapply focus_call in H;
      [destruct H as (found & _ & H)|apply (Eip7702Test_identify_only w)
      |reflexivity].
    destruct (script_frame (Eip7702Test_identify_only w) (cleared_all st))
      as (_ & A1 & _).
    set (s1 := final (Eip7702Test.identify w (cleared_all st))) in *.
    eapply focus_call in H;
      [destruct H as ([] & _ & H)|apply Eip7702Test_check_network_only
      |reflexivity].
    destruct (script_frame
                (Eip7702Test_check_network_only (Eip7702Test.clock w)
                   (snd found)) s1) as (_ & A2 & _).
    set (s2 := final (Eip7702Test.check_network _ _ s1)) in *.
    eapply focus_call in H;
      [destruct H as ([] & _ & H)|apply Eip7702Test_activate_only
      |reflexivity].
    destruct (script_frame
                (Eip7702Test_activate_only (Eip7702Test.clock w)
                   (fst found) (snd found)) s2) as (_ & A3 & _).
    apply Eip7702Test_sign_call in H. rewrite A3, A2, A1 in H. exact H.
  - destruct (runTest_normal_form (DirectSigning w) (contractAddress st))
      as (c & cs & la & t & E).
    now rewrite (E st eq_refl).
Qed.

Lemma signer_gets_the_address_in_the_field_witness :
  Eip7702Test.TEST_DELEGATE_CONTRACT = contractAddress Demo.initial
  /\ 8453%Z = base_id.
Proof.
  apply (proj1 (signer_gets_the_address_in_the_field
                  (Demo.direct [8453%Z]) Demo.initial)
           Eip7702Test.TEST_DELEGATE_CONTRACT 8453%Z Returned).
  vm_compute. repeat (try (left; reflexivity); right).
Defined.

Lemma Eip7702Test_check_network_switch clk connector st n o :
  In (EvCall (Call.switchNetwork n) o)
     (events (Eip7702Test.check_network (log clk) connector st)) ->
  n = base_id
  /\ existsb (Z.eqb base_id)
       (match Connector.evmNetworks connector with
        | Some networks => networks
        | None => []
        end) = true
  /\ Connector.getNetwork connector <> Some (Ok (Some base_id)).
Proof.
  unfold Eip7702Test.check_network, events. cbn -[of_Z stringify_numbers].
  destruct (existsb (Z.eqb base_id)
              match Connector.evmNetworks connector with
              | Some networks => networks
              | None => []
              end); cbn -[of_Z stringify_numbers];
    [|intro H; in_cases H].
  destruct (Connector.getNetwork connector) as [[[current|]|e]|];
    cbn -[of_Z stringify_numbers].
  - destruct (current =? base_id)%Z eqn:E; cbn -[of_Z stringify_numbers].
    + intro H. in_cases H.
    + destruct (Connector.switchNetwork connector) as [[[]|e]|];
        cbn -[of_Z stringify_numbers]; intro H; in_cases H;
        injection H as <- <-; repeat split; auto;
        intros [= ->]; discriminate E.
  - destruct (Connector.switchNetwork connector) as [[[]|e]|];
      cbn -[of_Z stringify_numbers]; intro H; in_cases H;
      injection H as <- <-; repeat split; auto; discriminate.
  - intro H. in_cases H.
  - destruct (Connector.switchNetwork connector) as [[[]|e]|];
      cbn -[of_Z stringify_numbers]; intro H; in_cases H;
      injection H as <- <-; repeat split; auto; discriminate.
Qed.

(** X18.  The direct-signing runner calls [switchNetwork] only for Base,
    only when the wallet declares Base, and only when [getNetwork] has not
    answered Base already. *)
Theorem network_is_switched_only_when_needed
    (w : Eip7702Test.World) (st : State) (n : Z) (o : Outcome) :
  In (EvCall (Call.switchNetwork n) o)
     (events (runTest (DirectSigning w) st)) ->
  n = base_id
  /\ exists wallet connector,
      Eip7702Test.primaryWallet w = Some wallet
      /\ Wallet.connector wallet = Some connector
      /\ existsb (Z.eqb base_id) (Wallet.declared_chains wallet) = true
      /\ Connector.getNetwork connector <> Some (Ok (Some base_id)).
Proof.
  intro H. apply run_calls in H. simpl steps in H. simpl entry in H.
  unfold Eip7702Test.steps in H. cbv zeta in H.
  eapply focus_call in H;
    [destruct H as ([wallet connector] & C1 & H)
    |apply (Eip7702Test_identify_only w)|reflexivity].
  apply Eip7702Test_identify_normal in C1. destruct C1 as [Ew Ec].
  cbn [fst snd] in H.
  rewrite events_bind_app in H. apply in_app_or in H.
  destruct H as [H|H].
  - apply Eip7702Test_check_network_switch in H.
    destruct H as (-> & Hb & Hg). split; [reflexivity|].
    exists wallet, connector. repeat split; auto.
    unfold Wallet.declared_chains. now rewrite Ec.
  - exfalso. destruct (completion (Eip7702Test.check_network _ _ _));
      try easy.
    rewrite events_bind_app in H. apply in_app_or in H.
    destruct H as [H|H].
    + revert H.
      now apply (script_no_call (Eip7702Test_activate_only _ _ _)).
    + destruct (completion (Eip7702Test.activate _ _ _ _)); try easy.
      revert H. now apply (script_no_call (Eip7702Test_sign_script _ _)).
Qed.

Lemma network_is_switched_only_when_needed_witness :
  8453%Z = base_id
  /\ exists wallet connector,
      Eip7702Test.primaryWallet (Demo.direct [8453%Z]) = Some wallet
      /\ Wallet.connector wallet = Some connector
      /\ existsb (Z.eqb base_id) (Wallet.declared_chains wallet) = true
      /\ Connector.getNetwork connector <> Some (Ok (Some base_id)).
Proof.
  apply (@network_is_switched_only_when_needed
           (Demo.direct [8453%Z]) Demo.initial 8453%Z Returned).
  vm_compute. repeat (try (left; reflexivity); right).
Defined.

Lemma Eip7702Test_activate_normal clk wallet connector st :
  completion (Eip7702Test.activate (log clk) wallet connector st)
  = Normal tt ->
  (exists t1 t2,
      events (Eip7702Test.activate (log clk) wallet connector st)
      = (t1 ++ EvCall (Call.setActiveAccount (Wallet.address wallet)) Returned
            :: t2)%list)
  /\ exists active,
      Connector.getActiveAccount connector = Some (Ok active)
      /\ truthy active = true.
Proof.
  unfold Eip7702Test.activate, completion, events. cbn.
  destruct (Connector.setActiveAccount connector) as [[[]|e]|]; cbn;
    try discriminate.
  destruct (Connector.getActiveAccount connector) as [[active|e]|]; cbn;
    try discriminate.
  destruct (truthy active) eqn:T; cbn; try discriminate.
  intros _. split.
  - eexists [_], _. reflexivity.
  - now exists active.
Qed.

(** X19.  The direct-signing runner asks for the signer only after
    [setActiveAccount] has returned for the address of the connected wallet
    and [getActiveAccount] has reported an address. *)
Theorem signer_is_acquired_after_activation
    (w : Eip7702Test.World) (st : State) (o : Outcome) :
  In (EvCall Call.getSigner o) (events (runTest (DirectSigning w) st)) ->
  exists wallet connector active t1 t2,
    Eip7702Test.primaryWallet w = Some wallet
    /\ Wallet.connector wallet = Some connector
    /\ Connector.getActiveAccount connector = Some (Ok active)
    /\ truthy active = true
    /\ events (runTest (DirectSigning w) st)
       = (t1 ++ EvCall (Call.setActiveAccount (Wallet.address wallet)) Returned
             :: t2)%list
    /\ In (EvCall Call.getSigner o) t2.
Proof.
  intro H. rewrite run_events. apply run_calls in H.
  simpl steps in *. simpl entry in *.
  unfold Eip7702Test.steps in *. cbv zeta in *.
  pose proof H as H0.
  eapply focus_call in H0;
    [destruct H0 as ([wallet connector] & C1 & H1)
    |apply (Eip7702Test_identify_only w)|reflexivity].
  destruct (@bind_normal _ _ (Eip7702Test.identify w)
              (fun found =>
                 Eip7702Test.check_network (log (Eip7702Test.clock w))
                   (snd found) ;;
                 Eip7702Test.activate (log (Eip7702Test.clock w))
                   (fst found) (snd found) ;;
                 Eip7702Test.sign (log (Eip7702Test.clock w)) (snd found))
              (cleared_all st) _ C1) as (B1 & _ & _).
  cbv beta in B1. cbn [fst snd] in H1, B1.
  apply Eip7702Test_identify_normal in C1. destruct C1 as [Ew Ec].
  set (s1 := final (Eip7702Test.identify w (cleared_all st))) in *.
  pose proof H1 as H0.
  eapply focus_call in H0;
    [destruct H0 as ([] & C2 & H2)|apply Eip7702Test_check_network_only
    |reflexivity].
  destruct (@bind_normal _ _
              (Eip7702Test.check_network (log (Eip7702Test.clock w))
                 connector)
              (fun _ =>
                 Eip7702Test.activate (log (Eip7702Test.clock w))
                   wallet connector ;;
                 Eip7702Test.sign (log (Eip7702Test.clock w)) connector)
              s1 _ C2) as (B2 & _ & _).
  cbv beta in B2.
  set (s2 := final (Eip7702Test.check_network _ _ s1)) in *.
  pose proof H2 as H0.
  eapply focus_call in H0;
    [destruct H0 as ([] & C3 & H3)|apply Eip7702Test_activate_only
    |reflexivity].
  destruct (@bind_normal _ _
              (Eip7702Test.activate (log (Eip7702Test.clock w))
                 wallet connector)
              (fun _ =>
                 Eip7702Test.sign (log (Eip7702Test.clock w)) connector)
              s2 _ C3) as (B3 & _ & _).
  cbv beta in B3.
  apply Eip7702Test_activate_normal in C3.
  destruct C3 as ((ta & tb & Ea) & active & Ga & Ta).
  exists wallet, connector, active.
  rewrite B1, B2, B3, Ea.
  eexists (resets (DirectSigning w) ++ EvSetRunning true
             :: events (Eip7702Test.identify w (cleared_all st))
             ++ events (Eip7702Test.check_network _ _ s1) ++ ta)%list, _.
  split; [exact Ew|]. split; [exact Ec|]. split; [exact Ga|].
  split; [exact Ta|]. split.
  - rewrite <- !app_assoc. cbn [app]. rewrite <- !app_assoc.
    cbn [app]. reflexivity.
  - rewrite !in_app_iff. tauto.
Qed.

Lemma signer_is_acquired_after_activation_witness :
  exists wallet connector active t1 t2,
    Eip7702Test.primaryWallet (Demo.direct [8453%Z]) = Some wallet
    /\ Wallet.connector wallet = Some connector
    /\ Connector.getActiveAccount connector = Some (Ok active)
    /\ truthy active = true
    /\ events (runTest (DirectSigning (Demo.direct [8453%Z])) Demo.initial)
       = (t1 ++ EvCall (Call.setActiveAccount (Wallet.address wallet)) Returned
             :: t2)%list
    /\ In (EvCall Call.getSigner Returned) t2.
Proof.
  apply (@signer_is_acquired_after_activation
           (Demo.direct [8453%Z]) Demo.initial Returned).
  vm_compute. repeat (try (left; reflexivity); right).
Defined.

(* ================================================================== *)
(** * The end-to-end flow *)
(* ================================================================== *)

Lemma RhinestoneTest_setup_account w st ra :
  completion (RhinestoneTest.setup w st) = Normal ra ->
  RhinestoneTest.result (RhinestoneTest.createAccount w) = Ok ra.
Proof.
  destruct w as [clk key wallet ta sdk ca].
  unfold RhinestoneTest.setup, RhinestoneTest.sdk_call, completion. cbn.
  destruct (RhinestoneTest_serve_run clk (RhinestoneTest.requests ca))
    as (cs & t & Ht & E).
  destruct wallet as [[addr conn gwc]|]; cbn; [|discriminate].
  destruct conn as [[nm sup nets gn sn sa gaa gs hwc hpk]|]; cbn;
    [|discriminate].
  destruct sa as [sa|]; cbn; [|discriminate].
  destruct gs as [gs|]; cbn; [|discriminate].
  destruct sa as [[]|e]; cbn; [|discriminate].
  destruct gs as [signer|e]; cbn; [|discriminate].
  destruct signer as [[acct [sg|]]|]; cbn; [|discriminate..].
  destruct ta as [[]|e]; cbn; [|discriminate].
  destruct (truthy key); cbn; [|discriminate].
  destruct sdk as [[]|e]; cbn; [|discriminate].
  rewrite E. cbn.
  destruct (RhinestoneTest.result ca) as [acc|e]; cbn; [|discriminate].
  destruct (RhinestoneTest.getAddress acc) as [a|e] eqn:Ea; cbn;
    [|discriminate].
  now intros [= <-].
Qed.

Lemma RhinestoneTest_sign_init_data_value clk ra st sig :
  completion (RhinestoneTest.sign_init_data (log clk) ra st) = Normal sig ->
  match RhinestoneTest.result (RhinestoneTest.signEip7702InitData ra) with
  | Ok s => sig = s
  | Throws _ => sig = None
  end.
Proof.
  unfold RhinestoneTest.sign_init_data, RhinestoneTest.sdk_call, completion.
  destruct (RhinestoneTest_serve_run clk
              (RhinestoneTest.requests
                 (RhinestoneTest.signEip7702InitData ra)))
    as (cs & t & Ht & E).
  cbn. rewrite E. cbn.
  destruct (RhinestoneTest.result (RhinestoneTest.signEip7702InitData ra))
    as [s|e]; cbn.
  - now intros [= <-].
  - destruct e; cbn; intro H; try discriminate H; now injection H as <-.
Qed.

Lemma RhinestoneTest_prepare_call clk ra sig0 st sig o :
  In (EvCall (Call.prepareTransaction sig) o)
     (events (RhinestoneTest.prepare (log clk) ra sig0 st)) ->
  sig = sig0.
Proof.
  unfold RhinestoneTest.prepare, RhinestoneTest.sdk_call, events.
  destruct (RhinestoneTest_serve_run clk
              (RhinestoneTest.requests (RhinestoneTest.prepareTransaction ra)))
    as (cs & t & Ht & E).
  cbn. destruct (RhinestoneTest.getAddress ra) as [addr|e0]; cbn;
    [|intro H; in_cases H].
  rewrite E. cbn.
  destruct (RhinestoneTest.result (RhinestoneTest.prepareTransaction ra))
    as [[]|e0]; cbn; intro H; in_split H;
    try (apply Ht in H; discriminate H); now injection H.
Qed.

(** X20.  The end-to-end runner hands [prepareTransaction] the init
    signature exactly as [signEip7702InitData] returned it, whatever it is,
    and none when that call threw. *)
Theorem init_signature_is_passed_on
    (w : RhinestoneTest.World) (st : State) (sig : option string)
    (o : Outcome) :
  In (EvCall (Call.prepareTransaction sig) o)
     (events (runTest (EndToEnd w) st)) ->
  exists ra,
    RhinestoneTest.result (RhinestoneTest.createAccount w) = Ok ra
    /\ match RhinestoneTest.result (RhinestoneTest.signEip7702InitData ra) with
       | Ok s => sig = s
       | Throws _ => sig = None
       end.
Proof.
  intro H. apply run_calls in H. simpl steps in H. simpl entry in H.
  unfold RhinestoneTest.steps in H. cbv zeta in H.
  eapply focus_call in H;
    [destruct H as (ra & C1 & H)|apply (RhinestoneTest_setup_script w)
    |reflexivity].
  apply RhinestoneTest_setup_account in C1.
  eapply focus_call in H;
    [destruct H as (sig0 & C2 & H)
    |apply RhinestoneTest_sign_init_data_script|reflexivity].
  apply RhinestoneTest_sign_init_data_value in C2.
  exists ra. split; [exact C1|].
  rewrite events_bind_app in H. apply in_app_or in H.
  destruct H as [H|H].
  - apply RhinestoneTest_prepare_call in H. now subst sig0.
  - exfalso. destruct (completion (RhinestoneTest.prepare _ _ _ _));
      try easy.
    revert H.
    now apply (script_no_call (RhinestoneTest_sign_and_submit_script _ _)).
Qed.

Lemma init_signature_is_passed_on_witness :
  exists ra,
    RhinestoneTest.result (RhinestoneTest.createAccount Scenario.willing) = Ok ra
    /\ match RhinestoneTest.result (RhinestoneTest.signEip7702InitData ra) with
       | Ok s => Some "0x" = s
       | Throws _ => Some "0x" = None
       end.
Proof.
  apply (@init_signature_is_passed_on Scenario.willing Demo.initial (Some "0x")
           Returned).
  vm_compute. repeat (try (left; reflexivity); right).
Defined.

Lemma snoc_twice (A : Type) (l : list A) a b :
  ((l ++ [a]) ++ [b] = l ++ [a; b])%list.
Proof. now rewrite <- app_assoc. Qed.

Lemma RhinestoneTest_prepare_normal clk ra sig st :
  completion (RhinestoneTest.prepare (log clk) ra sig st) = Normal tt ->
  exists ta tb,
    events (RhinestoneTest.prepare (log clk) ra sig st)
    = (ta ++ EvCall (Call.prepareTransaction sig) Returned :: tb)%list.
Proof.
  unfold RhinestoneTest.prepare, RhinestoneTest.sdk_call, completion, events.
  destruct (RhinestoneTest_serve_run clk
              (RhinestoneTest.requests (RhinestoneTest.prepareTransaction ra)))
    as (cs & t & Ht & E).
  cbn. destruct (RhinestoneTest.getAddress ra) as [addr|e0]; cbn;
    [|discriminate].
  rewrite E. cbn.
  destruct (RhinestoneTest.result (RhinestoneTest.prepareTransaction ra))
    as [[]|e0]; cbn; [|discriminate].
  intros _. eexists (_ :: _ :: t), _. cbn. rewrite <- app_assoc. reflexivity.
Qed.

Lemma RhinestoneTest_sign_and_submit_run clk ra st o :
  In (EvCall Call.submitTransaction o)
     (events (RhinestoneTest.sign_and_submit (log clk) ra st)) ->
  let r := RhinestoneTest.sign_and_submit (log clk) ra st in
  (exists t1 t2 t3,
      events r
      = (t1 ++ EvCall Call.signTransaction Returned
            :: t2 ++ EvCall Call.signAuthorizations Returned :: t3)%list
      /\ In (EvCall Call.submitTransaction o) t3)
  /\ (o = Returned ->
      completion r = Normal tt
      /\ exists submitted earlier t1 t2,
          RhinestoneTest.result (RhinestoneTest.submitTransaction ra)
          = Ok submitted
          /\ logs (final r)
             = (earlier
                ++ [mkLogEntry t1 success "=== TRANSACTION SUBMITTED ===";
                    mkLogEntry t2 info ("Result: " ++ submitted)])%list).
Proof.
  unfold RhinestoneTest.sign_and_submit, RhinestoneTest.sdk_call,
    completion, final, events.
  destruct (RhinestoneTest_serve_run clk
              (RhinestoneTest.requests (RhinestoneTest.signTransaction ra)))
    as (cs1 & t1 & Ht1 & E1).
  destruct (RhinestoneTest_serve_run clk
              (RhinestoneTest.requests (RhinestoneTest.signAuthorizations ra)))
    as (cs2 & t2 & Ht2 & E2).
  destruct (RhinestoneTest_serve_run clk
              (RhinestoneTest.requests (RhinestoneTest.submitTransaction ra)))
    as (cs3 & t3 & Ht3 & E3).
  cbn -[of_Z]. rewrite E1. cbn -[of_Z].
  destruct (RhinestoneTest.result (RhinestoneTest.signTransaction ra))
    as [[]|e]; cbn -[of_Z];
    [|intro H; in_split H; apply Ht1 in H; discriminate H].
  rewrite E2. cbn -[of_Z].
  destruct (RhinestoneTest.result (RhinestoneTest.signAuthorizations ra))
    as [n|e]; cbn -[of_Z];
    [|intro H; in_split H;
      [apply Ht1 in H; discriminate H|apply Ht2 in H; discriminate H]].
  rewrite E3. cbn -[of_Z].
  destruct (RhinestoneTest.result (RhinestoneTest.submitTransaction ra))
    as [submitted|e]; cbn -[of_Z]; intro H.
  - split.
    + eexists (_ :: t1), (_ :: _ :: t2), _. split.
      * repeat (cbn; rewrite <- ?app_assoc). reflexivity.
      * in_split H; try (apply Ht1 in H; discriminate H);
          try (apply Ht2 in H; discriminate H);
          try (apply Ht3 in H; discriminate H).
        injection H as <-. right. right. apply in_or_app. right. now left.
    + intros _. split; [reflexivity|].
      exists submitted.
      eexists _, _, _. split; [reflexivity|]. apply snoc_twice.
  - split.
    + eexists (_ :: t1), (_ :: _ :: t2), _. split.
      * repeat (cbn; rewrite <- ?app_assoc). reflexivity.
      * in_split H; try (apply Ht1 in H; discriminate H);
          try (apply Ht2 in H; discriminate H);
          try (apply Ht3 in H; discriminate H).
        injection H as <-. right. right. apply in_or_app. right. now left.
    + intros ->. exfalso.
      in_split H; try (apply Ht1 in H; discriminate H);
        try (apply Ht2 in H; discriminate H);
        try (apply Ht3 in H; discriminate H).
Qed.

(** A run of the steps that gets to [submitTransaction] has gone through
    the blocks before the signing block. *)
Lemma RhinestoneTest_steps_reach_submit w st o :
  In (EvCall Call.submitTransaction o) (events (RhinestoneTest.steps w st)) ->
  exists ra sig s3 t0 ta tb,
    RhinestoneTest.result (RhinestoneTest.createAccount w) = Ok ra
    /\ In (EvCall Call.submitTransaction o)
          (events (RhinestoneTest.sign_and_submit
                     (log (RhinestoneTest.clock w)) ra s3))
    /\ let r := RhinestoneTest.sign_and_submit
                  (log (RhinestoneTest.clock w)) ra s3 in
       RhinestoneTest.steps w st
       = (completion r, final r,
          (t0 ++ (ta ++ EvCall (Call.prepareTransaction sig) Returned :: tb)
              ++ events r)%list).
Proof.
  unfold RhinestoneTest.steps. cbv zeta. intro H.
  pose proof H as H0.
  eapply focus_call in H0;
    [destruct H0 as (ra & C1 & H1)|apply (RhinestoneTest_setup_script w)
    |reflexivity].
  destruct (@bind_normal _ _ (RhinestoneTest.setup w)
              (fun rhinestoneAccount =>
                 eip7702InitSignature <-
                   RhinestoneTest.sign_init_data
                     (log (RhinestoneTest.clock w)) rhinestoneAccount ;;
                 RhinestoneTest.prepare (log (RhinestoneTest.clock w))
                   rhinestoneAccount eip7702InitSignature ;;
                 RhinestoneTest.sign_and_submit
                   (log (RhinestoneTest.clock w)) rhinestoneAccount)
              st _ C1) as (B1e & B1f & B1c).
  cbv beta in B1e, B1f, B1c.
  apply RhinestoneTest_setup_account in C1.
  set (s1 := final (RhinestoneTest.setup w st)) in *.
  pose proof H1 as H0.
  eapply focus_call in H0;
    [destruct H0 as (sig & C2 & H2)
    |apply RhinestoneTest_sign_init_data_script|reflexivity].
  destruct (@bind_normal _ _
              (RhinestoneTest.sign_init_data
                 (log (RhinestoneTest.clock w)) ra)
              (fun eip7702InitSignature =>
                 RhinestoneTest.prepare (log (RhinestoneTest.clock w))
                   ra eip7702InitSignature ;;
                 RhinestoneTest.sign_and_submit
                   (log (RhinestoneTest.clock w)) ra)
              s1 _ C2) as (B2e & B2f & B2c).
  cbv beta in B2e, B2f, B2c.
  set (s2 := final (RhinestoneTest.sign_init_data _ _ s1)) in *.
  pose proof H2 as H0.
  eapply focus_call in H0;
    [destruct H0 as ([] & C3 & H3)
    |apply RhinestoneTest_prepare_script|reflexivity].
  destruct (@bind_normal _ _
              (RhinestoneTest.prepare (log (RhinestoneTest.clock w)) ra sig)
              (fun _ =>
                 RhinestoneTest.sign_and_submit
                   (log (RhinestoneTest.clock w)) ra)
              s2 _ C3) as (B3e & B3f & B3c).
  cbv beta in B3e, B3f, B3c.
  apply RhinestoneTest_prepare_normal in C3. destruct C3 as (ta & tb & Ep).
  exists ra, sig, (final (RhinestoneTest.prepare
                            (log (RhinestoneTest.clock w)) ra sig s2)),
    (events (RhinestoneTest.setup w st)
     ++ events (RhinestoneTest.sign_init_data
                  (log (RhinestoneTest.clock w)) ra s1))%list, ta, tb.
  split; [exact C1|]. split; [exact H3|]. cbv zeta.
  rewrite (run_triple (bind (RhinestoneTest.setup w) _ st)).
  rewrite B1e, B1f, B1c, B2e, B2f, B2c, B3e, B3f, B3c, Ep.
  now rewrite <- !app_assoc.
Qed.

(** X21.  The end-to-end runner calls [submitTransaction] only after
    [prepareTransaction], [signTransaction] and [signAuthorizations] have
    returned, in this order. *)
Theorem submission_comes_last
    (w : RhinestoneTest.World) (st : State) (o : Outcome) :
  In (EvCall Call.submitTransaction o) (events (runTest (EndToEnd w) st)) ->
  exists sig t0 t1 t2 t3,
    events (runTest (EndToEnd w) st)
    = (t0 ++ EvCall (Call.prepareTransaction sig) Returned
          :: t1 ++ EvCall Call.signTransaction Returned
          :: t2 ++ EvCall Call.signAuthorizations Returned :: t3)%list
    /\ In (EvCall Call.submitTransaction o) t3.
Proof.
  intro H. rewrite run_events. apply run_calls in H.
  simpl steps in *. simpl entry in *.
  apply RhinestoneTest_steps_reach_submit in H.
  destruct H as (ra & sig & s3 & t0 & ta & tb & _ & H & E).
  cbv zeta in E. rewrite E. project_run.
  apply RhinestoneTest_sign_and_submit_run in H.
  destruct H as ((t1 & t2 & t3 & Es & Hin) & _).
  rewrite Es.
  eexists sig,
    (resets (EndToEnd w) ++ EvSetRunning true :: t0 ++ ta)%list,
    (tb ++ t1)%list, t2, _.
  split.
  - repeat (cbn [app]; rewrite <- ?app_assoc). reflexivity.
  - rewrite in_app_iff. now left.
Qed.

Lemma submission_comes_last_witness :
  exists sig t0 t1 t2 t3,
    events (runTest (EndToEnd Scenario.willing) Demo.initial)
    = (t0 ++ EvCall (Call.prepareTransaction sig) Returned
          :: t1 ++ EvCall Call.signTransaction Returned
          :: t2 ++ EvCall Call.signAuthorizations Returned :: t3)%list
    /\ In (EvCall Call.submitTransaction Returned) t3.
Proof.
  apply (@submission_comes_last Scenario.willing Demo.initial Returned).
  vm_compute. repeat (try (left; reflexivity); right).
Defined.

(** X22.  In the end-to-end runner, when [submitTransaction] returns, the
    run completes and its last two log lines are the banner and the
    serialized result. *)
Theorem submitted_transaction_is_reported
    (w : RhinestoneTest.World) (st : State) :
  In (EvCall Call.submitTransaction Returned)
     (events (runTest (EndToEnd w) st)) ->
  let r := runTest (EndToEnd w) st in
  completion r = Normal tt
  /\ exists ra submitted earlier t1 t2,
      RhinestoneTest.result (RhinestoneTest.createAccount w) = Ok ra
      /\ RhinestoneTest.result (RhinestoneTest.submitTransaction ra)
         = Ok submitted
      /\ logs (final r)
         = (earlier
            ++ [mkLogEntry t1 success "=== TRANSACTION SUBMITTED ===";
                mkLogEntry t2 info ("Result: " ++ submitted)])%list.
Proof.
  intro H. cbv zeta. apply run_calls in H.
  simpl steps in *. simpl entry in *.
  apply RhinestoneTest_steps_reach_submit in H.
  destruct H as (ra & sig & s3 & t0 & ta & tb & Era & H & E).
  cbv zeta in E.
  apply RhinestoneTest_sign_and_submit_run in H.
  destruct H as (_ & H). destruct (H eq_refl)
    as (C & submitted & earlier & t1 & t2 & Es & L).
  assert (Cs : completion (steps (EndToEnd w) (entry (EndToEnd w) st))
               = Normal tt).
  { simpl. rewrite E. project_run. exact C. }
  destruct (@run_of_normal_steps (EndToEnd w) st Cs) as [E1 E2].
  split; [exact E1|].
  exists ra, submitted, earlier, t1, t2.
  split; [exact Era|]. split; [exact Es|].
  rewrite E2. simpl steps. simpl entry. rewrite E. project_run. exact L.
Qed.

Lemma submitted_transaction_is_reported_witness :
  completion (runTest (EndToEnd Scenario.willing) Demo.initial) = Normal tt.
Proof.
  apply (@submitted_transaction_is_reported Scenario.willing Demo.initial).
  vm_compute. repeat (try (left; reflexivity); right).
Defined.

(* ================================================================== *)
(** * Transactions, and the authorization shown *)
(* ================================================================== *)

Lemma among_subset (cs cs' : Call.t -> bool) stores :
  (forall c, cs c = true -> cs' c = true) ->
  forall ev, among cs false ev -> among cs' stores ev.
Proof. intros H [| |[a|]| | |c o]; simpl; auto. discriminate. Qed.

Lemma script_subset clk (cs cs' : Call.t -> bool) stores (A : Type) (m : M A) :
  (forall c, cs c = true -> cs' c = true) ->
  script clk (among cs false) m -> script clk (among cs' stores) m.
Proof. intro H. apply script_weaken. now apply among_subset. Qed.

Lemma App_steps_calls w :
  script (App.clock w) (among App_calls false) (App.steps w).
Proof.
  unfold App.steps. cbv zeta.
  apply script_bind;
    [apply (@script_subset _ App_setup_calls); [|apply App_setup_script]
    |intro ctx].
  { intros c H. unfold App_calls. now rewrite H. }
  apply script_bind;
    [apply (@script_subset _ App_init_calls);
     [|apply App_sign_init_data_script]|intro sig].
  { intros c H. unfold App_calls. rewrite H. now rewrite orb_true_r. }
  apply script_bind;
    [apply (@script_subset _ App_prepare_calls); [|apply App_prepare_script]
    |intros _].
  { intros c H. unfold App_calls. rewrite H. now rewrite !orb_true_r. }
  apply (@script_subset _ App_late_calls); [|apply App_late_script].
  intros c H. unfold App_calls. rewrite H. now rewrite !orb_true_r.
Qed.

Lemma Eip7702Test_steps_calls w :
  script (Eip7702Test.clock w) (among Eip7702Test_calls true)
    (Eip7702Test.steps w).
Proof.
  assert (B : forall c, Eip7702Test_before_signer_calls c = true ->
                        Eip7702Test_calls c = true)
    by (intros c H; unfold Eip7702Test_calls; now rewrite H).
  unfold Eip7702Test.steps. cbv zeta.
  apply script_bind;
    [apply (@script_subset _ _ _ true _ _ B), Eip7702Test_identify_script|intro found].
  apply script_bind;
    [apply (@script_subset _ _ _ true _ _ B), Eip7702Test_check_network_script|intros _].
  apply script_bind;
    [apply (@script_subset _ _ _ true _ _ B), Eip7702Test_activate_script|intros _].
  apply (@script_weaken _ (among Eip7702Test_sign_calls true));
    [|apply Eip7702Test_sign_script].
  intros [| |[a|]| | |c o]; simpl; auto.
  intro H. unfold Eip7702Test_calls. rewrite H. apply orb_true_r.
Qed.

(** X23.  Only the end-to-end runner signs or submits a transaction: the
    bug reproduction and the direct-signing runner never call
    [signTransaction] or [submitTransaction], nor the signer's
    [signTransaction]. *)
Theorem only_the_end_to_end_runner_handles_transactions
    (v : Variant) (st : State) (c : Call.t) (o : Outcome) :
  In (EvCall c o) (events (runTest v st)) ->
  transaction_call c = true ->
  exists w, v = EndToEnd w.
Proof.
  intros H Hc. apply run_calls in H. destruct v as [w|w|w]; simpl in H.
  - exfalso. revert H. apply (script_no_call (App_steps_calls w)).
    now destruct c.
  - now exists w.
  - exfalso. revert H. apply (script_no_call (Eip7702Test_steps_calls w)).
    now destruct c.
Qed.

Lemma only_the_end_to_end_runner_handles_transactions_witness :
  exists w, EndToEnd Scenario.willing = EndToEnd w.
Proof.
  apply (@only_the_end_to_end_runner_handles_transactions
           (EndToEnd Scenario.willing) Demo.initial Call.submitTransaction Returned).
  - vm_compute. repeat (try (left; reflexivity); right).
  - reflexivity.
Defined.

Lemma focus_store (A B : Type) clk cs (m : M A) (k : A -> M B) st a :
  script clk (among cs false) m ->
  In (EvSetLastAuthorization (Some a)) (events (bind m k st)) ->
  exists x,
    completion (m st) = Normal x
    /\ In (EvSetLastAuthorization (Some a)) (events (k x (final (m st)))).
Proof.
  intros S H. rewrite events_bind in H.
  destruct (script_frame S st) as (_ & _ & N).
  destruct (completion (m st)) as [x| |e];
    [|now apply N in H..].
  exists x. split; [reflexivity|].
  apply in_app_or in H. destruct H as [H|H]; [now apply N in H|exact H].
Qed.

Lemma Eip7702Test_sign_shows clk connector st a :
  In (EvSetLastAuthorization (Some a))
     (events (Eip7702Test.sign (log clk) connector st)) ->
  completion (Eip7702Test.sign (log clk) connector st) = Normal tt
  /\ exists before after,
      map content (logs (final (Eip7702Test.sign (log clk) connector st)))
      = (map content (logs st) ++ before ++ authorization_lines a ++ after)%list.
Proof.
  unfold Eip7702Test.sign, completion, final, events.
  cbn -[of_Z tmplZ].
  destruct (Connector.getSigner connector) as [[[[acct sg]|]|e]|];
    cbn -[of_Z tmplZ]; try (intro H; in_cases H; fail).
  destruct sg as [[[a'|]|e]|]; cbn -[of_Z tmplZ];
    try (intro H; in_cases H; fail).
  intro H. in_cases H. injection H as ->.
  split; [reflexivity|].
  eexists [_; _; _; _; _], [_; _; _; _; _; _; _].
  rewrite !map_app. cbn -[of_Z tmplZ]. rewrite <- !app_assoc. reflexivity.
Qed.

(** In the direct-signing runner, the run that stores an authorization
    completes, and has logged six lines for its fields, the numbers among
    them with the digits that [tmplZ] gives. *)
Lemma stored_authorization_lines
    (w : Eip7702Test.World) (st : State) (a : Authorization.t) :
  In (EvSetLastAuthorization (Some a))
     (events (runTest (DirectSigning w) st)) ->
  let r := runTest (DirectSigning w) st in
  completion r = Normal tt
  /\ exists before after,
      map content (logs (final r))
      = (before ++ authorization_lines a ++ after)%list.
Proof.
  intro H. cbv zeta.
  assert (Hs : In (EvSetLastAuthorization (Some a))
                  (events (Eip7702Test.steps w (cleared_all st)))).
  { rewrite run_events in H. simpl steps in H. simpl entry in H.
    apply in_app_or in H. destruct H as [H|H]; [in_cases H|].
    destruct H as [H|H]; [discriminate H|].
    apply in_app_or in H. destruct H as [H|H]; [exact H|].
    now apply (@run_tail_stores (DirectSigning w) st) in H. }
  clear H. unfold Eip7702Test.steps in Hs. cbv zeta in Hs.
  pose proof Hs as H0.
  eapply focus_store in H0;
    [destruct H0 as (found & C1 & H1)|apply (Eip7702Test_identify_only w)].
  destruct (script_appends (Eip7702Test_identify_only w) (cleared_all st))
    as [l1 L1].
  destruct (@bind_normal _ _ (Eip7702Test.identify w)
              (fun found =>
                 Eip7702Test.check_network (log (Eip7702Test.clock w))
                   (snd found) ;;
                 Eip7702Test.activate (log (Eip7702Test.clock w))
                   (fst found) (snd found) ;;
                 Eip7702Test.sign (log (Eip7702Test.clock w)) (snd found))
              (cleared_all st) _ C1) as (_ & B1f & B1c).
  cbv beta in B1f, B1c.
  set (s1 := final (Eip7702Test.identify w (cleared_all st))) in *.
  pose proof H1 as H0.
  eapply focus_store in H0;
    [destruct H0 as ([] & C2 & H2)|apply Eip7702Test_check_network_only].
  destruct (script_appends
              (Eip7702Test_check_network_only (Eip7702Test.clock w)
                 (snd found)) s1) as [l2 L2].
  destruct (@bind_normal _ _
              (Eip7702Test.check_network (log (Eip7702Test.clock w))
                 (snd found))
              (fun _ =>
                 Eip7702Test.activate (log (Eip7702Test.clock w))
                   (fst found) (snd found) ;;
                 Eip7702Test.sign (log (Eip7702Test.clock w)) (snd found))
              s1 _ C2) as (_ & B2f & B2c).
  cbv beta in B2f, B2c.
  set (s2 := final (Eip7702Test.check_network _ _ s1)) in *.
  pose proof H2 as H0.
  eapply focus_store in H0;
    [destruct H0 as ([] & C3 & H3)|apply Eip7702Test_activate_only].
  destruct (script_appends
              (Eip7702Test_activate_only (Eip7702Test.clock w)
                 (fst found) (snd found)) s2) as [l3 L3].
  destruct (@bind_normal _ _
              (Eip7702Test.activate (log (Eip7702Test.clock w))
                 (fst found) (snd found))
              (fun _ =>
                 Eip7702Test.sign (log (Eip7702Test.clock w)) (snd found))
              s2 _ C3) as (_ & B3f & B3c).
  cbv beta in B3f, B3c.
  set (s3 := final (Eip7702Test.activate _ _ _ s2)) in *.
  apply Eip7702Test_sign_shows in H3.
  destruct H3 as (C4 & before & after & L4).
  assert (C : completion (steps (DirectSigning w)
                            (entry (DirectSigning w) st)) = Normal tt).
  { simpl. unfold Eip7702Test.steps. cbv zeta.
    now rewrite B1c, B2c, B3c. }
  destruct (@run_of_normal_steps (DirectSigning w) st C) as [E1 E2].
  split; [exact E1|].
  rewrite E2. simpl steps. simpl entry. unfold Eip7702Test.steps. cbv zeta.
  rewrite B1f, B2f, B3f, L4, L3, L2, L1. simpl logs. simpl app.
  exists (map content (l1 ++ l2 ++ l3) ++ before)%list, after.
  rewrite !map_app, <- !app_assoc. reflexivity.
Qed.

(** X24.  In the direct-signing runner, the run that stores an
    authorization for the result panel completes; and when the chain id, the
    nonce and the parity of that authorization are safe integers (so that
    the log prints all their digits), the six lines that show its fields are
    in the log, one after the other. *)
Theorem stored_authorization_is_the_one_shown
    (w : Eip7702Test.World) (st : State) (a : Authorization.t) :
  In (EvSetLastAuthorization (Some a))
     (events (runTest (DirectSigning w) st)) ->
  let r := runTest (DirectSigning w) st in
  completion r = Normal tt
  /\ (safe_numbers a = true ->
      exists before after,
        map content (logs (final r))
        = (before ++ authorization_lines a ++ after)%list).
Proof.
  intro H. destruct (stored_authorization_lines w st a H) as [C L].
  split; [exact C|intros _; exact L].
Qed.

Lemma stored_authorization_is_the_one_shown_witness :
  exists before after,
    map content
        (logs (final (runTest (DirectSigning (Demo.direct [8453%Z]))
                              Demo.initial)))
    = (before
       ++ [(success, "Contract: 0xABC"); (success, "Chain ID: 8453");
           (success, "Nonce: 3"); (success, "r: 0x1"); (success, "s: 0x2");
           (success, "yParity: 0")]
       ++ after)%list.
Proof.
  apply (@stored_authorization_is_the_one_shown
           (Demo.direct [8453%Z]) Demo.initial Demo.authorization).
  - vm_compute. repeat (try (left; reflexivity); right).
  - reflexivity.
Defined.

(* ================================================================== *)
(** * The connected wallet *)
(* ================================================================== *)

Lemma script_carries_nothing clk cs stores (A : Type) (m : M A) :
  script clk (among cs stores) m ->
  (forall c, cs c = true -> carried_address c = None) ->
  forall st c o a,
    In (EvCall c o) (events (m st)) -> carried_address c <> Some a.
Proof.
  intros S Hcs st c o a Hin Hc.
  destruct (script_events S _ _ Hin) as [F|F]; [destruct F|].
  simpl in F. apply Hcs in F. congruence.
Qed.

Lemma App_setup_carries w st c o a :
  In (EvCall c o) (events (App.setup w st)) ->
  carried_address c = Some a ->
  exists wallet, App.primaryWallet w = Some wallet
                 /\ a = Wallet.address wallet.
Proof.
  destruct w as [clk key wallet cwc wcta sdk ca].
  unfold App.setup, events. cbn.
  destruct wallet as [wallet|]; cbn; [|intro H; in_cases H].
  intros H Hc. exists wallet. split; [reflexivity|].
  assert (G : c = Call.createWalletClient (Wallet.address wallet)
              \/ carried_address c = None).
  { destruct (Wallet.getWalletClient wallet) as [[|]|e]; cbn in H;
      try (in_cases H; injection H as <- _; now right).
    destruct cwc as [wc|e]; cbn in H;
      [|in_cases H; injection H as <- _; auto].
    destruct wcta as [ty|e]; cbn in H;
      [|in_cases H; injection H as <- _; auto].
    destruct (truthy key); cbn in H;
      [|in_cases H; injection H as <- _; auto].
    destruct sdk as [[]|e]; cbn in H;
      [|in_cases H; injection H as <- _; auto].
    destruct ca as [acc|e]; cbn in H;
      [|in_cases H; injection H as <- _; auto].
    destruct (App.getAddress acc) as [x|e]; cbn in H;
      [|in_cases H; injection H as <- _; auto].
    destruct (App.isDeployed acc) as [d|e]; cbn in H;
      in_cases H; injection H as <- _; auto. }
  destruct G as [->|G]; [|congruence].
  simpl in Hc. congruence.
Qed.

Lemma RhinestoneTest_setup_carries w st c o a :
  In (EvCall c o) (events (RhinestoneTest.setup w st)) ->
  carried_address c = Some a ->
  exists wallet, RhinestoneTest.primaryWallet w = Some wallet
                 /\ a = Wallet.address wallet.
Proof.
  destruct w as [clk key wallet ta sdk ca].
  unfold RhinestoneTest.setup, RhinestoneTest.sdk_call, events. cbn.
  destruct (RhinestoneTest_serve_run clk (RhinestoneTest.requests ca))
    as (cs & t & Ht & E).
  destruct wallet as [wallet|]; cbn; [|intro H; in_cases H].
  intros H Hc. exists wallet. split; [reflexivity|].
  assert (G : c = Call.setActiveAccount (Wallet.address wallet)
              \/ c = Call.toAccount (Wallet.address wallet)
              \/ carried_address c = None).
  { destruct (Wallet.connector wallet)
      as [[nm sup nets gn sn sa gaa gs hwc hpk]|]; cbn in H;
      [|in_cases H].
    destruct sa as [sa|]; cbn in H; [|in_cases H].
    destruct gs as [gs|]; cbn in H; [|in_cases H].
    destruct sa as [[]|e]; cbn in H;
      [|in_cases H; injection H as <- _; auto].
    destruct gs as [signer|e]; cbn in H;
      [|in_cases H; injection H as <- _; auto].
    destruct signer as [[acct [sg|]]|]; cbn in H;
      try (in_cases H; injection H as <- _; auto; fail).
    destruct ta as [[]|e]; cbn in H;
      [|in_cases H; injection H as <- _; auto].
    destruct (truthy key); cbn in H;
      [|in_cases H; injection H as <- _; auto].
    destruct sdk as [[]|e]; cbn in H;
      [|in_cases H; injection H as <- _; auto].
    rewrite E in H. cbn in H.
    assert (Ht' : In (EvCall c o) t -> carried_address c = None)
      by (intro Hin; apply Ht in Hin; now destruct c).
    destruct (RhinestoneTest.result ca) as [acc|e]; cbn in H.
    - destruct (RhinestoneTest.getAddress acc) as [x|e]; cbn in H;
        in_split H; auto; injection H as <- _; auto.
    - in_split H; auto; injection H as <- _; auto. }
  destruct G as [->|[->|G]]; [simpl in Hc; congruence..|congruence].
Qed.

Lemma Eip7702Test_activate_carries clk wallet connector st c o a :
  In (EvCall c o)
     (events (Eip7702Test.activate (log clk) wallet connector st)) ->
  carried_address c = Some a ->
  a = Wallet.address wallet.
Proof.
  unfold Eip7702Test.activate, events. cbn.
  destruct (Connector.setActiveAccount connector) as [[[]|e]|]; cbn;
    try (intro H; in_cases H; injection H as <- _; simpl; congruence).
  destruct (Connector.getActiveAccount connector) as [[active|e]|]; cbn;
    try destruct (truthy active); cbn;
    intro H; in_cases H; injection H as <- _; simpl; congruence.
Qed.

(** X25.  In every variant, [setActiveAccount], [createWalletClient] and
    [toAccount] are called for the address of the connected wallet and for
    no other. *)
Theorem calls_are_made_for_the_connected_wallet
    (v : Variant) (st : State) (c : Call.t) (o : Outcome) (a : string) :
  In (EvCall c o) (events (runTest v st)) ->
  carried_address c = Some a ->
  exists wallet, primaryWallet v = Some wallet /\ a = Wallet.address wallet.
Proof.
  intros H Hc. apply run_calls in H. destruct v as [w|w|w]; simpl in *.
  - unfold App.steps in H. cbv zeta in H.
    rewrite events_bind_app in H. apply in_app_or in H.
    destruct H as [H|H]; [eapply App_setup_carries; eassumption|].
    exfalso. destruct (completion (App.setup w (cleared st))) as [ctx| |e];
      try easy.
    rewrite events_bind_app in H. apply in_app_or in H.
    destruct H as [H|H].
    { revert H Hc.
      apply (script_carries_nothing (App_sign_init_data_script _ _)).
      now intros []. }
    destruct (completion (App.sign_init_data _ _ _)) as [sig| |e];
      try easy.
    rewrite events_bind_app in H. apply in_app_or in H.
    destruct H as [H|H].
    { revert H Hc.
      apply (script_carries_nothing (App_prepare_script _ _ _)).
      now intros []. }
    destruct (completion (App.prepare _ _ _ _)) as [[]| |e]; try easy.
    revert H Hc.
    apply (script_carries_nothing (App_late_script _ ctx)).
    now intros [].
  - unfold RhinestoneTest.steps in H. cbv zeta in H.
    rewrite events_bind_app in H. apply in_app_or in H.
    destruct H as [H|H]; [eapply RhinestoneTest_setup_carries; eassumption|].
    exfalso.
    destruct (completion (RhinestoneTest.setup w (cleared st)))
      as [ra| |e]; try easy.
    rewrite events_bind_app in H. apply in_app_or in H.
    destruct H as [H|H].
    { revert H Hc.
      apply (script_carries_nothing
               (RhinestoneTest_sign_init_data_script _ _)).
      now intros []. }
    destruct (completion (RhinestoneTest.sign_init_data _ _ _))
      as [sig| |e]; try easy.
    rewrite events_bind_app in H. apply in_app_or in H.
    destruct H as [H|H].
    { revert H Hc.
      apply (script_carries_nothing (RhinestoneTest_prepare_script _ _ _)).
      now intros []. }
    destruct (completion (RhinestoneTest.prepare _ _ _ _)) as [[]| |e];
      try easy.
    revert H Hc.
    apply (script_carries_nothing
             (RhinestoneTest_sign_and_submit_script _ _)).
    now intros [].
  - unfold Eip7702Test.steps in H. cbv zeta in H.
    rewrite events_bind_app in H. apply in_app_or in H.
    destruct H as [H|H].
    { exfalso. revert H Hc.
      apply (script_carries_nothing (Eip7702Test_identify_only w)).
      now intros []. }
    destruct (completion (Eip7702Test.identify w (cleared_all st)))
      as [[wallet connector]| |e] eqn:C1; try easy.
    apply Eip7702Test_identify_normal in C1. destruct C1 as [Ew Ec].
    cbn [fst snd] in H.
    rewrite events_bind_app in H. apply in_app_or in H.
    destruct H as [H|H].
    { exfalso. revert H Hc.
      apply (script_carries_nothing (Eip7702Test_check_network_only _ _)).
      now intros []. }
    destruct (completion (Eip7702Test.check_network _ _ _)) as [[]| |e];
      try easy.
    rewrite events_bind_app in H. apply in_app_or in H.
    destruct H as [H|H].
    { exists wallet. split; [exact Ew|].
      eapply Eip7702Test_activate_carries; eassumption. }
    exfalso.
    destruct (completion (Eip7702Test.activate _ _ _ _)) as [[]| |e];
      try easy.
    revert H Hc.
    apply (script_carries_nothing (Eip7702Test_sign_script _ _)).
    now intros [].
Qed.

Lemma calls_are_made_for_the_connected_wallet_witness :
  exists wallet,
    primaryWallet (EndToEnd Scenario.willing) = Some wallet
    /\ Demo.sender = Wallet.address wallet.
Proof.
  apply (@calls_are_made_for_the_connected_wallet
           (EndToEnd Scenario.willing) Demo.initial (Call.toAccount Demo.sender)
           Returned Demo.sender).
  - vm_compute. repeat (try (left; reflexivity); right).
  - reflexivity.
Defined.
